(** * Knowting quiz application: selection engine, quiz session flow and
      visibility rules (src/app.py, src/db.py)

    A shallow embedding of the Python sources.  Python lists are Rocq lists,
    dictionaries keyed by integers are [gmap]s, insertion-ordered
    dictionaries whose key order is observed are association lists, and the
    process-local random source is an explicit state that every shuffle
    threads through.  Python exceptions are results of type [outcome]. *)

From Stdlib Require Import ZArith QArith Ascii String List Permutation Sorted Lia Bool.
From Stdlib Require Import Decimal DecimalString DecimalPos DecimalZ.
From stdpp Require Import base option list gmap strings.

Close Scope Q_scope.
Local Open Scope string_scope.
Local Open Scope list_scope.
Local Open Scope Z_scope.

(** ** Python values and exceptions *)

Inductive exn : Type :=
| ZeroDivisionError
| IndexError
| KeyError
| ValueError.

(** The outcome of running a piece of Python code with a bounded number of
    loop iterations: a value, an exception, or the bound was reached. *)
Inductive outcome (A : Type) : Type :=
| Returned (a : A)
| Raised (e : exn)
| OutOfFuel.

Arguments Returned {A} a.
Arguments Raised {A} e.
Arguments OutOfFuel {A}.

#[global] Instance outcome_ret : MRet outcome := λ A a, Returned a.

#[global] Instance outcome_bind : MBind outcome := λ A B k m,
  match m with
  | Returned a => k a
  | Raised e => Raised e
  | OutOfFuel => OutOfFuel
  end.

(** [l[i]] for a Python list and a Python int: negative indices count from
    the end, anything outside [-len, len) is an [IndexError] ([None]). *)
Definition py_index {A} (l : list A) (i : Z) : option A :=
  if (0 <=? i) then l !! Z.to_nat i
  else if (- Z.of_nat (length l) <=? i) then l !! Z.to_nat (Z.of_nat (length l) + i)
  else None.

(** [l.index(x)]: position of the first element equal to [x]. *)
Fixpoint py_list_index `{EqDecision A} (x : A) (l : list A) : option nat :=
  match l with
  | [] => None
  | y :: l' => if decide (y = x) then Some 0%nat else S <$> py_list_index x l'
  end.

(** ** The random source (module [random])

    The generator is a stream of raw draws and a read position.
    [randbelow n] is the next draw reduced into [0, n). *)
Record Rng : Type := mkRng { draws : nat → nat; pos : nat }.

Definition randbelow (n : nat) (g : Rng) : nat * Rng :=
  ((draws g (pos g) mod n)%nat, mkRng (draws g) (S (pos g))).

(** [x[i], x[j] = x[j], x[i]] *)
Definition swap {A} (x : list A) (i j : nat) : list A :=
  match x !! i, x !! j with
  | Some a, Some b => <[j := a]> (<[i := b]> x)
  | _, _ => x
  end.

(** [random.shuffle(x)]:
    [for i in reversed(range(1, len(x))): j = randbelow(i + 1); swap i j]. *)
Fixpoint shuffle_from {A} (i : nat) (x : list A) (g : Rng) : list A * Rng :=
  match i with
  | O => (x, g)
  | S i' =>
      let '(j, g') := randbelow (S i) g in
      shuffle_from i' (swap x i j) g'
  end.

Definition shuffle {A} (x : list A) (g : Rng) : list A * Rng :=
  shuffle_from (length x - 1) x g.

(** Stable insertion sort.  [after x y] says that [x] must come after [y];
    an element is placed in front of the first one it need not follow, so
    elements that compare equal keep their relative order.  This is
    [l.sort(key=..., reverse=True)] when [after x y] is "the key of [x] is
    strictly below the key of [y]", and SQL's [ORDER BY] on a column when it
    is "the column of [x] is strictly above the column of [y]". *)
Section Sort.
Context {A : Type} (after : A → A → bool).

Fixpoint insert_sorted (x : A) (l : list A) : list A :=
    match l with
    | [] => [x]
    | y :: l' => if after x y then y :: insert_sorted x l' else x :: y :: l'
    end.

Fixpoint stable_sort (l : list A) : list A :=
    match l with
    | [] => []
    | x :: l' => insert_sorted x (stable_sort l')
    end.
End Sort.

(** ** Questions and per-question history (src/app.py, src/db.py) *)

(** A question row as [get_test_questions] builds it. *)
Record Question : Type := mkQuestion {
  q_id : Z;
  q_tag : string;
  q_question : string;
  q_options : list string;
  q_answer_index : Z;
  q_explanation : string;
  q_db_id : Z;
  q_source : string
}.

(** One entry of the map that [get_question_stats] returns. *)
Record Stats : Type := mkStats { correct : Z; wrong : Z }.

(** [_difficulty_score(q, question_stats)].  The Python quotient of two
    ints is written as the exact rational it denotes. *)
Definition _difficulty_score (q : Question) (question_stats : gmap Z Stats) : Q :=
  match question_stats !! q_id q with
  | None => (1 # 2)%Q
  | Some stats =>
      let total := correct stats + wrong stats in
      if total =? 0 then (1 # 2)%Q
      else (inject_Z (wrong stats) / inject_Z total)%Q
  end.

(** ** The selection engine (src/app.py, [select_balanced_questions]) *)

(** Insertion-ordered dictionaries from tags to buckets: [d.get(k)] and
    [d[k] = v], which keeps the position of an existing key and puts a new
    key last. *)
Section Dict.
Context {V : Type}.

Fixpoint dict_get (d : list (string * V)) (k : string) : option V :=
    match d with
    | [] => None
    | (k', v) :: d' => if decide (k' = k) then Some v else dict_get d' k
    end.

Fixpoint dict_set (d : list (string * V)) (k : string) (v : V) : list (string * V) :=
    match d with
    | [] => [(k, v)]
    | (k', v') :: d' =>
        if decide (k' = k) then (k, v) :: d' else (k', v') :: dict_set d' k v
    end.

Definition dict_keys (d : list (string * V)) : list string := d.*1.
End Dict.

(** [l.remove(x)]: drops the first element equal to [x]; [None] stands for
    the [ValueError] of a missing element. *)
Fixpoint py_list_remove `{EqDecision A} (x : A) (l : list A) : option (list A) :=
  match l with
  | [] => None
  | y :: l' => if decide (y = x) then Some l' else (y ::.) <$> py_list_remove x l'
  end.

(** Lines 70-75: one pass of the bucketing loop, then the whole loop. *)
Definition group_step (questions_by_tag : list (string * list Question)) (q : Question)
    : outcome (list (string * list Question)) :=
  let tag := q_tag q in
  let d := if dict_get questions_by_tag tag is None
           then dict_set questions_by_tag tag [] else questions_by_tag in
  match dict_get d tag with
  | None => Raised KeyError
  | Some bucket => Returned (dict_set d tag (bucket ++ [q]))
  end.

Fixpoint group_by_tag (questions_by_tag : list (string * list Question))
    (filtered : list Question) : outcome (list (string * list Question)) :=
  match filtered with
  | [] => Returned questions_by_tag
  | q :: rest => d ← group_step questions_by_tag q; group_by_tag d rest
  end.

(** The truth value of [question_stats]: [None] and the empty dict are false. *)
Definition stats_truthy (question_stats : option (gmap Z Stats)) : option (gmap Z Stats) :=
  match question_stats with
  | Some m => if decide (m = ∅) then None else Some m
  | None => None
  end.

Definition score_ltb (m : gmap Z Stats) (a b : Question) : bool :=
  negb (Qle_bool (_difficulty_score b m) (_difficulty_score a m)).

(** Lines 77-84: every bucket, in key order, is sorted by descending score
    when statistics are present and shuffled otherwise. *)
Fixpoint order_buckets (question_stats : option (gmap Z Stats))
    (questions_by_tag : list (string * list Question)) (g : Rng)
    : list (string * list Question) * Rng :=
  match questions_by_tag with
  | [] => ([], g)
  | (tag, bucket) :: rest =>
      let '(bucket', g1) :=
        match stats_truthy question_stats with
        | Some m => (stable_sort (score_ltb m) bucket, g)
        | None => shuffle bucket g
        end in
      let '(rest', g2) := order_buckets question_stats rest g1 in
      ((tag, bucket') :: rest', g2)
  end.

(** The variables of the round-robin loop (lines 86-98). *)
Record LoopState : Type := mkLoop {
  selected : list Question;
  tag_list : list string;
  tag_index : nat;
  questions_by_tag : list (string * list Question)
}.

Inductive step_result : Type :=
| Continue (s : LoopState)
| Break (s : LoopState)
| Fail (e : exn).

(** The body of the [while] loop, lines 91-98. *)
Definition round_robin_step (s : LoopState) : step_result :=
  match length (tag_list s) with
  | O => Fail ZeroDivisionError
  | S _ =>
      match tag_list s !! (tag_index s mod length (tag_list s))%nat with
      | None => Fail IndexError
      | Some tag =>
          match dict_get (questions_by_tag s) tag with
          | None => Fail KeyError
          | Some (q :: bucket) =>
              Continue (mkLoop (selected s ++ [q]) (tag_list s) (S (tag_index s))
                          (dict_set (questions_by_tag s) tag bucket))
          | Some [] =>
              match py_list_remove tag (tag_list s) with
              | None => Fail ValueError
              | Some [] => Break (mkLoop (selected s) [] (tag_index s) (questions_by_tag s))
              | Some tl =>
                  Continue (mkLoop (selected s) tl (S (tag_index s)) (questions_by_tag s))
              end
          end
      end
  end.

(** [while len(selected) < num_questions: ...], at most [fuel] iterations. *)
Fixpoint round_robin (fuel : nat) (num_questions : Z) (s : LoopState)
    : outcome (list Question) :=
  if Z.of_nat (length (selected s)) <? num_questions then
    match fuel with
    | O => OutOfFuel
    | S fuel' =>
        match round_robin_step s with
        | Continue s' => round_robin fuel' num_questions s'
        | Break s' => Returned (selected s')
        | Fail e => Raised e
        end
    end
  else Returned (selected s).

Definition select_balanced_questions (fuel : nat) (questions : list Question)
    (selected_tags : list string) (num_questions : Z)
    (question_stats : option (gmap Z Stats)) (g : Rng)
    : outcome (list Question * Rng) :=
  let filtered := filter (λ q, q_tag q ∈ selected_tags) questions in
  if decide (filtered = []) then Returned ([], g)
  else if Z.of_nat (length filtered) <=? num_questions then Returned (shuffle filtered g)
  else
    by_tag ← group_by_tag [] filtered;
    let '(by_tag, g1) := order_buckets question_stats by_tag g in
    selected ← round_robin fuel num_questions (mkLoop [] (dict_keys by_tag) 0 by_tag);
    Returned (shuffle selected g1).

(** The quantity that every iteration of the round-robin loop decreases:
    the questions still in the buckets plus the tags still in rotation. *)
Definition bucket_total (d : list (string * list Question)) : nat :=
  sum_list ((λ kb, length kb.2) <$> d).

Definition loop_measure (s : LoopState) : nat :=
  (bucket_total (questions_by_tag s) + length (tag_list s))%nat.

(** The tag-filtered pool, the tags that have a bucket, and a number of
    iterations that the loop never reaches. *)
Definition filtered_pool (questions : list Question) (selected_tags : list string)
    : list Question :=
  filter (λ q, q_tag q ∈ selected_tags) questions.

Definition bucket_tags (questions : list Question) (selected_tags : list string)
    : list string :=
  remove_dups (q_tag <$> filtered_pool questions selected_tags).

Definition enough_fuel (questions : list Question) (selected_tags : list string) : nat :=
  (2 * length (filtered_pool questions selected_tags) + 1)%nat.

(** A bucket dictionary is well formed when its keys are distinct and
    every bucket is a non-empty list of questions carrying its key. *)
Definition buckets_wf (d : list (string * list Question)) : Prop :=
  NoDup (dict_keys d) ∧ ∀ k b, (k, b) ∈ d → b ≠ [] ∧ ∀ q, q ∈ b → q_tag q = k.

(** At the head of the loop the rotation is not empty and every tag in it
    has a bucket. *)
Definition loop_ok (s : LoopState) : Prop :=
  tag_list s ≠ [] ∧ ∀ t, t ∈ tag_list s → is_Some (dict_get (questions_by_tag s) t).

(** The questions still in the buckets, the number of questions of a tag
    in a list, and what holds at the head of the loop for the pool that the
    buckets were filled from: the chosen questions and those left in the
    buckets make up the pool, every bucket holds questions of its own tag,
    and the bucket of a tag that left the rotation is empty. *)
Definition bucket_items (d : list (string * list Question)) : list Question :=
  concat (d.*2).

Definition count_tag (t : string) (l : list Question) : nat :=
  length (filter (λ q, q_tag q = t) l).

Definition loop_inv (pool : list Question) (s : LoopState) : Prop :=
  loop_ok s
  ∧ NoDup (dict_keys (questions_by_tag s))
  ∧ selected s ++ bucket_items (questions_by_tag s) ≡ₚ pool
  ∧ ∀ k b, (k, b) ∈ questions_by_tag s →
           (∀ q, q ∈ b → q_tag q = k) ∧ (k ∉ tag_list s → b = []).

(** ** Option shuffling (src/app.py, [shuffle_question_options])

    The function mutates the question dictionaries it is given.  The store
    holds the dictionaries, a question list is a list of references into
    it, and two entries of a list may be the same dictionary. *)

Definition set_options_answer (q : Question) (options : list string) (answer_index : Z)
    : Question :=
  mkQuestion (q_id q) (q_tag q) (q_question q) options answer_index
    (q_explanation q) (q_db_id q) (q_source q).

(** The body of the [for q in questions] loop, lines 107-111. *)
Definition shuffle_one (r : nat) (st : list Question * Rng)
    : outcome (list Question * Rng) :=
  let '(store, g) := st in
  match store !! r with
  | None => Raised KeyError
  | Some q =>
      match py_index (q_options q) (q_answer_index q) with
      | None => Raised IndexError
      | Some correct_option =>
          let '(shuffled, g') := shuffle (q_options q) g in
          match py_list_index correct_option shuffled with
          | None => Raised ValueError
          | Some k =>
              Returned (<[r := set_options_answer q shuffled (Z.of_nat k)]> store, g')
          end
      end
  end.

Fixpoint shuffle_question_options (questions : list nat) (st : list Question * Rng)
    : outcome (list Question * Rng) :=
  match questions with
  | [] => Returned st
  | r :: rest => st' ← shuffle_one r st; shuffle_question_options rest st'
  end.

(** [q["options"][q["answer_index"]]], the string of the correct option. *)
Definition correct_option (q : Question) : option string :=
  py_index (q_options q) (q_answer_index q).

(** Two states of one question dictionary that agree on the correct
    option string and hold the same options up to their order. *)
Definition same_answer (q q' : Question) : Prop :=
  correct_option q' = correct_option q ∧ q_options q' ≡ₚ q_options q.

(** Two states of one question dictionary that differ at most in the keys
    [options] and [answer_index]. *)
Definition same_question (q q' : Question) : Prop :=
  q_id q' = q_id q ∧ q_tag q' = q_tag q ∧ q_question q' = q_question q
  ∧ q_explanation q' = q_explanation q ∧ q_db_id q' = q_db_id q
  ∧ q_source q' = q_source q.

(** ** Effective visibility (src/db.py, [get_effective_visibility]) *)

Definition visibility_order : list (string * Z) :=
  [("hidden", 0); ("private", 1); ("restricted", 2); ("public", 3)].

Definition levels : list string := ["hidden"; "private"; "restricted"; "public"].

Definition get_effective_visibility (test_visibility program_visibility : string)
    : option string :=
  let test_level := default 3 (dict_get visibility_order test_visibility) in
  let program_level := default 3 (dict_get visibility_order program_visibility) in
  py_index levels (Z.min test_level program_level).

(** The four levels and their rank in the order
    hidden < private < restricted < public. *)
Inductive Visibility : Type := Hidden | Private | Restricted | Public.

Definition visibility_name (v : Visibility) : string :=
  match v with
  | Hidden => "hidden"
  | Private => "private"
  | Restricted => "restricted"
  | Public => "public"
  end.

Definition visibility_rank (v : Visibility) : Z :=
  match v with
  | Hidden => 0
  | Private => 1
  | Restricted => 2
  | Public => 3
  end.

(** ** The test catalogue (src/db.py, [get_all_tests])

    Tables are lists of rows; a nullable column is an [option].  Only the
    columns that the query reads are kept. *)

Record UserRow : Type := mkUser { u_id : Z; u_username : string }.

Record TestRow : Type := mkTest {
  t_id : Z;
  t_owner_id : option Z;
  t_title : string;
  t_description : option string;
  t_author : option string;
  t_is_public : option Z;
  t_language : option string;
  t_visibility : option string
}.

Record QuestionRow : Type := mkQuestionRow { qr_id : Z; qr_test_id : Z }.

Record TestCollaboratorRow : Type := mkTestCollaborator {
  tc_id : Z;
  tc_test_id : Z;
  tc_user_email : string;
  tc_user_id : option Z;
  tc_role : string;
  tc_status : string
}.

Record ProgramTestRow : Type := mkProgramTest {
  pt_id : Z;
  pt_program_id : Z;
  pt_test_id : Z
}.

Record ProgramCollaboratorRow : Type := mkProgramCollaborator {
  pc_id : Z;
  pc_program_id : Z;
  pc_user_email : string;
  pc_user_id : option Z;
  pc_role : string;
  pc_status : string
}.

Record Database : Type := mkDatabase {
  users : list UserRow;
  tests : list TestRow;
  questions : list QuestionRow;
  test_collaborators : list TestCollaboratorRow;
  program_tests : list ProgramTestRow;
  program_collaborators : list ProgramCollaboratorRow
}.

(** SQL [a = b]: a comparison with NULL is not true. *)
Definition sql_eq `{EqDecision A} (a b : option A) : bool :=
  match a, b with
  | Some x, Some y => bool_decide (x = y)
  | _, _ => false
  end.

(** [ls LEFT JOIN rs ON on]: every left row with each right row that
    matches it, or once with NULL when none does. *)
Definition left_join {L R} (on : L → R → bool) (ls : list L) (rs : list R)
    : list (L * option R) :=
  ls ≫= λ l,
    match List.filter (on l) rs with
    | [] => [(l, None)]
    | ms => (λ r, (l, Some r)) <$> ms
    end.

(** The scalar subquery [(SELECT username FROM users WHERE id = ?)]. *)
Definition username_of (db : Database) (user_id : Z) : option string :=
  u_username <$> head (List.filter (λ u, bool_decide (u_id u = user_id)) (users db)).

(** [visibility IN ('public', 'private', 'restricted')] *)
Definition visibility_listed (visibility : option string) : bool :=
  match visibility with
  | Some v => bool_decide (v ∈ ["public"; "private"; "restricted"])
  | None => false
  end.

(** One element of the list that [get_all_tests] returns. *)
Record TestInfo : Type := mkTestInfo {
  ti_id : Z;
  ti_owner_id : option Z;
  ti_title : string;
  ti_description : option string;
  ti_author : option string;
  ti_is_public : option Z;
  ti_question_count : nat;
  ti_language : string;
  ti_visibility : string
}.

#[global] Instance TestInfo_eq_dec : EqDecision TestInfo.
Proof. solve_decision. Defined.

(** The columns of the SELECT list, a test row at a time. *)
Definition selected_columns (db : Database) (t : TestRow)
    : Z * option Z * string * option string * option string * option Z * nat
      * option string * option string :=
  (t_id t, t_owner_id t, t_title t, t_description t, t_author t, t_is_public t,
   length (List.filter (λ q, bool_decide (qr_test_id q = t_id t)) (questions db)),
   t_language t, t_visibility t).

(** Python's [x or d] on an optional string. *)
Definition str_or (x : option string) (d : string) : string :=
  match x with
  | Some s => if decide (s = EmptyString) then d else s
  | None => d
  end.

Definition row_to_info
    (r : Z * option Z * string * option string * option string * option Z * nat
         * option string * option string) : TestInfo :=
  let '(id, owner_id, title, description, author, is_public, q_count, language,
        visibility) := r in
  mkTestInfo id owner_id title description author is_public q_count
    (str_or language EmptyString) (str_or visibility "public").

Definition title_after
    (x y : Z * option Z * string * option string * option string * option Z * nat
           * option string * option string) : bool :=
  String.ltb (y.1.1.1.1.1.1.2) (x.1.1.1.1.1.1.2).

(** The ON clause of both collaborator joins:
    [(c.user_id = ? OR c.user_email = (SELECT username ...)) AND c.status = 'accepted']. *)
Definition collaborator_matches (db : Database) (user_id : Z)
    (c_user_id : option Z) (c_user_email c_status : string) : bool :=
  (sql_eq c_user_id (Some user_id) || sql_eq (Some c_user_email) (username_of db user_id))
  && bool_decide (c_status = "accepted").

Definition get_all_tests (db : Database) (user_id : option Z) : list TestInfo :=
  let rows :=
    match user_id with
    | Some uid =>
        if decide (uid = 0) then
          selected_columns db <$> List.filter (λ t, visibility_listed (t_visibility t)) (tests db)
        else
          let j1 :=
            left_join
              (λ t tc, bool_decide (tc_test_id tc = t_id t)
                       && collaborator_matches db uid (tc_user_id tc) (tc_user_email tc)
                            (tc_status tc))
              (tests db) (test_collaborators db) in
          let j2 :=
            left_join (λ '(t, _) pt, bool_decide (pt_test_id pt = t_id t))
              j1 (program_tests db) in
          let j3 :=
            left_join
              (λ '(_, _, pt) pc,
                 sql_eq (Some (pc_program_id pc)) (pt_program_id <$> pt)
                 && collaborator_matches db uid (pc_user_id pc) (pc_user_email pc)
                      (pc_status pc))
              j2 (program_collaborators db) in
          let kept :=
            List.filter
              (λ '(t, tc, _, pc),
                 visibility_listed (t_visibility t)
                 || sql_eq (t_owner_id t) (Some uid)
                 || bool_decide (is_Some tc)
                 || bool_decide (is_Some pc))
              j3 in
          remove_dups ((λ '(t, _, _, _), selected_columns db t) <$> kept)
    | None =>
        selected_columns db <$> List.filter (λ t, visibility_listed (t_visibility t)) (tests db)
    end in
  row_to_info <$> stable_sort title_after rows.

(** The access rule in the words of the specification.  A collaborator
    record is the user's when it carries the user's id or the user's
    username as its e-mail. *)
Definition record_of_user (db : Database) (uid : Z) (c_user_id : option Z)
    (c_user_email : string) : Prop :=
  c_user_id = Some uid ∨ Some c_user_email = username_of db uid.

Definition accepted_test_collaborator (db : Database) (uid : Z) (t : TestRow) : Prop :=
  ∃ tc, tc ∈ test_collaborators db ∧ tc_test_id tc = t_id t
        ∧ record_of_user db uid (tc_user_id tc) (tc_user_email tc)
        ∧ tc_status tc = "accepted".

Definition accepted_program_collaborator (db : Database) (uid : Z) (t : TestRow) : Prop :=
  ∃ pt pc, pt ∈ program_tests db ∧ pt_test_id pt = t_id t
           ∧ pc ∈ program_collaborators db ∧ pc_program_id pc = pt_program_id pt
           ∧ record_of_user db uid (pc_user_id pc) (pc_user_email pc)
           ∧ pc_status pc = "accepted".

(** [None] and the id 0 stand for a visitor who is not logged in. *)
Definition viewable (db : Database) (user_id : option Z) (t : TestRow) : Prop :=
  (∃ v, t_visibility t = Some v ∧ v ∈ ["public"; "private"; "restricted"])
  ∨ ∃ uid, user_id = Some uid ∧ uid ≠ 0
           ∧ (t_owner_id t = Some uid
              ∨ accepted_test_collaborator db uid t
              ∨ accepted_program_collaborator db uid t).

(** The test has an entry in the list that [get_all_tests] returns. *)
Definition listed (db : Database) (user_id : option Z) (t : TestRow) : Prop :=
  row_to_info (selected_columns db t) ∈ get_all_tests db user_id.

(** ** Roles (src/db.py, [_min_role]) *)

Definition role_order : list (string * Z) :=
  [("student", 0); ("guest", 1); ("reviewer", 2); ("admin", 3)].

Definition roles : list string := ["student"; "guest"; "reviewer"; "admin"].

Definition _min_role (role1 role2 : string) : option string :=
  let r1 := default 0 (dict_get role_order role1) in
  let r2 := default 0 (dict_get role_order role2) in
  py_index roles (Z.min r1 r2).

(** ** Direct access and invitations (src/db.py, [has_direct_test_access],
       [accept_test_invitation], [decline_test_invitation]) *)

(** [if not user_id: return False], then one row of the join is enough. *)
Definition has_direct_test_access (db : Database) (test_id : Z) (user_id : option Z)
    : bool :=
  match user_id with
  | Some uid =>
      if decide (uid = 0) then false
      else
        let joined :=
          left_join (λ tc u, bool_decide (u_username u = tc_user_email tc))
            (test_collaborators db) (users db) in
        let rows :=
          List.filter
            (λ '(tc, u),
               bool_decide (tc_test_id tc = test_id)
               && (sql_eq (tc_user_id tc) (Some uid) || sql_eq (u_id <$> u) (Some uid))
               && bool_decide (tc_status tc = "accepted"))
            joined in
        bool_decide (rows ≠ [])
  | None => false
  end.

(** [SELECT username FROM users WHERE id = ?] and [fetchone()]. *)
Definition user_row (db : Database) (user_id : Z) : option UserRow :=
  head (List.filter (λ u, bool_decide (u_id u = user_id)) (users db)).

(** [test_id = ? AND (user_id = ? OR user_email = ?) AND status = 'pending'] *)
Definition invitation_matches (test_id user_id : Z) (username : string)
    (tc : TestCollaboratorRow) : bool :=
  bool_decide (tc_test_id tc = test_id)
  && (sql_eq (tc_user_id tc) (Some user_id) || bool_decide (tc_user_email tc = username))
  && bool_decide (tc_status tc = "pending").

Definition with_test_collaborators (db : Database) (rows : list TestCollaboratorRow)
    : Database :=
  mkDatabase (users db) (tests db) (questions db) rows (program_tests db)
    (program_collaborators db).

Definition accept_test_invitation (db : Database) (test_id user_id : Z) : Database :=
  match user_row db user_id with
  | Some u =>
      with_test_collaborators db
        ((λ tc, if invitation_matches test_id user_id (u_username u) tc
                then mkTestCollaborator (tc_id tc) (tc_test_id tc) (tc_user_email tc)
                       (Some user_id) (tc_role tc) "accepted"
                else tc)
         <$> test_collaborators db)
  | None => db
  end.

Definition decline_test_invitation (db : Database) (test_id user_id : Z) : Database :=
  match user_row db user_id with
  | Some u =>
      with_test_collaborators db
        (List.filter (λ tc, negb (invitation_matches test_id user_id (u_username u) tc))
           (test_collaborators db))
  | None => db
  end.

(** ** Inviting a collaborator (src/db.py, [add_collaborator])

    A statement that breaks a constraint of the schema raises
    [sqlite3.IntegrityError]. *)
Inductive db_result (A : Type) : Type :=
| DbOk (a : A)
| IntegrityError.

Arguments DbOk {A} a.
Arguments IntegrityError {A}.

(** The record of an e-mail on a test, the key of [UNIQUE(test_id, user_email)]. *)
Definition invitation_of (test_id : Z) (email : string) (tc : TestCollaboratorRow) : bool :=
  bool_decide (tc_test_id tc = test_id) && bool_decide (tc_user_email tc = email).

(** [seq] is the AUTOINCREMENT counter of [test_collaborators].  The INSERT
    goes through when the role passes the CHECK, the test exists (foreign
    keys are enforced) and the pair is new; otherwise the handler runs the
    UPDATE, which raises in its turn when it puts a role that fails the
    CHECK into a row. *)
Definition add_collaborator (db : Database) (seq : Z) (test_id : Z) (email role : string)
    : db_result (Database * Z) :=
  let uid :=
    u_id <$> head (List.filter (λ u, bool_decide (u_username u = email)) (users db)) in
  let rows := test_collaborators db in
  if bool_decide (role ∈ roles)
     && bool_decide (test_id ∈ t_id <$> tests db)
     && negb (existsb (invitation_of test_id email) rows)
  then
    DbOk (with_test_collaborators db
            (rows ++ [mkTestCollaborator (seq + 1) test_id email uid role "pending"]),
          seq + 1)
  else if existsb (invitation_of test_id email) rows && negb (bool_decide (role ∈ roles))
  then IntegrityError
  else
    DbOk (with_test_collaborators db
            ((λ tc, if invitation_of test_id email tc
                    then mkTestCollaborator (tc_id tc) (tc_test_id tc) (tc_user_email tc)
                           (match uid with Some u => Some u | None => tc_user_id tc end)
                           role (tc_status tc)
                    else tc)
             <$> rows),
          seq).

(** ** Favourites (src/db.py, [toggle_favorite], [get_favorite_tests]) *)

(** [str(n)] for a Python int. *)
Definition py_str_int (n : Z) : string := NilZero.string_of_int (Z.to_int n).

(** A row of [favorite_tests]; [test_id] may be NULL in rows that older
    versions wrote. *)
Record FavoriteRow : Type := mkFavorite {
  f_id : Z;
  f_user_id : Z;
  f_test_file : string;
  f_test_id : option Z
}.

(** [toggle_favorite(user_id, test_id)] on the table [favs] whose
    AUTOINCREMENT counter is [seq].  The INSERT raises when the user or the
    test does not exist (foreign keys are enforced) or when the user has a
    row with the same [test_file] ([UNIQUE(user_id, test_file)]); the
    function does not catch it. *)
Definition toggle_favorite (db : Database) (favs : list FavoriteRow) (seq : Z)
    (user_id test_id : Z) : db_result (bool * list FavoriteRow * Z) :=
  match head (List.filter
                (λ f, bool_decide (f_user_id f = user_id)
                      && sql_eq (f_test_id f) (Some test_id))
                favs) with
  | Some row =>
      DbOk (false, List.filter (λ f, negb (bool_decide (f_id f = f_id row))) favs, seq)
  | None =>
      if bool_decide (user_id ∈ u_id <$> users db)
         && bool_decide (test_id ∈ t_id <$> tests db)
         && negb (existsb (λ f, bool_decide (f_user_id f = user_id)
                                && bool_decide (f_test_file f = py_str_int test_id))
                    favs)
      then DbOk (true,
                 favs ++ [mkFavorite (seq + 1) user_id (py_str_int test_id) (Some test_id)],
                 seq + 1)
      else IntegrityError
  end.

(** [get_favorite_tests(user_id)]: the set of the test ids that are not NULL. *)
Definition get_favorite_tests (favs : list FavoriteRow) (user_id : Z) : gset Z :=
  list_to_set
    (omap f_test_id (List.filter (λ f, bool_decide (f_user_id f = user_id)) favs)).

(** The table as [toggle_favorite] fills it: distinct ids, in every row
    the file name is the decimal form of the test id, and no user has two
    rows with one file name. *)
Definition favorites_wf (favs : list FavoriteRow) : Prop :=
  NoDup (f_id <$> favs)
  ∧ (∀ f, f ∈ favs → ∃ t, f_test_id f = Some t ∧ f_test_file f = py_str_int t)
  ∧ ∀ f f', f ∈ favs → f' ∈ favs → f_user_id f = f_user_id f' →
            f_test_file f = f_test_file f' → f = f'.

(** ** Answer history (src/db.py, [get_question_stats])

    A row of [question_history]; the columns [test_id] and [session_id] may
    be NULL. *)
Record HistoryRow : Type := mkHistory {
  h_user_id : Z;
  h_test_id : option Z;
  h_question_id : Z;
  h_correct : bool;
  h_session_id : option Z
}.

(** [SUM(f)] over the rows of a group. *)
Definition sql_sum {A} (f : A → Z) (rows : list A) : Z := foldr Z.add 0 (f <$> rows).

(** The rows that [WHERE user_id = ? AND test_id = ?] keeps, and those of
    one question among them. *)
Definition history_rows (history : list HistoryRow) (user_id test_id : Z)
    : list HistoryRow :=
  List.filter
    (λ r, bool_decide (h_user_id r = user_id) && sql_eq (h_test_id r) (Some test_id))
    history.

Definition answers_to (history : list HistoryRow) (user_id test_id question_id : Z)
    : list HistoryRow :=
  List.filter (λ r, bool_decide (h_question_id r = question_id))
    (history_rows history user_id test_id).

(** [get_question_stats(user_id, test_id)]: one entry for every
    [question_id] that occurs in the kept rows ([GROUP BY question_id]),
    with the two sums of its group. *)
Definition get_question_stats (history : list HistoryRow) (user_id test_id : Z)
    : gmap Z Stats :=
  list_to_map
    ((λ qid,
       let group := answers_to history user_id test_id qid in
       (qid, mkStats (sql_sum (λ r, if h_correct r then 1 else 0) group)
               (sql_sum (λ r, if h_correct r then 0 else 1) group)))
     <$> remove_dups (h_question_id <$> history_rows history user_id test_id)).

(** ** Free-text answers (src/app.py, [show_quiz], lines 477-494)

    A Python [str] is a Rocq string whose characters are the code points
    below 256. *)

(** [c.isspace()] *)
Definition isspace (c : ascii) : bool :=
  let n := N_of_ascii c in
  ((9 <=? n) && (n <=? 13) || (28 <=? n) && (n <=? 32) || (n =? 133) || (n =? 160))%N.

(** The lower-case form of one character. *)
Definition lower_char (c : ascii) : ascii :=
  let n := N_of_ascii c in
  if ((65 <=? n) && (n <=? 90) || (192 <=? n) && (n <=? 222) && negb (n =? 215))%N
  then ascii_of_N (n + 32) else c.

(** [s.lower()] *)
Fixpoint lower (s : string) : string :=
  match s with
  | EmptyString => EmptyString
  | String c s' => String (lower_char c) (lower s')
  end.

Fixpoint lstrip (s : string) : string :=
  match s with
  | EmptyString => EmptyString
  | String c s' => if isspace c then lstrip s' else s
  end.

Fixpoint rstrip (s : string) : string :=
  match s with
  | EmptyString => EmptyString
  | String c s' =>
      match rstrip s' with
      | EmptyString => if isspace c then EmptyString else String c EmptyString
      | r => String c r
      end
  end.

(** [s.strip()] *)
Definition strip (s : string) : string := rstrip (lstrip s).

(** [not s.strip()]: the string holds nothing but white space. *)
Fixpoint blank (s : string) : bool :=
  match s with
  | EmptyString => true
  | String c s' => isspace c && blank s'
  end.

(** Line 480: [user_text.strip().lower() == correct_text.strip().lower()]. *)
Definition free_text_matches (user_text correct_text : string) : bool :=
  bool_decide (lower (strip user_text) = lower (strip correct_text)).

(** ** Tags of a test (src/db.py, [get_test_tags], [rename_test_tag],
       [delete_test_tag])

    The table [test_tags] and the columns [id], [test_id], [question_num]
    and [tag] of [questions].  The three functions write no other column
    but [tests.updated_at], and deleting a question removes its rows of
    [question_materials]; neither is modelled. *)
Record TagRow : Type := mkTag { tg_id : Z; tg_test_id : Z; tg_tag : string }.

Record QuestionTag : Type := mkQuestionTag {
  qt_id : Z;
  qt_test_id : Z;
  qt_num : Z;
  qt_tag : string
}.

Record TagStore : Type := mkTagStore {
  tag_rows : list TagRow;
  tagged_questions : list QuestionTag
}.

(** [WHERE test_id = ? AND tag = ?] on either table. *)
Definition tag_row_is (test_id : Z) (tag : string) (r : TagRow) : bool :=
  bool_decide (tg_test_id r = test_id) && bool_decide (tg_tag r = tag).

Definition question_tag_is (test_id : Z) (tag : string) (q : QuestionTag) : bool :=
  bool_decide (qt_test_id q = test_id) && bool_decide (qt_tag q = tag).

(** [get_test_tags(test_id)]: the tags in ascending order, without the
    empty one. *)
Definition get_test_tags (s : TagStore) (test_id : Z) : list string :=
  List.filter (λ t, negb (bool_decide (t = EmptyString)))
    (stable_sort (λ x y, String.ltb y x)
       (tg_tag <$> List.filter (λ r, bool_decide (tg_test_id r = test_id)) (tag_rows s))).

Definition set_question_tag (new_tag : string) (q : QuestionTag) : QuestionTag :=
  mkQuestionTag (qt_id q) (qt_test_id q) (qt_num q) new_tag.

Definition rename_test_tag (s : TagStore) (test_id : Z) (old_tag new_tag : string)
    : TagStore :=
  let existing := head (List.filter (tag_row_is test_id new_tag) (tag_rows s)) in
  let rows :=
    match existing with
    | Some _ => List.filter (λ r, negb (tag_row_is test_id old_tag r)) (tag_rows s)
    | None =>
        (λ r, if tag_row_is test_id old_tag r
              then mkTag (tg_id r) (tg_test_id r) new_tag else r)
        <$> tag_rows s
    end in
  mkTagStore rows
    ((λ q, if question_tag_is test_id old_tag q then set_question_tag new_tag q else q)
     <$> tagged_questions s).

Definition delete_test_tag (s : TagStore) (test_id : Z) (tag : string)
    (delete_questions : bool) : TagStore :=
  let questions :=
    if delete_questions
    then List.filter (λ q, negb (question_tag_is test_id tag q)) (tagged_questions s)
    else (λ q, if question_tag_is test_id tag q then set_question_tag EmptyString q else q)
         <$> tagged_questions s in
  mkTagStore (List.filter (λ r, negb (tag_row_is test_id tag r)) (tag_rows s)) questions.

(** [UNIQUE(test_id, tag)], and the rule that the editor keeps: the tag of
    a question is registered for its test unless it is blank. *)
Definition tags_unique (s : TagStore) : Prop :=
  NoDup ((λ r, (tg_test_id r, tg_tag r)) <$> tag_rows s).

Definition tag_registered (s : TagStore) (test_id : Z) (tag : string) : Prop :=
  ∃ r, r ∈ tag_rows s ∧ tg_test_id r = test_id ∧ tg_tag r = tag.

Definition tags_cover (s : TagStore) : Prop :=
  ∀ q, q ∈ tagged_questions s → blank (qt_tag q) = false →
       tag_registered s (qt_test_id q) (qt_tag q).

(** ** The quiz session flow (src/app.py: [main], [show_test_config],
       [show_quiz], [_start_quiz_from_wrong], [show_program_config],
       [reset_quiz]; src/db.py: [create_session], [update_session_score],
       [record_answer])

    Streamlit runs the script from the top after every interaction.  One
    run is [run_pass]: it carries the widget the user acted on, replays the
    page up to that widget, runs its handler and stops at [st.rerun()].
    [st.session_state] is split into the navigation keys and the keys that
    [reset_quiz] deletes; a key that may be missing is an [option]. *)
Module Quiz.

Inductive Page : Type :=
| Tests | Dashboard | Programas | Perfil
| ConfigurarTest | CrearTest | EditarTest
| CrearPrograma | EditarPrograma | ConfigurarPrograma.

#[global] Instance Page_eq_dec : EqDecision Page.
Proof. solve_decision. Defined.

(** [selected_answer] holds an option position or the typed text. *)
Inductive Answer : Type :=
| ChosenIndex (i : nat)
| TypedText (s : string).

Record RoundEntry : Type := mkRound {
  r_round : Z;
  r_score : Z;
  r_total : Z;
  r_wrong : list Question
}.

Record Nav : Type := mkNav {
  user_id : option Z;
  page : option Page;
  prev_page : option Page;
  selected_test : option Z;
  selected_program : option Z;
  editing_test_id : option Z;
  editing_program_id : option Z
}.

(** The keys listed in [reset_quiz]. *)
Record Keys : Type := mkKeys {
  quiz_started : option bool;
  questions : option (list Question);
  current_index : option nat;
  answered : option bool;
  score : option Z;
  show_result : option bool;
  selected_answer : option Answer;
  wrong_questions : option (list Question);
  round_history : option (list RoundEntry);
  current_round : option Z;
  current_test_id : option Z;
  current_session_id : option Z;
  session_score_saved : option bool;
  active_quiz_level : option string
}.

(** Tables [test_sessions] and [question_history], the AUTOINCREMENT
    counter of [test_sessions], and the list of calls made to
    [update_session_score], most recent first. *)
Record SessionRow : Type := mkSessionRow {
  ts_id : Z;
  ts_user_id : Z;
  ts_test_id : Z;
  ts_score : Z;
  ts_total : Z
}.

Record AnswerRow : Type := mkAnswerRow {
  qh_user_id : Z;
  qh_test_id : Z;
  qh_question_id : Z;
  qh_correct : bool;
  qh_session_id : option Z
}.

Record Store : Type := mkStore {
  test_sessions : list SessionRow;
  last_session_id : Z;
  question_history : list AnswerRow;
  score_updates : list (Z * Z * Z)
}.

Record World : Type := mkWorld { nav : Nav; keys : Keys; store : Store }.

(** What the user did to trigger a run of the script. *)
Inductive Event : Type :=
| ProviderLogin (uid : Z)          (* the identity provider reports a signed-in user *)
| ClickProfile
| ClickLogout
| ClickNav (p : Page)
| SaveProfile
| CatalogSelect (test_id : Z)
| CatalogCreate
| ConfigBack
| ConfigEdit
| StartTest (quiz_questions : list Question) (quiz_level : string)
| CreateTestBack
| CreateTestSubmit (test_id : Z)
| EditorBack
| EditorSaveInfo
| EditorDelete
| ProgramsCreate
| ProgramsSelect (program_id : Z)
| ProgramsEdit (program_id : Z)
| CreateProgramBack
| CreateProgramSubmit (program_id : Z)
| ProgramEditorBack
| ProgramEditorDelete
| ProgramConfigBack
| StartProgram (quiz_questions : list Question)
| PracticeWrong (quiz_questions : list Question) (test_id : Z)
| SubmitText (user_text : string)
| ClickOption (i : nat)
| NextQuestion
| Abandon
| RetryWrong (reshuffled : list Question)
| BackToStart.

(** Truth value of an optional integer: [None] and [0] are false. *)
Definition truthy (x : option Z) : bool :=
  match x with
  | Some z => negb (z =? 0)
  | None => false
  end.

Definition _is_logged_in (n : Nav) : bool := truthy (user_id n).

Definition no_nav : Nav := mkNav None None None None None None None.

Definition no_keys : Keys :=
  mkKeys None None None None None None None None None None None None None None.

Definition set_page (p : Page) (n : Nav) : Nav :=
  mkNav (user_id n) (Some p) (prev_page n) (selected_test n) (selected_program n)
    (editing_test_id n) (editing_program_id n).

(** [reset_quiz()] *)
Definition reset_quiz (w : World) : World := mkWorld (nav w) no_keys (store w).

(** src/db.py, [create_session]: the new row gets the next id. *)
Definition create_session (s : Store) (user test_id sc total : Z) : Z * Store :=
  let id := last_session_id s + 1 in
  (id, mkStore (test_sessions s ++ [mkSessionRow id user test_id sc total]) id
         (question_history s) (score_updates s)).

(** src/db.py, [update_session_score] *)
Definition update_session_score (s : Store) (session_id sc total : Z) : Store :=
  mkStore
    ((λ r, if decide (ts_id r = session_id)
           then mkSessionRow (ts_id r) (ts_user_id r) (ts_test_id r) sc total else r)
       <$> test_sessions s)
    (last_session_id s) (question_history s)
    ((session_id, sc, total) :: score_updates s).

(** src/db.py, [record_answer] *)
Definition record_answer (s : Store) (user test_id question_id : Z) (is_correct : bool)
    (session_id : option Z) : Store :=
  mkStore (test_sessions s) (last_session_id s)
    (question_history s ++ [mkAnswerRow user test_id question_id is_correct session_id])
    (score_updates s).

(** The assignments that start a quiz: [show_test_config] lines 337-356
    with [saved := session_score_saved k] and the chosen level,
    [show_program_config] lines 1268-1286 with the old flag and the old
    level, [_start_quiz_from_wrong] lines 652-668 with [Some false]. *)
Definition start_keys (quiz_questions : list Question) (test_id : Z) (session_id : option Z)
    (saved : option bool) (level : option string) : Keys :=
  mkKeys (Some true) (Some quiz_questions) (Some 0%nat) (Some false) (Some 0)
    (Some false) None (Some []) (Some []) (Some 1) (Some test_id) session_id
    saved level.

(** The session row of a new quiz: created only for a logged-in user. *)
Definition open_session (w : World) (test_id total : Z) : option Z * Store :=
  if _is_logged_in (nav w) then
    let '(id, s) := create_session (store w) (default 0 (user_id (nav w))) test_id 0 total in
    (Some id, s)
  else (None, store w).

(** The branch of [main] that is taken, lines 1362-1383. *)
Inductive View : Type :=
| VProfile | VDashboard | VTestConfig | VCreateTest | VTestEditor | VPrograms
| VCreateProgram | VProgramEditor | VProgramConfig | VQuiz | VCatalog.

Definition dispatch (w : World) : View :=
  let logged_in := _is_logged_in (nav w) in
  let started := default false (quiz_started (keys w)) in
  let p := page (nav w) in
  if logged_in && bool_decide (p = Some Perfil) then VProfile
  else if logged_in && bool_decide (p = Some Dashboard) && negb started then VDashboard
  else if bool_decide (p = Some ConfigurarTest) then VTestConfig
  else if logged_in && bool_decide (p = Some CrearTest) then VCreateTest
  else if logged_in && bool_decide (p = Some EditarTest) then VTestEditor
  else if logged_in && bool_decide (p = Some Programas) && negb started then VPrograms
  else if logged_in && bool_decide (p = Some CrearPrograma) then VCreateProgram
  else if logged_in && bool_decide (p = Some EditarPrograma) then VProgramEditor
  else if logged_in && bool_decide (p = Some ConfigurarPrograma) then VProgramConfig
  else if started then VQuiz
  else VCatalog.

(** The result of a run: the state it leaves and whether it ended in
    [st.rerun()].  [None] says that the widget of the event is not on the
    page that the run draws. *)
Definition Pass : Type := option (World * bool).

Definition rerun (w : World) : Pass := Some (w, true).
Definition stay (w : World) : Pass := Some (w, false).

Definition goto (p : Page) (w : World) : Pass :=
  rerun (mkWorld (set_page p (nav w)) (keys w) (store w)).

Definition with_nav (n : Nav) (w : World) : World := mkWorld n (keys w) (store w).

(** *** [show_quiz], the round-completed branch (lines 365-458) *)

(** Lines 371-386: the score is written back unless the guard flag is set,
    and the round is appended to the history unless it is there already. *)
Definition completion_effects (w : World) (qs : list Question) (sc : Z) : World :=
  let k := keys w in
  let total := Z.of_nat (length qs) in
  let round := default 1 (current_round k) in
  let wrong := default [] (wrong_questions k) in
  let session_id := current_session_id k in
  let '(st, saved) :=
    if _is_logged_in (nav w) && truthy session_id
       && negb (default false (session_score_saved k))
    then (update_session_score (store w) (default 0 session_id) sc total, Some true)
    else (store w, session_score_saved k) in
  let history := default [] (round_history k) in
  let history' :=
    if Z.of_nat (length history) <? round
    then Some (history ++ [mkRound round sc total wrong])
    else round_history k in
  mkWorld (nav w)
    (mkKeys (quiz_started k) (questions k) (current_index k) (answered k) (score k)
       (show_result k) (selected_answer k) (wrong_questions k) history'
       (current_round k) (current_test_id k) (current_session_id k) saved
       (active_quiz_level k))
    st.

(** Lines 388-426 divide by the totals and index the options of the wrong
    questions; the buttons below them are drawn only if none of that
    raises. *)
Definition completion_draws (k : Keys) (qs : list Question) : bool :=
  let history := default [] (round_history k) in
  negb (Z.of_nat (length qs) =? 0)
  && (if (1 <? length history)%nat
      then negb (foldr Z.add 0 (r_total <$> history) =? 0)
           && forallb (λ r, negb (r_total r =? 0)) history
      else true)
  && forallb (λ q, bool_decide (is_Some (py_index (q_options q) (q_answer_index q))))
       (default [] (wrong_questions k)).

(** Lines 430-449, the "retry wrong questions" button.  [reshuffled] is
    the value of [shuffle_question_options(wrong)] after
    [random.shuffle(wrong)]. *)
Definition retry_wrong (w : World) (reshuffled : list Question) : Pass :=
  let k := keys w in
  let wrong := default [] (wrong_questions k) in
  let next_round := default 1 (current_round k) + 1 in
  let session :=
    if _is_logged_in (nav w) then
      match current_test_id k with
      | Some tid =>
          let '(id, s) := create_session (store w) (default 0 (user_id (nav w))) tid 0
                            (Z.of_nat (length wrong)) in
          Some (Some id, s)
      | None => None
      end
    else Some (None, store w) in
  match session with
  | None => stay w
  | Some (new_session_id, s) =>
      rerun (mkWorld (nav w)
               (mkKeys (quiz_started k) (Some reshuffled) (Some 0%nat) (Some false) (Some 0)
                  (show_result k) None (Some []) (round_history k) (Some next_round)
                  (current_test_id k) new_session_id (Some false) (active_quiz_level k))
               s)
  end.

Definition quiz_completed (ev : option Event) (w : World) (qs : list Question) (sc : Z)
    : Pass :=
  let w1 := completion_effects w qs sc in
  let wrong := default [] (wrong_questions (keys w1)) in
  match ev with
  | None => stay w1
  | Some e =>
      if completion_draws (keys w1) qs then
        match e with
        | RetryWrong reshuffled =>
            if bool_decide (wrong ≠ []) && bool_decide (length reshuffled = length wrong)
            then retry_wrong w1 reshuffled else None
        | BackToStart => rerun (reset_quiz w1)
        | _ => None
        end
      else None
  end.

(** *** [show_quiz], the question branch (lines 460-555) *)

(** Lines 483-495 and 502-514: score the answer, remember a wrong
    question, log the answer for a logged-in user. *)
Definition score_answer (w : World) (question : Question) (given : Answer)
    (is_correct : bool) : Pass :=
  let k := keys w in
  let k1 :=
    mkKeys (quiz_started k) (questions k) (current_index k) (Some true) (score k)
      (show_result k) (Some given) (wrong_questions k) (round_history k)
      (current_round k) (current_test_id k) (current_session_id k)
      (session_score_saved k) (active_quiz_level k) in
  let scored :=
    if is_correct then
      match score k with
      | Some sc =>
          Some (mkKeys (quiz_started k1) (questions k1) (current_index k1) (answered k1)
                  (Some (sc + 1)) (show_result k1) (selected_answer k1)
                  (wrong_questions k1) (round_history k1) (current_round k1)
                  (current_test_id k1) (current_session_id k1) (session_score_saved k1)
                  (active_quiz_level k1))
      | None => None
      end
    else
      match wrong_questions k with
      | Some wq =>
          Some (mkKeys (quiz_started k1) (questions k1) (current_index k1) (answered k1)
                  (score k1) (show_result k1) (selected_answer k1)
                  (Some (wq ++ [question])) (round_history k1) (current_round k1)
                  (current_test_id k1) (current_session_id k1) (session_score_saved k1)
                  (active_quiz_level k1))
      | None => None
      end in
  match scored with
  | None => stay (mkWorld (nav w) k1 (store w))
  | Some k2 =>
      if _is_logged_in (nav w) then
        match current_test_id k2 with
        | Some tid =>
            rerun (mkWorld (nav w) k2
                     (record_answer (store w) (default 0 (user_id (nav w))) tid
                        (q_id question) is_correct (current_session_id k2)))
        | None => stay (mkWorld (nav w) k2 (store w))
        end
      else rerun (mkWorld (nav w) k2 (store w))
  end.

Definition quiz_question (ev : option Event) (w : World) (question : Question)
    (ci : nat) : Pass :=
  let k := keys w in
  let is_difficult := bool_decide (active_quiz_level k = Some "difficult") in
  match answered k with
  | None => match ev with None => stay w | Some _ => None end
  | Some false =>
      match ev with
      | None => stay w
      | Some (SubmitText user_text) =>
          if is_difficult then
            match py_index (q_options question) (q_answer_index question) with
            | Some correct_text =>
                score_answer w question (TypedText (strip user_text))
                  (free_text_matches user_text correct_text)
            | None => stay w
            end
          else None
      | Some (ClickOption i) =>
          if negb is_difficult && bool_decide (i < length (q_options question))%nat
          then score_answer w question (ChosenIndex i)
                 (bool_decide (Z.of_nat i = q_answer_index question))
          else None
      | Some Abandon => rerun (reset_quiz w)
      | Some _ => None
      end
  | Some true =>
      let drawn :=
        bool_decide (is_Some (py_index (q_options question) (q_answer_index question)))
        && (if is_difficult
            then match selected_answer k with Some (TypedText _) => true | _ => false end
            else true) in
      match ev with
      | None => stay w
      | Some e =>
          if drawn then
            match e with
            | NextQuestion =>
                rerun (mkWorld (nav w)
                         (mkKeys (quiz_started k) (questions k) (Some (S ci)) (Some false)
                            (score k) (show_result k) None (wrong_questions k)
                            (round_history k) (current_round k) (current_test_id k)
                            (current_session_id k) (session_score_saved k)
                            (active_quiz_level k))
                         (store w))
            | Abandon => rerun (reset_quiz w)
            | _ => None
            end
          else None
      end
  end.

Definition show_quiz (ev : option Event) (w : World) : Pass :=
  match questions (keys w), current_index (keys w) with
  | Some qs, Some ci =>
      match qs !! ci with
      | None =>
          match score (keys w) with
          | Some sc => quiz_completed ev w qs sc
          | None => match ev with None => stay w | Some _ => None end
          end
      | Some question => quiz_question ev w question ci
      end
  | _, _ => match ev with None => stay w | Some _ => None end
  end.

(** *** The pages that lead to a quiz *)

(** [show_test_config], lines 232-357. *)
Definition show_test_config (ev : option Event) (w : World) : Pass :=
  let n := nav w in
  match selected_test n with
  | Some test_id =>
      if negb (test_id =? 0) then
        match ev with
        | None => stay w
        | Some ConfigBack =>
            goto Tests
              (with_nav (mkNav (user_id n) (page n) (prev_page n) None (selected_program n)
                           (editing_test_id n) (editing_program_id n)) w)
        | Some ConfigEdit =>
            if _is_logged_in n then
              goto EditarTest
                (with_nav (mkNav (user_id n) (page n) (prev_page n) (selected_test n)
                             (selected_program n) (Some test_id) (editing_program_id n)) w)
            else None
        | Some (StartTest quiz_questions quiz_level) =>
            let '(session_id, s) := open_session w test_id (Z.of_nat (length quiz_questions)) in
            goto Tests
              (mkWorld n
                 (start_keys quiz_questions test_id session_id
                    (session_score_saved (keys w)) (Some quiz_level))
                 s)
        | Some _ => None
        end
      else match ev with None => goto Tests w | Some _ => None end
  | None => match ev with None => goto Tests w | Some _ => None end
  end.

(** [show_program_config], lines 1203-1287. *)
Definition show_program_config (ev : option Event) (w : World) : Pass :=
  let n := nav w in
  if truthy (selected_program n) then
    match ev with
    | None => stay w
    | Some ProgramConfigBack =>
        goto Programas
          (with_nav (mkNav (user_id n) (page n) (prev_page n) (selected_test n) None
                       (editing_test_id n) (editing_program_id n)) w)
    | Some (StartProgram quiz_questions) =>
        let '(session_id, s) := open_session w 0 (Z.of_nat (length quiz_questions)) in
        goto Programas
          (mkWorld n
             (start_keys quiz_questions 0 session_id (session_score_saved (keys w))
                (active_quiz_level (keys w)))
             s)
    | Some _ => None
    end
  else match ev with None => goto Programas w | Some _ => None end.

(** [show_dashboard] line 629 and [_start_quiz_from_wrong], lines 633-669. *)
Definition show_dashboard (ev : option Event) (w : World) : Pass :=
  match ev with
  | None => stay w
  | Some (PracticeWrong quiz_questions test_id) =>
      match quiz_questions with
      | [] => stay w
      | _ =>
          match user_id (nav w) with
          | Some uid =>
              let '(session_id, s) :=
                create_session (store w) uid test_id 0 (Z.of_nat (length quiz_questions)) in
              goto Tests
                (mkWorld (nav w)
                   (start_keys quiz_questions test_id (Some session_id) (Some false)
                      (active_quiz_level (keys w)))
                   s)
          | None => stay w
          end
      end
  | Some _ => None
  end.

(** *** The pages that only navigate *)

Definition show_profile (ev : option Event) (w : World) : Pass :=
  match ev with
  | None => stay w
  | Some SaveProfile => goto (default Tests (prev_page (nav w))) w
  | Some _ => None
  end.

Definition show_test_catalog (ev : option Event) (w : World) : Pass :=
  let n := nav w in
  match ev with
  | None => stay w
  | Some (CatalogSelect test_id) =>
      goto ConfigurarTest
        (with_nav (mkNav (user_id n) (page n) (prev_page n) (Some test_id)
                     (selected_program n) (editing_test_id n) (editing_program_id n)) w)
  | Some CatalogCreate => if _is_logged_in n then goto CrearTest w else None
  | Some _ => None
  end.

Definition show_create_test (ev : option Event) (w : World) : Pass :=
  let n := nav w in
  match ev with
  | None => stay w
  | Some CreateTestBack => goto Tests w
  | Some (CreateTestSubmit test_id) =>
      goto EditarTest
        (with_nav (mkNav (user_id n) (page n) (prev_page n) (selected_test n)
                     (selected_program n) (Some test_id) (editing_program_id n)) w)
  | Some _ => None
  end.

Definition show_test_editor (ev : option Event) (w : World) : Pass :=
  let n := nav w in
  let closed :=
    with_nav (mkNav (user_id n) (page n) (prev_page n) (selected_test n)
                (selected_program n) None (editing_program_id n)) w in
  if truthy (editing_test_id n) then
    match ev with
    | None => stay w
    | Some EditorBack => goto Tests closed
    | Some EditorDelete => goto Tests closed
    | Some EditorSaveInfo =>
        goto ConfigurarTest
          (with_nav (mkNav (user_id n) (page n) (prev_page n) (editing_test_id n)
                       (selected_program n) None (editing_program_id n)) w)
    | Some _ => None
    end
  else match ev with None => goto Tests w | Some _ => None end.

Definition show_programs (ev : option Event) (w : World) : Pass :=
  let n := nav w in
  match ev with
  | None => stay w
  | Some ProgramsCreate => goto CrearPrograma w
  | Some (ProgramsSelect program_id) =>
      goto ConfigurarPrograma
        (with_nav (mkNav (user_id n) (page n) (prev_page n) (selected_test n)
                     (Some program_id) (editing_test_id n) (editing_program_id n)) w)
  | Some (ProgramsEdit program_id) =>
      goto EditarPrograma
        (with_nav (mkNav (user_id n) (page n) (prev_page n) (selected_test n)
                     (selected_program n) (editing_test_id n) (Some program_id)) w)
  | Some _ => None
  end.

Definition show_create_program (ev : option Event) (w : World) : Pass :=
  let n := nav w in
  match ev with
  | None => stay w
  | Some CreateProgramBack => goto Programas w
  | Some (CreateProgramSubmit program_id) =>
      goto EditarPrograma
        (with_nav (mkNav (user_id n) (page n) (prev_page n) (selected_test n)
                     (selected_program n) (editing_test_id n) (Some program_id)) w)
  | Some _ => None
  end.

Definition show_program_editor (ev : option Event) (w : World) : Pass :=
  let n := nav w in
  let closed :=
    with_nav (mkNav (user_id n) (page n) (prev_page n) (selected_test n)
                (selected_program n) (editing_test_id n) None) w in
  if truthy (editing_program_id n) then
    match ev with
    | None => stay w
    | Some ProgramEditorBack => goto Programas closed
    | Some ProgramEditorDelete => goto Programas closed
    | Some _ => None
    end
  else match ev with None => goto Programas w | Some _ => None end.

(** *** [main], lines 1290-1383 *)

(** [_try_login], lines 28-45, when the provider reports [uid]. *)
Definition _try_login (uid : Z) (w : World) : World :=
  let n := nav w in
  if truthy (user_id n) then w
  else with_nav (mkNav (Some uid) (page n) (prev_page n) (selected_test n)
                   (selected_program n) (editing_test_id n) (editing_program_id n)) w.

Definition default_page (w : World) : World :=
  match page (nav w) with
  | Some _ => w
  | None => with_nav (set_page Tests (nav w)) w
  end.

Definition default_quiz_started (w : World) : World :=
  let k := keys w in
  match quiz_started k with
  | Some _ => w
  | None =>
      mkWorld (nav w)
        (mkKeys (Some false) (questions k) (current_index k) (answered k) (score k)
           (show_result k) (selected_answer k) (wrong_questions k) (round_history k)
           (current_round k) (current_test_id k) (current_session_id k)
           (session_score_saved k) (active_quiz_level k))
        (store w)
  end.

Definition show_view (ev : option Event) (w : World) : Pass :=
  match dispatch w with
  | VProfile => show_profile ev w
  | VDashboard => show_dashboard ev w
  | VTestConfig => show_test_config ev w
  | VCreateTest => show_create_test ev w
  | VTestEditor => show_test_editor ev w
  | VPrograms => show_programs ev w
  | VCreateProgram => show_create_program ev w
  | VProgramEditor => show_program_editor ev w
  | VProgramConfig => show_program_config ev w
  | VQuiz => show_quiz ev w
  | VCatalog => show_test_catalog ev w
  end.

(** One run of the script. *)
Definition run_pass (ev : option Event) (w : World) : Pass :=
  let w := match ev with Some (ProviderLogin uid) => _try_login uid w | _ => w end in
  let ev := match ev with Some (ProviderLogin _) => None | _ => ev end in
  let w := default_page w in
  let n := nav w in
  let logged_in := _is_logged_in n in
  match ev with
  | Some ClickProfile =>
      if logged_in then
        goto Perfil
          (with_nav (mkNav (user_id n) (page n) (page n) (selected_test n)
                       (selected_program n) (editing_test_id n) (editing_program_id n)) w)
      else None
  | Some ClickLogout =>
      if logged_in then rerun (mkWorld no_nav no_keys (store w)) else None
  | Some (ClickNav p) =>
      if bool_decide (p = Tests)
         || logged_in && (bool_decide (p = Dashboard) || bool_decide (p = Programas))
      then goto p w else None
  | _ => show_view ev (default_quiz_started w)
  end.

(** The runs that follow an [st.rerun()]: the page is drawn again until a
    run ends without asking for another one. *)
Fixpoint settle (fuel : nat) (w : World) : option World :=
  match fuel with
  | O => None
  | S fuel' =>
      match run_pass None w with
      | Some (w', true) => settle fuel' w'
      | Some (w', false) => Some w'
      | None => None
      end
  end.

(** One interaction of the user: the run that handles it and the reruns it
    causes. *)
Definition interact (ev : Event) (w : World) : option World :=
  match run_pass (Some ev) w with
  | Some (w', true) => settle 3 w'
  | Some (w', false) => Some w'
  | None => None
  end.

(** A browser session starts with an empty [st.session_state] over some
    database whose session ids lie below the counter, and draws the page. *)
Definition fresh_store (s : Store) : Prop :=
  0 ≤ last_session_id s ∧ score_updates s = [].

Inductive reachable : World → Prop :=
| reachable_start s w :
    fresh_store s → settle 3 (mkWorld no_nav no_keys s) = Some w → reachable w
| reachable_step ev w w' :
    reachable w → interact ev w = Some w' → reachable w'.

(** The view on screen shows a completed round of a logged-in user whose
    session row is [sid], with [sc] right answers out of [total]. *)
Definition round_completed (w : World) (sid sc total : Z) : Prop :=
  dispatch w = VQuiz
  ∧ _is_logged_in (nav w) = true
  ∧ current_session_id (keys w) = Some sid ∧ sid ≠ 0
  ∧ score (keys w) = Some sc
  ∧ ∃ qs ci, questions (keys w) = Some qs ∧ current_index (keys w) = Some ci
             ∧ (length qs ≤ ci)%nat ∧ total = Z.of_nat (length qs).

(** The events that start a round. *)
Definition starts_round (ev : Event) : bool :=
  match ev with
  | StartTest _ _ | StartProgram _ | PracticeWrong (_ :: _) _ | RetryWrong _ => true
  | _ => false
  end.

(** A browser session: the first run over a database, then one interaction
    after the other. *)
Fixpoint run_events (evs : list Event) (w : World) : option World :=
  match evs with
  | [] => Some w
  | ev :: rest =>
      match interact ev w with
      | Some w' => run_events rest w'
      | None => None
      end
  end.

Definition session_run (s : Store) (evs : list Event) : option World :=
  match settle 3 (mkWorld no_nav no_keys s) with
  | Some w => run_events evs w
  | None => None
  end.

(** *** What holds between two runs

    The session ids on which [update_session_score] has been called. *)
Definition session_ids (s : Store) : list Z := (λ u, u.1.1) <$> score_updates s.

(** The pages on which a started quiz is shown or from which the user comes
    back to it. *)
Definition quiz_page (p : option Page) : Prop :=
  p = Some Tests ∨ p = Some Dashboard ∨ p = Some Programas ∨ p = Some Perfil.

Definition page_ok (n : Nav) : Prop :=
  quiz_page (page n)
  ∧ (page n = Some Perfil → prev_page n = None ∨ quiz_page (prev_page n)).

(** No call was made on an id that [create_session] has not handed out
    yet, and none on the same id twice. *)
Definition store_ok (s : Store) : Prop :=
  (∀ sid, sid ∈ session_ids s → sid ≤ last_session_id s) ∧ NoDup (session_ids s).

(** The guard flag is set exactly when the score of the current session
    has been written, and then the round on screen is a completed one. *)
Definition keys_ok (k : Keys) (s : Store) : Prop :=
  (∀ sid, current_session_id k = Some sid → sid ≤ last_session_id s)
  ∧ (∀ sid, current_session_id k = Some sid → sid ∈ session_ids s →
            session_score_saved k = Some true)
  ∧ (session_score_saved k = Some true →
     quiz_started k = Some true
     ∧ ∃ sid sc qs ci,
         current_session_id k = Some sid ∧ score k = Some sc
         ∧ questions k = Some qs ∧ current_index k = Some ci ∧ (length qs ≤ ci)%nat
         ∧ (sid, sc, Z.of_nat (length qs)) ∈ score_updates s).

Definition inv (w : World) : Prop :=
  store_ok (store w) ∧ keys_ok (keys w) (store w)
  ∧ (quiz_started (keys w) = Some true → page_ok (nav w)).

(** The state that a run leaves when it does not ask for another run. *)
Definition settled (w : World) : Prop :=
  is_Some (page (nav w)) ∧ is_Some (quiz_started (keys w))
  ∧ ∀ sid sc total, round_completed w sid sc total →
                    session_score_saved (keys w) = Some true.

End Quiz.

(** ** The tally of a round

    What the keys of a started quiz hold: the right answers and the wrong
    questions add up to the questions answered so far, the pointer has not
    passed the end of the list, and every wrong question is one of the
    round. *)
Definition books_ok (k : Quiz.Keys) : Prop :=
  Quiz.quiz_started k = Some true →
  ∃ qs ci a sc wq,
    Quiz.questions k = Some qs ∧ Quiz.current_index k = Some ci
    ∧ Quiz.answered k = Some a ∧ Quiz.score k = Some sc
    ∧ Quiz.wrong_questions k = Some wq
    ∧ sc + Z.of_nat (length wq) = Z.of_nat ci + (if a then 1 else 0)
    ∧ (ci + (if a then 1 else 0) ≤ length qs)%nat
    ∧ 0 ≤ sc ∧ wq ⊆ qs.

(** ** Sample data

    A small bank of questions with three tags, and a random source whose
    n-th raw draw is [3 * n + 1]. *)

Definition sample_question (id : Z) (tag : string) (answer_index : Z) : Question :=
  mkQuestion id tag "Which one?" ["alpha"; "beta"; "gamma"] answer_index EmptyString id EmptyString.

Definition sample_questions : list Question :=
  [ sample_question 1 "bones" 0; sample_question 2 "muscles" 1;
    sample_question 3 "bones" 2; sample_question 4 "nerves" 1;
    sample_question 5 "muscles" 0 ].

Definition sample_rng : Rng := mkRng (λ n, (3 * n + 1)%nat) 0.

(** A history in which question 1 was answered right three times and
    wrong once, and question 3 wrong twice. *)
Definition sample_stats : gmap Z Stats := {[ 1 := mkStats 3 1; 3 := mkStats 0 2 ]}.

(** A question whose correct option is a single space, as the test editor
    stores it when the author leaves the field blank, and the state of an
    anonymous visitor who is asked that question at the difficult level. *)
Definition blank_question : Question :=
  mkQuestion 1 "bones" "Which one?" [" "; "femur"] 0 EmptyString 1 EmptyString.

Definition sample_store : Quiz.Store := Quiz.mkStore [] 0 [] [].

Definition difficult_world (question : Question) : Quiz.World :=
  Quiz.mkWorld
    (Quiz.mkNav None (Some Quiz.Tests) None (Some 1) None None None)
    (Quiz.start_keys [question] 1 None None (Some "difficult"))
    sample_store.

(** User 7 logs in, opens test 1, starts it at the easy level with one
    question, answers it right and moves on: the round is completed. *)
Definition sample_events : list Quiz.Event :=
  [ Quiz.ProviderLogin 7; Quiz.CatalogSelect 1;
    Quiz.StartTest [sample_question 1 "bones" 0] "easy";
    Quiz.ClickOption 0; Quiz.NextQuestion ].

Definition completed_world : Quiz.World :=
  default (Quiz.mkWorld Quiz.no_nav Quiz.no_keys sample_store)
    (Quiz.session_run sample_store sample_events).

(** A question whose [answer_index] points behind its three options. *)
Definition bad_index_question : Question := sample_question 9 "bones" 5.

(** The same round taken by a visitor who does not log in. *)
Definition anonymous_events : list Quiz.Event :=
  [ Quiz.CatalogSelect 1; Quiz.StartTest [sample_question 1 "bones" 0] "easy";
    Quiz.ClickOption 0; Quiz.NextQuestion ].

Definition anonymous_world : Quiz.World :=
  default (Quiz.mkWorld Quiz.no_nav Quiz.no_keys sample_store)
    (Quiz.session_run sample_store anonymous_events).

(** A database with one user, a public test and a hidden test of another
    owner on which the user is an accepted collaborator by e-mail. *)
Definition public_test : TestRow :=
  mkTest 1 (Some 9) "Skull" None None (Some 1) (Some "es") (Some "public").

Definition hidden_test : TestRow :=
  mkTest 2 (Some 9) "Thorax" None None (Some 0) (Some "es") (Some "hidden").

Definition sample_db : Database :=
  mkDatabase [mkUser 7 "ana@example.org"] [public_test; hidden_test]
    [mkQuestionRow 1 1; mkQuestionRow 2 2; mkQuestionRow 3 2]
    [mkTestCollaborator 1 2 "ana@example.org" None "student" "accepted"] [] [].

(** The same database before the invitation to the hidden test has been
    accepted. *)
Definition pending_invitation : TestCollaboratorRow :=
  mkTestCollaborator 1 2 "ana@example.org" None "student" "pending".

Definition invited_db : Database :=
  mkDatabase [mkUser 7 "ana@example.org"] [public_test; hidden_test]
    [mkQuestionRow 1 1; mkQuestionRow 2 2; mkQuestionRow 3 2]
    [pending_invitation] [] [].

(** * Properties *)

Set Warnings "-clear-no-such-hyp".

(** ** Shuffling and sorting permute *)

Lemma insert_swap_head {A} (t : list A) (j : nat) (a b : A) :
  t !! j = Some b → b :: <[j := a]> t ≡ₚ a :: t.
Proof.
  revert j. induction t as [|h t IH]; intros [|j] Hj; simplify_eq/=.
  - apply perm_swap.
  - rewrite (perm_swap h b), (IH _ Hj). apply perm_swap.
Qed.

Lemma swap_perm {A} (x : list A) (i j : nat) : swap x i j ≡ₚ x.
Proof.
  unfold swap.
  destruct (x !! i) as [a|] eqn:Hi; [|done].
  destruct (x !! j) as [b|] eqn:Hj; [|done].
  revert i j Hi Hj. induction x as [|h t IH]; intros [|i] [|j] Hi Hj; simplify_eq/=.
  - done.
  - by apply insert_swap_head.
  - by apply insert_swap_head.
  - f_equiv. by apply IH.
Qed.

Lemma shuffle_from_perm {A} (i : nat) (x : list A) (g : Rng) :
  (shuffle_from i x g).1 ≡ₚ x.
Proof.
  revert x g. induction i as [|i IH]; intros x g; simpl; [done|].
  rewrite IH. apply swap_perm.
Qed.

Lemma shuffle_perm {A} (x : list A) (g : Rng) : (shuffle x g).1 ≡ₚ x.
Proof. apply shuffle_from_perm. Qed.

Lemma insert_sorted_perm {A} (after : A → A → bool) (x : A) (l : list A) :
  insert_sorted after x l ≡ₚ x :: l.
Proof.
  induction l as [|y l IH]; simpl; [done|].
  destruct (after x y); [|done]. rewrite IH. apply perm_swap.
Qed.

Lemma stable_sort_perm {A} (after : A → A → bool) (l : list A) :
  stable_sort after l ≡ₚ l.
Proof.
  induction l as [|x l IH]; simpl; [done|].
  by rewrite insert_sorted_perm, IH.
Qed.

(** ** Effective visibility *)

(** C1: on every pair of levels [get_effective_visibility] returns the
    level of minimal rank under hidden(0) < private(1) < restricted(2) <
    public(3); when the two levels differ the result is not the one of
    maximal rank; ("private", "public") gives "private" and
    ("public", "restricted") gives "restricted". *)
Theorem effective_visibility_is_minimum :
  (∀ a b : Visibility,
     ∃ c, get_effective_visibility (visibility_name a) (visibility_name b)
            = Some (visibility_name c)
          ∧ visibility_rank c = Z.min (visibility_rank a) (visibility_rank b)
          ∧ (visibility_rank a ≠ visibility_rank b →
             visibility_rank c ≠ Z.max (visibility_rank a) (visibility_rank b)))
  ∧ get_effective_visibility "private" "public" = Some "private"
  ∧ get_effective_visibility "public" "restricted" = Some "restricted".
Proof.
  split; [|split; reflexivity].
  intros a b.
  exists (if visibility_rank a <=? visibility_rank b then a else b).
  destruct a, b; (split; [reflexivity|]); split; simpl; lia.
Qed.

(** ** Difficulty score *)

(** C4: with a stats entry whose total of attempts is positive the score is
    wrong / (correct + wrong); without an entry, or with both counts zero,
    it is 1/2; {correct:0, wrong:0} scores 1/2 and {correct:3, wrong:1}
    scores 1/4. *)
Theorem difficulty_score_value :
  ∀ (q : Question) (question_stats : gmap Z Stats),
    (∀ s, question_stats !! q_id q = Some s → 0 < correct s + wrong s →
          _difficulty_score q question_stats
          = (inject_Z (wrong s) / inject_Z (correct s + wrong s))%Q)
    ∧ (question_stats !! q_id q = None → _difficulty_score q question_stats = (1 # 2)%Q)
    ∧ (∀ s, question_stats !! q_id q = Some s → correct s = 0 → wrong s = 0 →
            _difficulty_score q question_stats = (1 # 2)%Q)
    ∧ _difficulty_score q {[ q_id q := mkStats 0 0 ]} = (1 # 2)%Q
    ∧ (_difficulty_score q {[ q_id q := mkStats 3 1 ]} == 1 # 4)%Q.
Proof.
  intros q question_stats. unfold _difficulty_score. repeat split.
  - intros s -> Hpos. destruct (Z.eqb_spec (correct s + wrong s) 0); [lia|done].
  - by intros ->.
  - intros s -> -> ->. done.
  - by rewrite lookup_singleton_eq.
  - by rewrite lookup_singleton_eq.
Qed.

(** ** The selection engine *)

(** C2: when the requested count is at least the size of the tag-filtered
    pool, the result is a permutation of the filtered pool: every filtered
    question exactly once, in some order. *)
Theorem select_returns_whole_pool (fuel : nat) (questions : list Question)
    (selected_tags : list string) (num_questions : Z)
    (question_stats : option (gmap Z Stats)) (g : Rng) :
  Z.of_nat (length (filtered_pool questions selected_tags)) ≤ num_questions →
  ∃ r g', select_balanced_questions fuel questions selected_tags num_questions
            question_stats g = Returned (r, g')
          ∧ r ≡ₚ filtered_pool questions selected_tags.
Proof.
  intros Hn. unfold select_balanced_questions. fold (filtered_pool questions selected_tags).
  destruct (decide _) as [->|_]; [by eexists _, _|].
  destruct (Z.leb_spec (Z.of_nat (length (filtered_pool questions selected_tags)))
              num_questions); [|lia].
  destruct (shuffle _ g) as [r g'] eqn:Hs. exists r, g'. split; [done|].
  change r with (r, g').1. rewrite <- Hs. apply shuffle_perm.
Qed.

(** C9: with no active tag, or with no question carrying an active tag,
    the function returns the empty list (and leaves the random source
    untouched); it neither raises nor fails. *)
Theorem select_empty_pool (fuel : nat) (questions : list Question)
    (selected_tags : list string) (num_questions : Z)
    (question_stats : option (gmap Z Stats)) (g : Rng) :
  selected_tags = [] ∨ (∀ q, q ∈ questions → q_tag q ∉ selected_tags) →
  select_balanced_questions fuel questions selected_tags num_questions question_stats g
  = Returned ([], g).
Proof.
  intros H. unfold select_balanced_questions.
  assert (filter (λ q, q_tag q ∈ selected_tags) questions = []) as ->; [|done].
  destruct (filter _ questions) as [|q l] eqn:Hf; [done|exfalso].
  assert (q ∈ filter (λ q, q_tag q ∈ selected_tags) questions) as Hq
    by (rewrite Hf; left).
  apply list_elem_of_filter in Hq as [Htag Hin].
  destruct H as [->|H]; [by apply not_elem_of_nil in Htag|by apply (H q)].
Qed.

(** *** Dictionaries *)

Section DictFacts.
Context {V : Type}.
Implicit Types (d : list (string * V)) (k : string) (v : V).

Lemma dict_get_set d k k' v :
    dict_get (dict_set d k v) k' = if decide (k = k') then Some v else dict_get d k'.
  Proof.
    induction d as [|[k0 v0] d IH]; simpl.
    - repeat case_decide; simplify_eq; done.
    - repeat (case_decide; simplify_eq/=); try done;
        rewrite IH; by repeat (case_decide; simplify_eq).
  Qed.

Lemma dict_set_set d k v v' : dict_set (dict_set d k v) k v' = dict_set d k v'.
  Proof.
    induction d as [|[k0 v0] d IH]; simpl.
    - by rewrite decide_True.
    - case_decide; simpl; [by rewrite decide_True|].
      rewrite decide_False by done. by rewrite IH.
  Qed.

Lemma dict_get_is_Some d k : is_Some (dict_get d k) ↔ k ∈ dict_keys d.
  Proof.
    unfold dict_keys. induction d as [|[k0 v0] d IH]; simpl.
    - split; [by intros [? ?]|by intros ?%not_elem_of_nil].
    - rewrite elem_of_cons. case_decide; subst.
      + split; eauto.
      + rewrite IH. split; [by right|by intros [?|?]].
  Qed.

Lemma dict_get_elem_of d k v : dict_get d k = Some v → (k, v) ∈ d.
  Proof.
    induction d as [|[k0 v0] d IH]; simpl; [done|].
    case_decide; intros; simplify_eq; [left|right; auto].
  Qed.

Lemma dict_get_lookup d i k v :
    NoDup (dict_keys d) → d !! i = Some (k, v) → dict_get d k = Some v.
  Proof.
    unfold dict_keys. revert i. induction d as [|[k0 v0] d IH]; intros [|i] Hnd Hi;
      simplify_eq/=.
    - by rewrite decide_True.
    - apply NoDup_cons in Hnd as [Hk0 Hnd]. rewrite decide_False; [by eapply IH|].
      intros ->. apply Hk0. apply list_elem_of_fmap. exists (k, v).
      split; [done|]. by eapply list_elem_of_lookup_2.
  Qed.

Lemma dict_keys_set d k v :
    dict_keys (dict_set d k v)
    = if decide (k ∈ dict_keys d) then dict_keys d else dict_keys d ++ [k].
  Proof.
    unfold dict_keys. induction d as [|[k0 v0] d IH].
    - cbn [dict_set]. rewrite decide_False; [done|apply not_elem_of_nil].
    - cbn [dict_set]. destruct (decide (k0 = k)) as [->|Hne].
      + rewrite !fmap_cons. cbn [fst]. rewrite decide_True; [done|left].
      + rewrite !fmap_cons, IH. cbn [fst].
        destruct (decide (k ∈ d.*1)) as [Hin|Hnin].
        * rewrite decide_True; [done|by right].
        * rewrite decide_False; [done|].
          intros [->|?]%elem_of_cons; done.
  Qed.

Lemma dict_set_elem_of d k v k' v' :
    (k', v') ∈ dict_set d k v → (k', v') ∈ d ∨ (k' = k ∧ v' = v).
  Proof.
    induction d as [|[k0 v0] d IH]; simpl.
    - intros ?%list_elem_of_singleton. naive_solver.
    - case_decide; subst; rewrite !elem_of_cons; naive_solver.
  Qed.
End DictFacts.

Lemma bucket_total_set d k (b b' : list Question) :
  dict_get d k = Some b →
  (bucket_total (dict_set d k b') + length b = bucket_total d + length b')%nat.
Proof.
  unfold bucket_total. induction d as [|[k0 v0] d IH]; simpl; [done|].
  case_decide; intros; simplify_eq/=; [lia|]. specialize (IH ltac:(done)). lia.
Qed.

Lemma bucket_total_set_new d k (b' : list Question) :
  dict_get d k = None →
  bucket_total (dict_set d k b') = (bucket_total d + length b')%nat.
Proof.
  unfold bucket_total. induction d as [|[k0 v0] d IH]; simpl; [lia|].
  case_decide; intros; simplify_eq/=. rewrite IH by done. lia.
Qed.

Lemma py_list_remove_Some `{EqDecision A} (x : A) (l : list A) :
  x ∈ l →
  ∃ l', py_list_remove x l = Some l' ∧ length l = S (length l') ∧ l' ⊆ l.
Proof.
  induction l as [|y l IH]; [by intros ?%not_elem_of_nil|].
  intros Hx. simpl. case_decide; subst.
  - exists l. split_and!; [done..|]. set_solver.
  - apply elem_of_cons in Hx as [?|Hx]; [done|].
    destruct (IH Hx) as (l' & -> & Hlen & Hsub). exists (y :: l').
    split_and!; simpl; [done|lia|set_solver].
Qed.

(** *** Bucketing (lines 70-84) *)

Lemma group_step_eq d q :
  group_step d q
  = Returned (dict_set d (q_tag q) (default [] (dict_get d (q_tag q)) ++ [q])).
Proof.
  unfold group_step. destruct (dict_get d (q_tag q)) as [b|] eqn:Hb; simpl.
  - by rewrite Hb.
  - rewrite dict_get_set, decide_True by done. by rewrite dict_set_set.
Qed.

Lemma group_step_wf d q :
  buckets_wf d → buckets_wf (dict_set d (q_tag q) (default [] (dict_get d (q_tag q)) ++ [q])).
Proof.
  intros [Hnd Hb]. split.
  - rewrite dict_keys_set. case_decide; [done|].
    apply NoDup_app. split_and!; [done| |apply NoDup_singleton].
    intros k Hk ->%list_elem_of_singleton. done.
  - intros k b [Hin|[-> ->]]%dict_set_elem_of; [by apply Hb|].
    split; [by destruct (default _ _)|].
    intros q' [Hq'| ->%list_elem_of_singleton]%elem_of_app; [|done].
    destruct (dict_get d (q_tag q)) as [b|] eqn:Hd; simpl in Hq';
      [|by apply not_elem_of_nil in Hq'].
    apply dict_get_elem_of in Hd. by apply (Hb _ _ Hd).
Qed.

Lemma group_by_tag_spec filtered d :
  buckets_wf d →
  ∃ d', group_by_tag d filtered = Returned d'
        ∧ buckets_wf d'
        ∧ bucket_total d' = (bucket_total d + length filtered)%nat
        ∧ (∀ k, k ∈ dict_keys d' ↔ k ∈ dict_keys d ∨ k ∈ q_tag <$> filtered).
Proof.
  revert d. induction filtered as [|q rest IH]; intros d Hwf; simpl.
  - exists d. split_and!; [done|done|lia|]. intros k. rewrite elem_of_nil. naive_solver.
  - rewrite group_step_eq. simpl.
    destruct (IH _ (group_step_wf d q Hwf)) as (d' & -> & Hwf' & Htot & Hkeys).
    exists d'. split_and!; [done|done| |].
    + rewrite Htot. destruct (dict_get d (q_tag q)) as [b|] eqn:Hd; simpl.
      * pose proof (bucket_total_set d (q_tag q) b (b ++ [q]) Hd) as H.
        rewrite length_app in H. simpl in H. lia.
      * rewrite bucket_total_set_new by done. simpl. lia.
    + intros k. rewrite Hkeys, dict_keys_set, elem_of_cons.
      case_decide; [naive_solver|]. rewrite elem_of_app, list_elem_of_singleton.
      naive_solver.
Qed.

(** The buckets before and after [order_buckets]: same keys in the same
    order, every bucket permuted. *)
Lemma order_buckets_spec question_stats d g :
  Forall2 (λ kb kb', kb.1 = kb'.1 ∧ kb'.2 ≡ₚ kb.2) d (order_buckets question_stats d g).1.
Proof.
  revert g. induction d as [|[k b] d IH]; intros g; simpl; [constructor|].
  destruct (match stats_truthy question_stats with
            | Some m => _ | None => _ end) as [b' g1] eqn:Hb.
  specialize (IH g1). destruct (order_buckets question_stats d g1) as [rest g2].
  simpl in *. constructor; [|done]. split; [done|]. simpl.
  destruct (stats_truthy question_stats).
  - injection Hb as <- <-. apply stable_sort_perm.
  - change b' with (b', g1).1. rewrite <- Hb. apply shuffle_perm.
Qed.

Lemma permuted_buckets_keys (d d' : list (string * list Question)) :
  Forall2 (λ kb kb', kb.1 = kb'.1 ∧ kb'.2 ≡ₚ kb.2) d d' → dict_keys d' = dict_keys d.
Proof.
  unfold dict_keys. induction 1 as [|[k b] [k' b'] d d' [Hk _] _ IH]; [done|].
  rewrite !fmap_cons, IH. simpl in *. by rewrite Hk.
Qed.

Lemma permuted_buckets_total (d d' : list (string * list Question)) :
  Forall2 (λ kb kb', kb.1 = kb'.1 ∧ kb'.2 ≡ₚ kb.2) d d' → bucket_total d' = bucket_total d.
Proof.
  unfold bucket_total.
  induction 1 as [|[k b] [k' b'] d d' [_ Hb] _ IH]; [done|].
  rewrite !fmap_cons. simpl in *. by rewrite IH, Hb.
Qed.

Lemma permuted_buckets_wf (d d' : list (string * list Question)) :
  Forall2 (λ kb kb', kb.1 = kb'.1 ∧ kb'.2 ≡ₚ kb.2) d d' → buckets_wf d → buckets_wf d'.
Proof.
  intros HF [Hnd Hb]. split; [by rewrite (permuted_buckets_keys d d')|].
  intros k b' Hin. apply list_elem_of_lookup in Hin as [i Hi].
  destruct (Forall2_lookup_r _ _ _ _ _ HF Hi) as ([k0 b] & Hi0 & Hk & Hperm).
  simpl in *. subst k0. apply list_elem_of_lookup_2 in Hi0.
  destruct (Hb _ _ Hi0) as [Hne Htag]. split.
  - intros ->. by apply Permutation_nil_l in Hperm.
  - intros q Hq. apply Htag. by rewrite <- Hperm.
Qed.

(** *** The round-robin loop (lines 86-98) *)

(** One iteration from a good state never raises; it either leaves the
    loop or continues in a good state with a smaller measure, and it only
    appends to [selected]. *)
Lemma round_robin_step_spec (s : LoopState) :
  loop_ok s →
  match round_robin_step s with
  | Continue s' =>
      loop_ok s' ∧ (loop_measure s' < loop_measure s)%nat
      ∧ selected s `prefix_of` selected s'
  | Break s' => selected s' = selected s
  | Fail _ => False
  end.
Proof.
  intros [Hne Hkeys]. unfold round_robin_step.
  destruct (length (tag_list s)) as [|n] eqn:Hlen.
  { by destruct (tag_list s). }
  destruct (tag_list s !! (tag_index s mod S n)%nat) as [tag|] eqn:Htag; last first.
  { apply lookup_ge_None in Htag.
    pose proof (Nat.mod_upper_bound (tag_index s) (S n)). lia. }
  assert (tag ∈ tag_list s) as Hin by by eapply list_elem_of_lookup_2.
  destruct (Hkeys _ Hin) as [bucket Hb]. rewrite Hb.
  destruct bucket as [|q bucket].
  - destruct (py_list_remove_Some tag (tag_list s) Hin) as (tl & -> & Hl & Hsub).
    destruct tl as [|t tl]; [done|].
    split_and!; simpl.
    + split; [done|]. intros t' Ht'. apply Hkeys. by apply Hsub.
    + unfold loop_measure. simpl in *. lia.
    + done.
  - split_and!; simpl.
    + split; [done|]. simpl. intros t' Ht'. rewrite dict_get_set.
      case_decide; [done|by apply Hkeys].
    + unfold loop_measure. simpl.
      pose proof (bucket_total_set _ _ _ bucket Hb) as H. simpl in H. lia.
    + by apply prefix_app_r.
Qed.

Lemma round_robin_returns (fuel : nat) (num_questions : Z) (s : LoopState) :
  loop_ok s → (loop_measure s < fuel)%nat →
  ∃ r, round_robin fuel num_questions s = Returned r ∧ selected s `prefix_of` r.
Proof.
  revert s. induction fuel as [|fuel IH]; intros s Hok Hm; [lia|].
  simpl. destruct (_ <? _); [|by eexists].
  pose proof (round_robin_step_spec s Hok) as Hstep.
  destruct (round_robin_step s) as [s'|s'|e]; [| |done].
  - destruct Hstep as (Hok' & Hlt & Hpre).
    destruct (IH s' Hok' ltac:(lia)) as (r & -> & Hr).
    exists r. split; [done|]. by etrans.
  - exists (selected s'). by rewrite Hstep.
Qed.

(** The first pass over the rotation: while the tags from position
    [tag_index] on still have their bucket untouched and the tags before it
    are already represented in [selected], a count of at least the number
    of tags makes the result represent every tag. *)
Lemma round_robin_first_pass (fuel : nat) (num_questions : Z) (s : LoopState) :
  loop_ok s → (loop_measure s < fuel)%nat →
  NoDup (tag_list s) →
  (tag_index s ≤ length (tag_list s))%nat →
  length (selected s) = tag_index s →
  Z.of_nat (length (tag_list s)) ≤ num_questions →
  (∀ i t, (i < tag_index s)%nat → tag_list s !! i = Some t →
          ∃ q, q ∈ selected s ∧ q_tag q = t) →
  (∀ i t, (tag_index s ≤ i)%nat → tag_list s !! i = Some t →
          ∃ q b, dict_get (questions_by_tag s) t = Some (q :: b) ∧ q_tag q = t) →
  ∃ r, round_robin fuel num_questions s = Returned r
       ∧ ∀ t, t ∈ tag_list s → ∃ q, q ∈ r ∧ q_tag q = t.
Proof.
  remember (length (tag_list s) - tag_index s)%nat as todo eqn:Htodo.
  revert fuel s Htodo. induction todo as [|todo IH];
    intros fuel s Htodo Hok Hm Hnd Hle Hsel Hnum Hdone Hleft.
  - destruct (round_robin_returns fuel num_questions s Hok Hm) as (r & Hr & Hpre).
    exists r. split; [done|]. intros t [i Hi]%list_elem_of_lookup.
    destruct (Hdone i t) as (q & Hq & Htag); [|done|].
    { apply lookup_lt_Some in Hi. lia. }
    exists q. split; [|done]. destruct Hpre as [k ->]. apply elem_of_app. by left.
  - destruct fuel as [|fuel]; [lia|]. simpl.
    destruct (Z.ltb_spec (Z.of_nat (length (selected s))) num_questions); [|lia].
    pose proof (round_robin_step_spec s Hok) as Hstep.
    unfold round_robin_step in *.
    destruct (length (tag_list s)) as [|n] eqn:Hlen; [done|].
    rewrite Nat.mod_small in * by lia.
    destruct (lookup_lt_is_Some_2 (tag_list s) (tag_index s) ltac:(lia)) as [tag Htag].
    rewrite Htag in *.
    destruct (Hleft _ _ (Nat.le_refl _) Htag) as (q & b & Hb & Hq).
    rewrite Hb in *. destruct Hstep as (Hok' & Hlt & _).
    eapply (IH fuel) in Hok' as (r & Hr & Hall); simpl; try done; try lia.
    + by exists r.
    + rewrite length_app. simpl. lia.
    + intros i t Hi Hit. destruct (decide (i = tag_index s)) as [->|Hne].
      * exists q. rewrite Htag in Hit. simplify_eq. split; [|done].
        apply elem_of_app. right. left.
      * destruct (Hdone i t ltac:(lia) Hit) as (q' & Hq' & Ht').
        exists q'. split; [|done]. apply elem_of_app. by left.
    + intros i t Hi Hit. rewrite dict_get_set, decide_False.
      * apply (Hleft i t); [lia|done].
      * intros ->. pose proof (NoDup_lookup _ _ _ _ Hnd Htag Hit). lia.
Qed.

(** The state in which the loop is entered. *)
Lemma select_setup (questions : list Question) (selected_tags : list string)
    (question_stats : option (gmap Z Stats)) (g : Rng) :
  filtered_pool questions selected_tags ≠ [] →
  ∃ d, group_by_tag [] (filtered_pool questions selected_tags) = Returned d
       ∧ let d' := (order_buckets question_stats d g).1 in
         let s := mkLoop [] (dict_keys d') 0 d' in
         buckets_wf d' ∧ loop_ok s
         ∧ (loop_measure s < enough_fuel questions selected_tags)%nat
         ∧ length (dict_keys d') = length (bucket_tags questions selected_tags)
         ∧ (∀ t, t ∈ dict_keys d' ↔ t ∈ q_tag <$> filtered_pool questions selected_tags).
Proof.
  intros Hne. set (filtered := filtered_pool questions selected_tags) in *.
  destruct (group_by_tag_spec filtered []) as (d & Hd & Hwf & Htot & Hkeys).
  { split; [constructor|]. by intros k b ?%not_elem_of_nil. }
  exists d. split; [done|]. intros d' s.
  pose proof (order_buckets_spec question_stats d g) as HF. fold d' in HF.
  pose proof (permuted_buckets_wf _ _ HF Hwf) as Hwf'.
  pose proof (permuted_buckets_keys _ _ HF) as Hk'.
  pose proof (permuted_buckets_total _ _ HF) as Ht'.
  assert (∀ t, t ∈ dict_keys d' ↔ t ∈ q_tag <$> filtered) as Hkeys'.
  { intros t. rewrite Hk', Hkeys. unfold dict_keys. simpl. rewrite elem_of_nil.
    naive_solver. }
  assert (length (dict_keys d') ≤ length filtered)%nat as Hlen.
  { rewrite <- (length_fmap q_tag filtered). apply submseteq_length.
    apply NoDup_submseteq; [apply Hwf'|]. intros t. apply Hkeys'. }
  split_and!; [done| | | |done].
  - split; simpl.
    + destruct filtered as [|q f] eqn:Hf; [done|].
      intros Hnil. assert (q_tag q ∈ dict_keys d') as Hin.
      { apply Hkeys'. rewrite fmap_cons. left. }
      rewrite Hnil in Hin. by apply not_elem_of_nil in Hin.
    + intros t Ht. by apply dict_get_is_Some.
  - unfold loop_measure, enough_fuel. simpl. fold filtered.
    rewrite Ht', Htot. unfold bucket_total. simpl. lia.
  - apply Permutation_length. apply NoDup_Permutation; [apply Hwf'|apply NoDup_remove_dups|].
    intros t. unfold bucket_tags. fold filtered. by rewrite elem_of_remove_dups.
Qed.

(** C10: [select_balanced_questions] terminates on every input: with at
    least [enough_fuel] iterations allowed the loop is left before the
    bound, without raising (in particular the modulo is never taken with
    an empty tag list), and a result is returned. *)
Theorem select_terminates (questions : list Question) (selected_tags : list string)
    (num_questions : Z) (question_stats : option (gmap Z Stats)) (g : Rng)
    (fuel : nat) :
  (enough_fuel questions selected_tags ≤ fuel)%nat →
  ∃ r g', select_balanced_questions fuel questions selected_tags num_questions
            question_stats g = Returned (r, g').
Proof.
  intros Hfuel. unfold select_balanced_questions.
  fold (filtered_pool questions selected_tags).
  destruct (decide _) as [_|Hne]; [by eexists _, _|].
  destruct (_ <=? _); [destruct (shuffle _ g); by eexists _, _|].
  destruct (select_setup questions selected_tags question_stats g Hne)
    as (d & -> & _ & Hok & Hm & _).
  simpl. destruct (order_buckets question_stats d g) as [d' g1]. simpl in *.
  destruct (round_robin_returns fuel num_questions _ Hok ltac:(lia)) as (r & -> & _).
  simpl. destruct (shuffle r g1). by eexists _, _.
Qed.

(** C3: when the count is below the size of the filtered pool but not
    below the number of tags that have a bucket, the result holds at least
    one question of every active tag that occurs in the filtered pool. *)
Theorem select_covers_every_tag (fuel : nat) (questions : list Question)
    (selected_tags : list string) (num_questions : Z)
    (question_stats : option (gmap Z Stats)) (g : Rng) :
  num_questions < Z.of_nat (length (filtered_pool questions selected_tags)) →
  Z.of_nat (length (bucket_tags questions selected_tags)) ≤ num_questions →
  (enough_fuel questions selected_tags ≤ fuel)%nat →
  ∃ r g', select_balanced_questions fuel questions selected_tags num_questions
            question_stats g = Returned (r, g')
          ∧ ∀ t, t ∈ selected_tags →
                 (∃ q, q ∈ filtered_pool questions selected_tags ∧ q_tag q = t) →
                 ∃ q, q ∈ r ∧ q_tag q = t.
Proof.
  intros Hlt Htags Hfuel. unfold select_balanced_questions.
  fold (filtered_pool questions selected_tags).
  destruct (decide _) as [Hnil|Hne].
  { rewrite Hnil in Hlt. unfold bucket_tags in Htags. rewrite Hnil in Htags.
    simpl in *. lia. }
  destruct (Z.leb_spec (Z.of_nat (length (filtered_pool questions selected_tags)))
              num_questions); [lia|].
  destruct (select_setup questions selected_tags question_stats g Hne)
    as (d & -> & Hwf & Hok & Hm & Hlen & Hkeys).
  simpl. destruct (order_buckets question_stats d g) as [d' g1]. simpl in *.
  destruct (round_robin_first_pass fuel num_questions (mkLoop [] (dict_keys d') 0 d'))
    as (r & -> & Hall); simpl; try done; try lia.
  - apply Hwf.
  - intros i t _ Hi. unfold dict_keys in Hi. rewrite list_lookup_fmap in Hi.
    destruct (d' !! i) as [[k b]|] eqn:Hd; simpl in Hi; [|done].
    injection Hi as <-.
    destruct Hwf as [Hnd Hb]. rewrite (dict_get_lookup d' i k b Hnd Hd).
    destruct (Hb k b) as [Hbne Htag]; [by eapply list_elem_of_lookup_2|].
    destruct b as [|q b]; [done|]. exists q, b. split; [done|]. apply Htag. left.
  - destruct (shuffle r g1) as [r' g'] eqn:Hs. exists r', g'. split; [done|].
    intros t _ (q & Hq & Ht). destruct (Hall t) as (q' & Hq' & Ht').
    { apply Hkeys. apply list_elem_of_fmap. by exists q. }
    exists q'. split; [|done]. change r' with (r', g').1. rewrite <- Hs.
    by rewrite shuffle_perm.
Qed.

Lemma select_returns_whole_pool_witness :
  ∃ r g', select_balanced_questions 11 sample_questions ["bones"; "muscles"] 4 None
            sample_rng = Returned (r, g')
          ∧ r ≡ₚ filtered_pool sample_questions ["bones"; "muscles"].
Proof. apply select_returns_whole_pool. by vm_compute. Defined.

Lemma select_empty_pool_witness :
  select_balanced_questions 11 sample_questions [] 3 None sample_rng
  = Returned ([], sample_rng).
Proof. apply select_empty_pool. by left. Defined.

Lemma select_terminates_witness :
  ∃ r g', select_balanced_questions 11 sample_questions ["bones"; "muscles"; "nerves"] 3
            None sample_rng = Returned (r, g').
Proof. apply select_terminates. vm_compute. lia. Defined.

Lemma select_covers_every_tag_witness :
  ∃ r g', select_balanced_questions 11 sample_questions ["bones"; "muscles"; "nerves"] 3
            None sample_rng = Returned (r, g')
          ∧ ∀ t, t ∈ ["bones"; "muscles"; "nerves"] →
                 (∃ q, q ∈ filtered_pool sample_questions ["bones"; "muscles"; "nerves"]
                       ∧ q_tag q = t) →
                 ∃ q, q ∈ r ∧ q_tag q = t.
Proof.
  apply select_covers_every_tag; [by vm_compute|by vm_compute|vm_compute; lia].
Defined.

(** ** Option shuffling *)

Lemma py_index_elem_of {A} (l : list A) (i : Z) (x : A) :
  py_index l i = Some x → x ∈ l.
Proof.
  unfold py_index. destruct (0 <=? i); [by apply list_elem_of_lookup_2|].
  destruct (_ <=? i); [by apply list_elem_of_lookup_2|done].
Qed.

Lemma py_index_of_nat {A} (l : list A) (k : nat) : py_index l (Z.of_nat k) = l !! k.
Proof.
  unfold py_index. destruct (Z.leb_spec 0 (Z.of_nat k)); [|lia]. by rewrite Nat2Z.id.
Qed.

Lemma py_list_index_elem_of `{EqDecision A} (x : A) (l : list A) :
  x ∈ l → ∃ k, py_list_index x l = Some k ∧ l !! k = Some x.
Proof.
  induction l as [|y l IH]; [by intros ?%not_elem_of_nil|].
  intros Hin. simpl. destruct (decide (y = x)) as [->|Hne]; [by exists 0%nat|].
  apply elem_of_cons in Hin as [->|Hin]; [done|].
  destruct (IH Hin) as (k & -> & Hk). by exists (S k).
Qed.

#[local] Instance same_answer_refl : Reflexive same_answer.
Proof. by intros q. Qed.

#[local] Instance same_answer_trans : Transitive same_answer.
Proof. intros q1 q2 q3 [H1 H2] [H3 H4]. split; [congruence|by etrans]. Qed.

Lemma shuffle_one_spec (r : nat) (store : list Question) (g : Rng) (q : Question) :
  store !! r = Some q → is_Some (correct_option q) →
  ∃ q' g', shuffle_one r (store, g) = Returned (<[r := q']> store, g')
           ∧ same_answer q q'
           ∧ 0 ≤ q_answer_index q' < Z.of_nat (length (q_options q')).
Proof.
  intros Hr [c Hc]. unfold shuffle_one. rewrite Hr. unfold correct_option in Hc.
  rewrite Hc. destruct (shuffle (q_options q) g) as [shuffled g'] eqn:Hs.
  assert (shuffled ≡ₚ q_options q) as Hperm.
  { change shuffled with (shuffled, g').1. rewrite <- Hs. apply shuffle_perm. }
  destruct (py_list_index_elem_of c shuffled) as (k & -> & Hk).
  { rewrite Hperm. by eapply py_index_elem_of. }
  eexists _, g'. split; [done|]. split; [split|]; simpl.
  - unfold correct_option. simpl. by rewrite py_index_of_nat, Hc.
  - done.
  - apply lookup_lt_Some in Hk. lia.
Qed.

Lemma Forall2_same_answer_insert (store store' : list Question) (r : nat) (q q' : Question) :
  Forall2 same_answer store store' → store' !! r = Some q → same_answer q q' →
  Forall2 same_answer store (<[r := q']> store').
Proof.
  intros HF Hr Hqq. apply Forall2_same_length_lookup. split.
  { rewrite length_insert. by eapply Forall2_length. }
  intros i x y Hx Hy. destruct (decide (i = r)) as [->|Hne].
  - rewrite list_lookup_insert_eq in Hy by by eapply lookup_lt_Some.
    simplify_eq. etrans; [|done]. by eapply Forall2_lookup_lr.
  - rewrite list_lookup_insert_ne in Hy by done. by eapply Forall2_lookup_lr.
Qed.

Lemma shuffle_question_options_spec (questions : list nat) (store0 store : list Question)
    (g : Rng) :
  Forall2 same_answer store0 store →
  (∀ r, r ∈ questions → ∃ q, store0 !! r = Some q ∧ is_Some (correct_option q)) →
  ∃ store' g', shuffle_question_options questions (store, g) = Returned (store', g')
               ∧ Forall2 same_answer store0 store'.
Proof.
  revert store g. induction questions as [|r rest IH]; intros store g HF Hvalid;
    cbn [shuffle_question_options].
  { by exists store, g. }
  destruct (Hvalid r) as (q0 & Hq0 & Hsome); [left|].
  destruct (Forall2_lookup_l _ _ _ _ _ HF Hq0) as (q & Hq & [Hans Hopts]).
  destruct (shuffle_one_spec r store g q Hq) as (q' & g' & -> & Hqq & _).
  { by rewrite Hans. }
  cbn [mbind outcome_bind]. apply IH.
  - by eapply Forall2_same_answer_insert.
  - intros r' Hr'. apply Hvalid. by right.
Qed.

(** C5: [shuffle_question_options] runs to the end on every list of
    questions that have a valid [answer_index], and afterwards each of them
    holds, at its new [answer_index], the option string that stood at its
    [answer_index] before, and its options are the same up to order.  The
    list holds references, so one dictionary may occur in it more than
    once. *)
Theorem shuffle_question_options_preserves_answer (questions : list nat)
    (store : list Question) (g : Rng) :
  (∀ r, r ∈ questions → ∃ q, store !! r = Some q ∧ is_Some (correct_option q)) →
  ∃ store' g',
    shuffle_question_options questions (store, g) = Returned (store', g')
    ∧ ∀ r q, r ∈ questions → store !! r = Some q →
        ∃ q', store' !! r = Some q'
              ∧ py_index (q_options q') (q_answer_index q')
                = py_index (q_options q) (q_answer_index q)
              ∧ q_options q' ≡ₚ q_options q.
Proof.
  intros Hvalid.
  destruct (shuffle_question_options_spec questions store store g) as (store' & g' & Hrun & HF);
    [done|done|].
  exists store', g'. split; [done|]. intros r q _ Hq.
  destruct (Forall2_lookup_l _ _ _ _ _ HF Hq) as (q' & Hq' & Hans & Hopts).
  by exists q'.
Qed.

Lemma shuffle_question_options_preserves_answer_witness :
  ∃ store' g',
    shuffle_question_options [0; 2; 0]%nat (sample_questions, sample_rng)
    = Returned (store', g')
    ∧ ∀ r q, r ∈ [0; 2; 0]%nat → sample_questions !! r = Some q →
        ∃ q', store' !! r = Some q'
              ∧ py_index (q_options q') (q_answer_index q')
                = py_index (q_options q) (q_answer_index q)
              ∧ q_options q' ≡ₚ q_options q.
Proof.
  apply shuffle_question_options_preserves_answer.
  intros r Hr. apply elem_of_cons in Hr as [->|Hr]; [by eexists|].
  apply elem_of_cons in Hr as [->|Hr]; [by eexists|].
  apply list_elem_of_singleton in Hr as ->. by eexists.
Defined.

(** ** Free-text answers *)

Lemma rstrip_empty (s : string) : rstrip s = EmptyString ↔ blank s = true.
Proof.
  induction s as [|c s IH]; simpl; [done|].
  destruct (rstrip s) eqn:Hr, (isspace c), (blank s); simpl; naive_solver.
Qed.

Lemma blank_lstrip (s : string) : blank (lstrip s) = blank s.
Proof.
  induction s as [|c s IH]; simpl; [done|].
  destruct (isspace c) eqn:Hc; simpl; [done|]. by rewrite Hc.
Qed.

Lemma strip_empty (s : string) : strip s = EmptyString ↔ blank s = true.
Proof. unfold strip. by rewrite rstrip_empty, blank_lstrip. Qed.

Lemma lower_empty (s : string) : lower s = EmptyString ↔ s = EmptyString.
Proof. by destruct s. Qed.

Lemma free_text_matches_blank (user_text correct_text : string) :
  blank user_text = true →
  free_text_matches user_text correct_text = blank correct_text.
Proof.
  intros Hu. unfold free_text_matches. apply strip_empty in Hu. rewrite Hu. simpl.
  destruct (blank correct_text) eqn:Hc.
  - apply strip_empty in Hc. rewrite Hc. by apply bool_decide_eq_true.
  - apply bool_decide_eq_false. intros Heq. symmetry in Heq.
    apply lower_empty, strip_empty in Heq. congruence.
Qed.

(** C7, the sentence as written fails: an anonymous visitor who starts, at
    the difficult level, a test whose only question has a blank correct
    option and submits the empty string is scored correct: the score goes
    from 0 to 1 and the question is not put among the wrong ones. *)
Lemma empty_text_scored_correct :
  ∃ w w', Quiz.reachable w
          ∧ Quiz.questions (Quiz.keys w) = Some [blank_question]
          ∧ Quiz.score (Quiz.keys w) = Some 0
          ∧ Quiz.interact (Quiz.SubmitText EmptyString) w = Some w'
          ∧ Quiz.score (Quiz.keys w') = Some 1
          ∧ Quiz.wrong_questions (Quiz.keys w') = Some [].
Proof.
  eexists _, _. split_and!.
  - eapply (Quiz.reachable_step (Quiz.StartTest [blank_question] "difficult")).
    + eapply (Quiz.reachable_step (Quiz.CatalogSelect 1)).
      * eapply (Quiz.reachable_start sample_store); [by split|].
        vm_compute. reflexivity.
      * vm_compute. reflexivity.
    + vm_compute. reflexivity.
  - reflexivity.
  - reflexivity.
  - vm_compute. reflexivity.
  - reflexivity.
  - reflexivity.
Qed.

(** C7, amended: at the difficult level, with a question on screen that
    has not been answered, every submitted text is taken: the answer is
    marked as given and the trimmed text is kept.  It is scored correct
    exactly when the trimmed, lower-cased text equals the trimmed,
    lower-cased option at [answer_index]: then the score grows by one, and
    otherwise the question joins the wrong ones.  An empty or blank text is
    scored incorrect whenever that option is not blank. *)
Theorem free_text_scoring (w : Quiz.World) (question : Question) (ci : nat)
    (user_text correct_text : string) (sc : Z) (wq : list Question) :
  Quiz.answered (Quiz.keys w) = Some false →
  Quiz.active_quiz_level (Quiz.keys w) = Some "difficult" →
  py_index (q_options question) (q_answer_index question) = Some correct_text →
  Quiz.score (Quiz.keys w) = Some sc →
  Quiz.wrong_questions (Quiz.keys w) = Some wq →
  ∃ w' again,
    Quiz.quiz_question (Some (Quiz.SubmitText user_text)) w question ci = Some (w', again)
    ∧ Quiz.answered (Quiz.keys w') = Some true
    ∧ Quiz.selected_answer (Quiz.keys w') = Some (Quiz.TypedText (strip user_text))
    ∧ (lower (strip user_text) = lower (strip correct_text) →
       Quiz.score (Quiz.keys w') = Some (sc + 1)
       ∧ Quiz.wrong_questions (Quiz.keys w') = Some wq)
    ∧ (lower (strip user_text) ≠ lower (strip correct_text) →
       Quiz.score (Quiz.keys w') = Some sc
       ∧ Quiz.wrong_questions (Quiz.keys w') = Some (wq ++ [question]))
    ∧ (blank user_text = true → blank correct_text = false →
       Quiz.score (Quiz.keys w') = Some sc
       ∧ Quiz.wrong_questions (Quiz.keys w') = Some (wq ++ [question])).
Proof.
  intros Hans Hlevel Hcorrect Hsc Hwq.
  assert (blank user_text = true → blank correct_text = false →
          lower (strip user_text) ≠ lower (strip correct_text)) as Hblank.
  { intros Hu Hc Heq. pose proof (free_text_matches_blank _ correct_text Hu) as Hm.
    rewrite Hc in Hm. by apply bool_decide_eq_false in Hm. }
  unfold Quiz.quiz_question. rewrite Hans, Hlevel, Hcorrect.
  rewrite bool_decide_eq_true_2 by done.
  unfold Quiz.score_answer, free_text_matches. rewrite Hsc, Hwq.
  case_bool_decide as Heq; simpl;
    repeat (match goal with |- context [if ?b then _ else _] => destruct b end;
            try match goal with |- context [match ?x with Some _ => _ | None => _ end] =>
                  destruct x end);
    eexists _, _; (split; [reflexivity|]); simpl; naive_solver.
Qed.

Lemma free_text_scoring_witness :
  ∃ w' again,
    Quiz.quiz_question (Some (Quiz.SubmitText "  Beta ")) (difficult_world (sample_question 2 "muscles" 1))
      (sample_question 2 "muscles" 1) 0 = Some (w', again)
    ∧ Quiz.answered (Quiz.keys w') = Some true
    ∧ Quiz.selected_answer (Quiz.keys w') = Some (Quiz.TypedText (strip "  Beta "))
    ∧ (lower (strip "  Beta ") = lower (strip "beta") →
       Quiz.score (Quiz.keys w') = Some (0 + 1)
       ∧ Quiz.wrong_questions (Quiz.keys w') = Some [])
    ∧ (lower (strip "  Beta ") ≠ lower (strip "beta") →
       Quiz.score (Quiz.keys w') = Some 0
       ∧ Quiz.wrong_questions (Quiz.keys w') = Some ([] ++ [sample_question 2 "muscles" 1]))
    ∧ (blank "  Beta " = true → blank "beta" = false →
       Quiz.score (Quiz.keys w') = Some 0
       ∧ Quiz.wrong_questions (Quiz.keys w') = Some ([] ++ [sample_question 2 "muscles" 1])).
Proof.
  apply (free_text_scoring (difficult_world (sample_question 2 "muscles" 1))
           (sample_question 2 "muscles" 1) 0 "  Beta " "beta" 0 []); reflexivity.
Defined.

(** ** The catalogue of tests *)

Lemma elem_of_List_filter {A} (f : A → bool) (l : list A) (x : A) :
  x ∈ List.filter f l ↔ x ∈ l ∧ f x = true.
Proof. by rewrite !list_elem_of_In, filter_In. Qed.

Lemma elem_of_left_join {L R} (on : L → R → bool) (ls : list L) (rs : list R)
    (l : L) (o : option R) :
  (l, o) ∈ left_join on ls rs ↔
  l ∈ ls ∧ match o with
           | Some r => r ∈ rs ∧ on l r = true
           | None => ∀ r, r ∈ rs → on l r = false
           end.
Proof.
  unfold left_join. rewrite list_elem_of_bind. split.
  - intros (l' & Hin & Hl'). destruct (List.filter (on l') rs) as [|m ms] eqn:Hf.
    + apply list_elem_of_singleton in Hin. inversion Hin. subst l' o. split; [done|].
      intros r Hr. destruct (on l r) eqn:Hon; [|done].
      assert (r ∈ List.filter (on l) rs) as Hin' by by apply elem_of_List_filter.
      rewrite Hf in Hin'. by apply not_elem_of_nil in Hin'.
    + apply list_elem_of_fmap in Hin as (r & Heq & Hr). inversion Heq. subst l' o.
      split; [done|].
      rewrite <- Hf in Hr. by apply elem_of_List_filter in Hr.
  - intros [Hl Ho]. exists l. split; [|done].
    destruct (List.filter (on l) rs) as [|m ms] eqn:Hf.
    + destruct o as [r|]; [|left]. destruct Ho as [Hr Hon].
      assert (r ∈ List.filter (on l) rs) as Hin' by by apply elem_of_List_filter.
      rewrite Hf in Hin'. by apply not_elem_of_nil in Hin'.
    + destruct o as [r|].
      * apply list_elem_of_fmap. exists r. split; [done|]. rewrite <- Hf.
        by apply elem_of_List_filter.
      * assert (m ∈ List.filter (on l) rs) as Hin by (rewrite Hf; left).
        apply elem_of_List_filter in Hin as [Hm Hon]. rewrite (Ho m Hm) in Hon. done.
Qed.

Lemma left_join_total {L R} (on : L → R → bool) (ls : list L) (rs : list R) (l : L) :
  l ∈ ls → ∃ o, (l, o) ∈ left_join on ls rs.
Proof.
  intros Hl. destruct (List.filter (on l) rs) as [|m ms] eqn:Hf.
  - exists None. apply elem_of_left_join. split; [done|]. intros r Hr.
    destruct (on l r) eqn:Hon; [|done].
    assert (r ∈ List.filter (on l) rs) as Hin by by apply elem_of_List_filter.
    rewrite Hf in Hin. by apply not_elem_of_nil in Hin.
  - exists (Some m). apply elem_of_left_join. split; [done|].
    apply elem_of_List_filter. rewrite Hf. left.
Qed.

Lemma visibility_listed_spec (visibility : option string) :
  visibility_listed visibility = true ↔
  ∃ v, visibility = Some v ∧ v ∈ ["public"; "private"; "restricted"].
Proof.
  destruct visibility as [v|]; simpl; [|naive_solver].
  rewrite bool_decide_eq_true. naive_solver.
Qed.

Lemma collaborator_matches_spec (db : Database) (uid : Z) (c_user_id : option Z)
    (c_user_email c_status : string) :
  collaborator_matches db uid c_user_id c_user_email c_status = true ↔
  record_of_user db uid c_user_id c_user_email ∧ c_status = "accepted".
Proof.
  unfold collaborator_matches, record_of_user, sql_eq.
  rewrite andb_true_iff, orb_true_iff, bool_decide_eq_true.
  destruct c_user_id as [i|], (username_of db uid) as [u|];
    rewrite ?bool_decide_eq_true; naive_solver.
Qed.

Lemma anonymous_rows_spec (db : Database)
    (row : Z * option Z * string * option string * option string * option Z * nat
           * option string * option string) :
  row ∈ selected_columns db
        <$> List.filter (λ t, visibility_listed (t_visibility t)) (tests db) ↔
  ∃ t, t ∈ tests db ∧ row = selected_columns db t ∧ viewable db None t.
Proof.
  rewrite list_elem_of_fmap. unfold viewable. split.
  - intros (t & -> & Ht). apply elem_of_List_filter in Ht as [Ht Hv].
    apply visibility_listed_spec in Hv. naive_solver.
  - intros (t & Ht & -> & [Hv|(uid & ? & _)]); [|done].
    exists t. split; [done|]. apply elem_of_List_filter. split; [done|].
    by apply visibility_listed_spec.
Qed.

Lemma get_all_tests_spec (db : Database) (user_id : option Z) (info : TestInfo) :
  info ∈ get_all_tests db user_id ↔
  ∃ t, t ∈ tests db ∧ info = row_to_info (selected_columns db t) ∧ viewable db user_id t.
Proof.
  unfold get_all_tests. rewrite list_elem_of_fmap.
  setoid_rewrite stable_sort_perm.
  assert (∀ u, (∀ uid, u = Some uid → uid = 0) →
               (∃ row, info = row_to_info row
                       ∧ row ∈ selected_columns db
                           <$> List.filter (λ t, visibility_listed (t_visibility t)) (tests db))
               ↔ ∃ t, t ∈ tests db ∧ info = row_to_info (selected_columns db t)
                      ∧ viewable db u t) as Hanon.
  { intros u Hu. setoid_rewrite anonymous_rows_spec. unfold viewable. split.
    - intros (row & -> & t & Ht & -> & [Hv|(uid & ? & _)]); [|done].
      exists t. split_and!; [done|done|by left].
    - intros (t & Ht & -> & [Hv|(uid & -> & Hne & _)]).
      + exists (selected_columns db t). split; [done|]. exists t.
        split_and!; [done|done|by left].
      + by specialize (Hu uid eq_refl). }
  destruct user_id as [uid|]; [|by apply Hanon].
  destruct (decide (uid = 0)) as [->|Hne]; [apply Hanon; by intros ? [= <-]|].
  setoid_rewrite elem_of_remove_dups. setoid_rewrite list_elem_of_fmap.
  setoid_rewrite elem_of_List_filter. split.
  - intros (row & -> & [[[t tc] pt] pc] & -> & Hj3 & Hcond).
    apply elem_of_left_join in Hj3 as [Hj2 Hpc].
    apply elem_of_left_join in Hj2 as [Hj1 Hpt].
    apply elem_of_left_join in Hj1 as [Ht Htc].
    exists t. split_and!; [done|done|]. unfold viewable.
    rewrite !orb_true_iff, !bool_decide_eq_true in Hcond.
    destruct Hcond as [[[Hv|Hown]|[tc' ->]]|[pc' ->]].
    + left. by apply visibility_listed_spec.
    + right. exists uid. split_and!; [done|done|]. left.
      unfold sql_eq in Hown. destruct (t_owner_id t); [|done].
      apply bool_decide_eq_true in Hown. by subst.
    + right. exists uid. split_and!; [done|done|]. right; left.
      destruct Htc as [Htc Hon]. apply andb_true_iff in Hon as [Hid Hm].
      apply bool_decide_eq_true in Hid. apply collaborator_matches_spec in Hm as [Hrec Hst].
      by exists tc'.
    + right. exists uid. split_and!; [done|done|]. right; right.
      destruct Hpc as [Hpc Hon]. apply andb_true_iff in Hon as [Hprog Hm].
      apply collaborator_matches_spec in Hm as [Hrec Hst].
      destruct pt as [pt'|]; [|done]. simpl in Hprog.
      apply bool_decide_eq_true in Hprog. destruct Hpt as [Hpt Hid].
      apply bool_decide_eq_true in Hid. exists pt', pc'. split_and!; try done.
  - intros (t & Ht & -> & Hview).
    set (on1 := λ (t : TestRow) tc,
           bool_decide (tc_test_id tc = t_id t)
           && collaborator_matches db uid (tc_user_id tc) (tc_user_email tc) (tc_status tc)).
    set (on2 := λ '((t, _) : TestRow * option TestCollaboratorRow) pt,
           bool_decide (pt_test_id pt = t_id t)).
    set (on3 := λ '((_, _, pt) : TestRow * option TestCollaboratorRow * option ProgramTestRow) pc,
           sql_eq (Some (pc_program_id pc)) (pt_program_id <$> pt)
           && collaborator_matches db uid (pc_user_id pc) (pc_user_email pc) (pc_status pc)).
    set (j1 := left_join on1 (tests db) (test_collaborators db)).
    set (j2 := left_join on2 j1 (program_tests db)).
    set (j3 := left_join on3 j2 (program_collaborators db)).
    assert (∀ tc, (t, tc) ∈ j1 → ∃ pt pc, (t, tc, pt, pc) ∈ j3) as Hany.
    { intros tc Hj1.
      destruct (left_join_total on2 j1 (program_tests db) _ Hj1) as [pt Hj2].
      destruct (left_join_total on3 j2 (program_collaborators db) _ Hj2) as [pc Hj3].
      by exists pt, pc. }
    destruct (left_join_total on1 (tests db) (test_collaborators db) t Ht) as [tc0 Hj1].
    exists (selected_columns db t). split; [done|].
    destruct Hview as [Hv|(uid' & [= <-] & _ & [Hown|[Htc|Hprog]])].
    + destruct (Hany tc0 Hj1) as (pt & pc & Hj3). exists (t, tc0, pt, pc).
      split_and!; [done|done|]. apply visibility_listed_spec in Hv. by rewrite Hv.
    + destruct (Hany tc0 Hj1) as (pt & pc & Hj3). exists (t, tc0, pt, pc).
      split_and!; [done|done|]. rewrite Hown. simpl.
      rewrite bool_decide_eq_true_2 by done. by rewrite orb_true_r.
    + destruct Htc as (tc & Hin & Hid & Hrec & Hst).
      assert ((t, Some tc) ∈ j1) as Hj1'.
      { apply elem_of_left_join. split_and!; [done|done|]. unfold on1.
        rewrite bool_decide_eq_true_2 by done. simpl.
        by apply collaborator_matches_spec. }
      destruct (Hany _ Hj1') as (pt & pc & Hj3). exists (t, Some tc, pt, pc).
      split_and!; [done|done|]. rewrite (bool_decide_eq_true_2 (is_Some (Some tc))) by done.
      by rewrite orb_true_r.
    + destruct Hprog as (pt & pc & Hpt & Hid & Hpc & Hprog & Hrec & Hst).
      exists (t, tc0, Some pt, Some pc). split_and!; [done| |].
      * apply elem_of_left_join. split.
        -- apply elem_of_left_join. split_and!; [done|done|]. unfold on2.
           by apply bool_decide_eq_true.
        -- split; [done|]. unfold on3. simpl. rewrite bool_decide_eq_true_2 by done.
           simpl. by apply collaborator_matches_spec.
      * rewrite (bool_decide_eq_true_2 (is_Some (Some pc))) by done.
        by rewrite orb_true_r.
Qed.

Lemma NoDup_fmap_eq {A B} (f : A → B) (l : list A) (x y : A) :
  NoDup (f <$> l) → x ∈ l → y ∈ l → f x = f y → x = y.
Proof.
  intros Hnd [i Hi]%list_elem_of_lookup [j Hj]%list_elem_of_lookup Hf.
  assert (i = j) as ->; [|congruence].
  apply (NoDup_lookup (f <$> l) i j (f x)); [done| |];
    rewrite list_lookup_fmap; [by rewrite Hi|by rewrite Hj, Hf].
Qed.

(** C6: with [id] the primary key of [tests], a test has an entry in the
    list returned by [get_all_tests] if and only if its visibility is
    public, private or restricted, or the user is logged in and is its
    owner, or holds an accepted collaborator record on it, or holds an
    accepted collaborator record on a program that includes it.  A hidden
    test that meets none of the last three conditions has no entry. *)
Theorem get_all_tests_lists_viewable (db : Database) (user_id : option Z) (t : TestRow) :
  NoDup (t_id <$> tests db) → t ∈ tests db →
  (listed db user_id t ↔ viewable db user_id t)
  ∧ (t_visibility t = Some "hidden" →
     (∀ uid, user_id = Some uid → uid ≠ 0 →
             ¬ (t_owner_id t = Some uid ∨ accepted_test_collaborator db uid t
                ∨ accepted_program_collaborator db uid t)) →
     ¬ listed db user_id t).
Proof.
  intros Hkey Ht.
  assert (listed db user_id t ↔ viewable db user_id t) as Hiff.
  { unfold listed. rewrite get_all_tests_spec. split.
    - intros (t' & Ht' & Heq & Hview).
      assert (t' = t) as ->; [|done].
      apply (NoDup_fmap_eq t_id (tests db)); [done..|].
      unfold row_to_info, selected_columns in Heq. by injection Heq.
    - intros Hview. by exists t. }
  split; [done|]. intros Hhidden Hnone Hlisted. apply Hiff in Hlisted.
  destruct Hlisted as [(v & Hv & Hin)|(uid & -> & Hne & Hacc)].
  - rewrite Hhidden in Hv. injection Hv as <-. set_solver.
  - by apply (Hnone uid).
Qed.

Lemma get_all_tests_lists_viewable_witness :
  (listed sample_db (Some 7) hidden_test ↔ viewable sample_db (Some 7) hidden_test)
  ∧ (t_visibility hidden_test = Some "hidden" →
     (∀ uid, Some 7 = Some uid → uid ≠ 0 →
             ¬ (t_owner_id hidden_test = Some uid
                ∨ accepted_test_collaborator sample_db uid hidden_test
                ∨ accepted_program_collaborator sample_db uid hidden_test)) →
     ¬ listed sample_db (Some 7) hidden_test).
Proof.
  apply get_all_tests_lists_viewable.
  - apply (bool_decide_unpack _). by vm_compute.
  - right. left.
Defined.

(** ** The score of a round is written back once *)

Section QuizFlow.
Import Quiz.

Lemma session_ids_update (s : Store) (sid sc total : Z) :
  session_ids (update_session_score s sid sc total) = sid :: session_ids s.
Proof. done. Qed.

(** A run that leaves the guard flag, the session and the log alone. *)
Lemma inv_same (w : World) (n' : Nav) (k' : Keys) (s' : Store) :
  inv w →
  score_updates s' = score_updates (store w) →
  last_session_id (store w) ≤ last_session_id s' →
  current_session_id k' = current_session_id (keys w) →
  session_score_saved k' = session_score_saved (keys w) →
  (session_score_saved (keys w) = Some true →
   quiz_started k' = quiz_started (keys w) ∧ score k' = score (keys w)
   ∧ questions k' = questions (keys w) ∧ current_index k' = current_index (keys w)) →
  (quiz_started k' = Some true → page_ok n') →
  inv (mkWorld n' k' s').
Proof.
  intros ([Hle Hnd] & (Hcur & Hin & Hflag) & Hpage) Hlog Hlast Hsid Hsaved Hkeep Hpage'.
  unfold inv, store_ok, keys_ok, session_ids in *. simpl.
  rewrite Hlog, Hsid, Hsaved. split_and!; try done.
  - intros sid Hs. specialize (Hle sid Hs). lia.
  - intros sid Hs. specialize (Hcur sid Hs). lia.
  - intros Ht. destruct (Hkeep Ht) as (-> & -> & -> & ->). by apply Hflag.
Qed.

(** A run that starts a round: the flag is not set afterwards and the
    session of the round, if it has one, has not been written to. *)
Lemma inv_new_round (w : World) (n' : Nav) (k' : Keys) (s' : Store) :
  inv w →
  score_updates s' = score_updates (store w) →
  last_session_id (store w) ≤ last_session_id s' →
  (∀ sid, current_session_id k' = Some sid →
          sid ≤ last_session_id s' ∧ sid ∉ session_ids (store w)) →
  session_score_saved k' ≠ Some true →
  (quiz_started k' = Some true → page_ok n') →
  inv (mkWorld n' k' s').
Proof.
  intros ([Hle Hnd] & _ & _) Hlog Hlast Hsid Hsaved Hpage'.
  unfold inv, store_ok, keys_ok, session_ids in *. simpl.
  rewrite Hlog. split_and!; try done.
  - intros sid Hs. specialize (Hle sid Hs). lia.
  - intros sid Hs. by apply Hsid.
  - intros sid Hs Hin. by destruct (Hsid sid Hs).
Qed.

Lemma fresh_session_id (w : World) (sid : Z) :
  inv w → sid = last_session_id (store w) + 1 → sid ∉ session_ids (store w).
Proof. intros ([Hle _] & _) -> Hin. specialize (Hle _ Hin). lia. Qed.

(** While a question is on screen the flag is not set. *)
Lemma flag_unset_in_question (w : World) (qs : list Question) (ci : nat) (q : Question) :
  inv w → questions (keys w) = Some qs → current_index (keys w) = Some ci →
  qs !! ci = Some q → session_score_saved (keys w) ≠ Some true.
Proof.
  intros (_ & (_ & _ & Hflag) & _) Hqs Hci Hq Ht.
  destruct (Hflag Ht) as (_ & sid & sc & qs' & ci' & _ & _ & Hqs' & Hci' & Hlen & _).
  simplify_eq. apply lookup_lt_Some in Hq. lia.
Qed.

(** The flag is not set and the session not written to when no quiz is in
    progress. *)
Lemma flag_unset_outside (w : World) :
  inv w → quiz_started (keys w) ≠ Some true →
  session_score_saved (keys w) ≠ Some true.
Proof. intros (_ & (_ & _ & Hflag) & _) Hq Ht. by destruct (Hflag Ht). Qed.

Lemma completion_effects_inv (w : World) (qs : list Question) (ci : nat) (sc : Z) :
  inv w → quiz_started (keys w) = Some true →
  questions (keys w) = Some qs → current_index (keys w) = Some ci → qs !! ci = None →
  score (keys w) = Some sc →
  inv (completion_effects w qs sc).
Proof.
  intros Hinv Hstarted Hqs Hci Hnone Hsc. unfold completion_effects.
  destruct (_is_logged_in (nav w) && truthy (current_session_id (keys w))
            && negb (default false (session_score_saved (keys w)))) eqn:Hcond.
  - apply andb_true_iff in Hcond as [Hcond Hflag].
    apply andb_true_iff in Hcond as [Hlog Hsid].
    destruct (current_session_id (keys w)) as [sid|] eqn:Hcur; [|done].
    destruct Hinv as ([Hle Hnd] & (Hlast & Hin & _) & Hpage).
    assert (sid ∉ session_ids (store w)) as Hfresh.
    { intros Hmem. rewrite (Hin sid Hcur Hmem) in Hflag. done. }
    unfold inv, store_ok, keys_ok. simpl. rewrite session_ids_update.
    split_and!; try done.
    + intros sid' [Heq|Hmem]%elem_of_cons; [subst sid'; by apply Hlast|by apply Hle].
    + by constructor.
    + intros sid' [= <-]. by apply Hlast.
    + intros _. split; [done|]. exists sid, sc, qs, ci. split_and!; try done.
      * by apply lookup_ge_None.
      * left.
  - eapply inv_same; simpl; try done. apply Hinv.
Qed.

Lemma reset_quiz_inv (w : World) : inv w → inv (reset_quiz w).
Proof.
  intros Hinv. unfold reset_quiz. eapply inv_new_round; simpl; done.
Qed.

Lemma create_session_fresh (w : World) (u tid sc total id : Z) (s : Store) :
  inv w → create_session (store w) u tid sc total = (id, s) →
  score_updates s = score_updates (store w)
  ∧ last_session_id (store w) ≤ last_session_id s
  ∧ id ≤ last_session_id s ∧ id ∉ session_ids (store w).
Proof.
  intros Hinv [= <- <-]. simpl. split_and!; [done|lia|lia|].
  by apply fresh_session_id.
Qed.

Lemma retry_wrong_inv (w w' : World) (reshuffled : list Question) (again : bool) :
  inv w → retry_wrong w reshuffled = Some (w', again) → inv w'.
Proof.
  intros Hinv. unfold retry_wrong, rerun, stay.
  destruct (_is_logged_in (nav w)).
  - destruct (current_test_id (keys w)) as [tid|]; [|by intros [= <- <-]].
    destruct (create_session _ _ _ _ _) as [id s] eqn:Hcs.
    apply (create_session_fresh w) in Hcs as (Hlog & Hlast & Hid & Hfresh); [|done].
    intros [= <- <-]. eapply inv_new_round; simpl; try done.
    + by intros sid [= <-].
    + apply Hinv.
  - intros [= <- <-]. eapply inv_new_round; simpl; try done; try lia; apply Hinv.
Qed.

Lemma completion_effects_same (w : World) (qs : list Question) (sc : Z) :
  nav (completion_effects w qs sc) = nav w
  ∧ quiz_started (keys (completion_effects w qs sc)) = quiz_started (keys w)
  ∧ questions (keys (completion_effects w qs sc)) = questions (keys w)
  ∧ current_index (keys (completion_effects w qs sc)) = current_index (keys w)
  ∧ score (keys (completion_effects w qs sc)) = score (keys w)
  ∧ current_session_id (keys (completion_effects w qs sc)) = current_session_id (keys w).
Proof. unfold completion_effects. by destruct (_ && _). Qed.

Lemma quiz_completed_inv (ev : option Event) (w w' : World) (qs : list Question)
    (ci : nat) (sc : Z) (again : bool) :
  inv w → quiz_started (keys w) = Some true →
  questions (keys w) = Some qs → current_index (keys w) = Some ci → qs !! ci = None →
  score (keys w) = Some sc →
  quiz_completed ev w qs sc = Some (w', again) → inv w'.
Proof.
  intros Hinv Hstarted Hqs Hci Hnone Hsc.
  pose proof (completion_effects_inv w qs ci sc Hinv Hstarted Hqs Hci Hnone Hsc) as Hinv1.
  unfold quiz_completed, rerun, stay. destruct ev as [e|]; [|by intros [= <- <-]].
  destruct (completion_draws _ qs); [|done].
  destruct e; try done.
  - destruct (_ && _); [|done]. by apply retry_wrong_inv.
  - intros [= <- <-]. by apply reset_quiz_inv.
Qed.

Lemma score_answer_inv (w w' : World) (qs : list Question) (ci : nat)
    (question : Question) (given : Answer) (is_correct again : bool) :
  inv w → questions (keys w) = Some qs → current_index (keys w) = Some ci →
  qs !! ci = Some question →
  score_answer w question given is_correct = Some (w', again) → inv w'.
Proof.
  intros Hinv Hqs Hci Hq Hrun.
  pose proof (flag_unset_in_question w qs ci question Hinv Hqs Hci Hq) as Hunset.
  unfold score_answer, rerun, stay in Hrun.
  repeat case_match; simplify_eq/=;
    (eapply inv_same; [exact Hinv|simpl; try done; try lia; try apply Hinv..]).
Qed.

Lemma quiz_question_inv (ev : option Event) (w w' : World) (qs : list Question)
    (ci : nat) (question : Question) (again : bool) :
  inv w → questions (keys w) = Some qs → current_index (keys w) = Some ci →
  qs !! ci = Some question →
  quiz_question ev w question ci = Some (w', again) → inv w'.
Proof.
  intros Hinv Hqs Hci Hq Hrun.
  pose proof (flag_unset_in_question w qs ci question Hinv Hqs Hci Hq) as Hunset.
  unfold quiz_question, rerun, stay in Hrun.
  repeat case_match; simplify_eq/=;
    try (by eapply score_answer_inv);
    try (by apply reset_quiz_inv);
    try done;
    (eapply inv_same; [exact Hinv|simpl; try done; try lia; try apply Hinv..]).
Qed.

Lemma show_quiz_inv (ev : option Event) (w w' : World) (again : bool) :
  inv w → quiz_started (keys w) = Some true →
  show_quiz ev w = Some (w', again) → inv w'.
Proof.
  intros Hinv Hstarted. unfold show_quiz, stay.
  destruct (questions (keys w)) as [qs|] eqn:Hqs;
    [destruct (current_index (keys w)) as [ci|] eqn:Hci|].
  - destruct (qs !! ci) as [question|] eqn:Hq; [by eapply quiz_question_inv|].
    destruct (score (keys w)) as [sc|] eqn:Hsc; [by eapply quiz_completed_inv|].
    destruct ev; [done|]. by intros [= <- <-].
  - destruct ev; [done|]. by intros [= <- <-].
  - destruct ev; [done|]. by intros [= <- <-].
Qed.

(** A started quiz is shown by [show_quiz], unless the profile page is
    open. *)
Lemma dispatch_started (w : World) :
  inv w → quiz_started (keys w) = Some true →
  dispatch w = VQuiz ∨ (dispatch w = VProfile ∧ page (nav w) = Some Perfil).
Proof.
  intros (_ & _ & Hpage) Hstarted. destruct (Hpage Hstarted) as [Hp _].
  unfold dispatch. rewrite Hstarted. simpl.
  destruct (_is_logged_in (nav w)); destruct Hp as [Hp|[Hp|[Hp|Hp]]]; rewrite Hp;
    simpl; auto.
Qed.

Lemma dispatch_quiz (w : World) :
  dispatch w = VQuiz → is_Some (quiz_started (keys w)) → quiz_started (keys w) = Some true.
Proof.
  unfold dispatch. intros Hd [[] Hs]; [done|]. rewrite Hs in Hd. simpl in Hd.
  rewrite !andb_true_r in Hd. repeat case_match; done.
Qed.

Lemma not_started (w : World) :
  inv w → dispatch w ≠ VQuiz → dispatch w ≠ VProfile →
  quiz_started (keys w) ≠ Some true.
Proof. intros Hinv Hq Hp Hs. destruct (dispatch_started w Hinv Hs) as [?|[? _]]; done. Qed.

(** A run that only moves between pages while no quiz is in progress. *)
Lemma inv_navigate (w : World) (n' : Nav) :
  inv w → quiz_started (keys w) ≠ Some true → inv (mkWorld n' (keys w) (store w)).
Proof. intros Hinv Hs. eapply inv_same; try done. Qed.

Lemma open_session_fresh (w : World) (tid total : Z) (session_id : option Z) (s : Store) :
  inv w → open_session w tid total = (session_id, s) →
  score_updates s = score_updates (store w)
  ∧ last_session_id (store w) ≤ last_session_id s
  ∧ ∀ sid, session_id = Some sid → sid ≤ last_session_id s ∧ sid ∉ session_ids (store w).
Proof.
  intros Hinv. unfold open_session. destruct (_is_logged_in (nav w)).
  - destruct (create_session _ _ _ _ _) as [id s'] eqn:Hcs.
    apply (create_session_fresh w) in Hcs as (Hlog & Hlast & Hid & Hfresh); [|done].
    intros [= <- <-]. split_and!; [done|done|]. by intros sid [= <-].
  - intros [= <- <-]. split_and!; [done|lia|done].
Qed.

Lemma page_ok_set_page (p : Page) (n : Nav) :
  p = Tests ∨ p = Dashboard ∨ p = Programas → page_ok (set_page p n).
Proof.
  intros Hp. unfold page_ok, quiz_page. simpl. split; [naive_solver|].
  intros [= ->]. naive_solver.
Qed.

Lemma show_test_config_inv (ev : option Event) (w w' : World) (again : bool) :
  inv w → quiz_started (keys w) ≠ Some true →
  show_test_config ev w = Some (w', again) → inv w'.
Proof.
  intros Hinv Hs Hrun.
  pose proof (flag_unset_outside w Hinv Hs) as Hunset.
  unfold show_test_config, goto, rerun, stay, with_nav in Hrun.
  repeat case_match; simplify_eq/=; try done; try (by apply inv_navigate).
  match goal with H : open_session _ _ _ = _ |- _ =>
    apply open_session_fresh in H as (Hlog & Hlast & Hid); [|done] end.
  eapply inv_new_round; simpl; try done. intros _. by apply page_ok_set_page; left.
Qed.

Lemma show_program_config_inv (ev : option Event) (w w' : World) (again : bool) :
  inv w → quiz_started (keys w) ≠ Some true →
  show_program_config ev w = Some (w', again) → inv w'.
Proof.
  intros Hinv Hs Hrun.
  pose proof (flag_unset_outside w Hinv Hs) as Hunset.
  unfold show_program_config, goto, rerun, stay, with_nav in Hrun.
  repeat case_match; simplify_eq/=; try done; try (by apply inv_navigate).
  match goal with H : open_session _ _ _ = _ |- _ =>
    apply open_session_fresh in H as (Hlog & Hlast & Hid); [|done] end.
  eapply inv_new_round; simpl; try done. intros _. apply page_ok_set_page; auto.
Qed.

Lemma show_dashboard_inv (ev : option Event) (w w' : World) (again : bool) :
  inv w → quiz_started (keys w) ≠ Some true →
  show_dashboard ev w = Some (w', again) → inv w'.
Proof.
  intros Hinv Hs Hrun.
  unfold show_dashboard, goto, rerun, stay, with_nav in Hrun.
  repeat case_match; simplify_eq/=; try done;
    match goal with H : create_session _ _ _ _ _ = _ |- _ =>
      apply (create_session_fresh w) in H as (Hlog & Hlast & Hid & Hfresh); [|done] end;
    (eapply inv_new_round; simpl; try done;
     [by intros sid [= <-]|intros _; apply page_ok_set_page; auto]).
Qed.

Lemma show_profile_inv (ev : option Event) (w w' : World) (again : bool) :
  inv w → page (nav w) = Some Perfil →
  show_profile ev w = Some (w', again) → inv w'.
Proof.
  intros Hinv Hp Hrun. unfold show_profile, goto, rerun, stay in Hrun.
  repeat case_match; simplify_eq/=; try done.
  eapply inv_same; simpl; try done. intros Hs.
  destruct Hinv as (_ & _ & Hpage). destruct (Hpage Hs) as [_ Hprev].
  unfold page_ok, quiz_page in *. simpl.
  destruct (Hprev Hp) as [->|Hq]; simpl; [naive_solver|].
  destruct (prev_page (nav w)) as [q|]; simpl; naive_solver.
Qed.

Lemma navigation_pages_inv (ev : option Event) (w w' : World) (again : bool) :
  inv w → quiz_started (keys w) ≠ Some true →
  show_test_catalog ev w = Some (w', again) ∨ show_create_test ev w = Some (w', again)
  ∨ show_test_editor ev w = Some (w', again) ∨ show_programs ev w = Some (w', again)
  ∨ show_create_program ev w = Some (w', again)
  ∨ show_program_editor ev w = Some (w', again) →
  inv w'.
Proof.
  intros Hinv Hs Hrun.
  unfold show_test_catalog, show_create_test, show_test_editor, show_programs,
    show_create_program, show_program_editor, goto, rerun, stay, with_nav in Hrun.
  destruct Hrun as [Hrun|[Hrun|[Hrun|[Hrun|[Hrun|Hrun]]]]];
    repeat case_match; simplify_eq/=; try done; by apply inv_navigate.
Qed.

Lemma try_login_inv (uid : Z) (w : World) : inv w → inv (_try_login uid w).
Proof.
  intros Hinv. unfold _try_login, with_nav. destruct (truthy _); [done|].
  eapply inv_same; simpl; try done. apply Hinv.
Qed.

Lemma default_page_inv (w : World) : inv w → inv (default_page w).
Proof.
  intros Hinv. unfold default_page, with_nav. destruct (page (nav w)); [done|].
  eapply inv_same; simpl; try done. intros _. apply page_ok_set_page; auto.
Qed.

Lemma default_quiz_started_inv (w : World) : inv w → inv (default_quiz_started w).
Proof.
  intros Hinv. unfold default_quiz_started.
  destruct (quiz_started (keys w)) eqn:Hs; [done|].
  eapply inv_same; simpl; try done.
  intros Ht. destruct (flag_unset_outside w Hinv); [by rewrite Hs|done].
Qed.

Lemma show_view_inv (ev : option Event) (w w' : World) (again : bool) :
  inv w → is_Some (quiz_started (keys w)) →
  show_view ev w = Some (w', again) → inv w'.
Proof.
  intros Hinv Hsome. unfold show_view.
  destruct (dispatch w) eqn:Hd; intros Hrun;
    try (assert (quiz_started (keys w) ≠ Some true) as Hs
           by (apply not_started; [done|by rewrite Hd..]));
    try (by eapply navigation_pages_inv; eauto 10).
  - eapply show_profile_inv; [done| |done].
    unfold dispatch in Hd. repeat case_match; simplify_eq.
    match goal with H : _ && bool_decide (_ = Some Perfil) = true |- _ =>
      apply andb_true_iff in H as [_ H]; by apply bool_decide_eq_true in H end.
  - by eapply show_dashboard_inv.
  - by eapply show_test_config_inv.
  - by eapply show_program_config_inv.
  - eapply show_quiz_inv; [done| |done]. by apply dispatch_quiz.
Qed.

Lemma run_pass_inv (ev : option Event) (w w' : World) (again : bool) :
  inv w → run_pass ev w = Some (w', again) → inv w'.
Proof.
  intros Hinv. unfold run_pass.
  set (w1 := match ev with Some (ProviderLogin uid) => _try_login uid w | _ => w end).
  set (ev1 := match ev with Some (ProviderLogin _) => None | _ => ev end).
  assert (inv w1) as Hinv1.
  { unfold w1. destruct ev as [[]|]; try done. by apply try_login_inv. }
  apply default_page_inv in Hinv1. clearbody w1 ev1. clear Hinv.
  set (w2 := default_page w1) in *. clearbody w2.
  assert (show_view ev1 (default_quiz_started w2) = Some (w', again) → inv w') as Hview.
  { apply show_view_inv; [by apply default_quiz_started_inv|].
    unfold default_quiz_started. by destruct (quiz_started (keys w2)) eqn:Hs; simpl;
      rewrite ?Hs. }
  destruct ev1 as [e|]; [|done]. destruct e; try done.
  - (* the profile entry of the user menu *)
    destruct (_is_logged_in (nav w2)); [|done]. unfold goto, rerun, with_nav.
    intros [= <- <-]. eapply inv_same; simpl; try done. intros Hs.
    destruct Hinv1 as (_ & _ & Hpage). destruct (Hpage Hs) as [Hq _].
    split; simpl; [unfold quiz_page; auto|]. by right.
  - (* logging out *)
    destruct (_is_logged_in (nav w2)); [|done]. unfold rerun.
    intros [= <- <-]. eapply inv_new_round; simpl; done.
  - (* the navigation buttons of the side bar *)
    destruct (_ || _) eqn:Hp; [|done]. unfold goto, rerun. intros [= <- <-].
    eapply inv_same; simpl; try done. intros _. apply page_ok_set_page.
    rewrite !orb_true_iff, !andb_true_iff, !orb_true_iff, !bool_decide_eq_true in Hp.
    naive_solver.
Qed.

Lemma settle_inv (fuel : nat) (w w' : World) :
  inv w → settle fuel w = Some w' → inv w'.
Proof.
  revert w. induction fuel as [|fuel IH]; intros w Hinv; simpl; [done|].
  destruct (run_pass None w) as [[w1 []]|] eqn:Hrun; [|intros [= <-]|done].
  - apply IH. by eapply run_pass_inv.
  - by eapply run_pass_inv.
Qed.

Lemma interact_inv (ev : Event) (w w' : World) :
  inv w → interact ev w = Some w' → inv w'.
Proof.
  intros Hinv. unfold interact.
  destruct (run_pass (Some ev) w) as [[w1 []]|] eqn:Hrun; [|intros [= <-]|done].
  - apply settle_inv. by eapply run_pass_inv.
  - by eapply run_pass_inv.
Qed.

Lemma reachable_inv (w : World) : reachable w → inv w.
Proof.
  induction 1 as [s w [Hlast Hlog] Hsettle|ev w w' _ IH Hstep].
  - eapply settle_inv; [|done]. unfold inv, store_ok, keys_ok, session_ids. simpl.
    rewrite Hlog. simpl. split_and!; try done.
    + by intros sid ?%not_elem_of_nil.
    + constructor.
  - by eapply interact_inv.
Qed.

(** *** What a run leaves on screen *)

Lemma settled_other_view (w : World) :
  is_Some (page (nav w)) → is_Some (quiz_started (keys w)) → dispatch w ≠ VQuiz →
  settled w.
Proof. intros Hp Hs Hd. split_and!; [done..|]. by intros sid sc total [? _]. Qed.

Lemma settled_question (w : World) (qs : list Question) (ci : nat) (q : Question) :
  is_Some (page (nav w)) → is_Some (quiz_started (keys w)) →
  questions (keys w) = Some qs → current_index (keys w) = Some ci → qs !! ci = Some q →
  settled w.
Proof.
  intros Hp Hs Hqs Hci Hq. split_and!; [done..|].
  intros sid sc total (_ & _ & _ & _ & _ & qs' & ci' & Hqs' & Hci' & Hlen & _).
  simplify_eq. apply lookup_lt_Some in Hq. lia.
Qed.

Lemma settled_completion (w : World) (qs : list Question) (sc : Z) :
  is_Some (page (nav w)) → is_Some (quiz_started (keys w)) →
  settled (completion_effects w qs sc).
Proof.
  intros Hp Hs. unfold settled, round_completed, completion_effects.
  destruct (_is_logged_in (nav w) && truthy (current_session_id (keys w))
            && negb (default false (session_score_saved (keys w)))) eqn:Hcond; simpl;
    (split_and!; [done..|]); [done|].
  intros sid sc' total (_ & Hlog & Hsid & Hne & _). rewrite Hlog, Hsid in Hcond.
  simpl in Hcond. destruct (Z.eqb_spec sid 0); [done|]. simpl in Hcond.
  by destruct (session_score_saved (keys w)) as [[]|].
Qed.

Lemma show_quiz_settled (ev : option Event) (w w' : World) :
  is_Some (page (nav w)) → is_Some (quiz_started (keys w)) →
  show_quiz ev w = Some (w', false) → settled w'.
Proof.
  intros Hp Hs. unfold show_quiz, stay.
  destruct (questions (keys w)) as [qs|] eqn:Hqs;
    [destruct (current_index (keys w)) as [ci|] eqn:Hci|].
  - destruct (qs !! ci) as [question|] eqn:Hq.
    + unfold quiz_question, score_answer, reset_quiz, rerun, stay. intros Hrun.
      repeat case_match; simplify_eq/=; by eapply settled_question.
    + destruct (score (keys w)) as [sc|] eqn:Hsc.
      * unfold quiz_completed, retry_wrong, reset_quiz, rerun, stay. intros Hrun.
        repeat case_match; simplify_eq/=; by apply settled_completion.
      * destruct ev; [done|]. intros [= <-]. split_and!; [done..|].
        intros sid sc total (_ & _ & _ & _ & Hsc' & _). congruence.
  - destruct ev; [done|]. intros [= <-]. split_and!; [done..|].
    intros sid sc total (_ & _ & _ & _ & _ & qs' & ci' & _ & Hci' & _). congruence.
  - destruct ev; [done|]. intros [= <-]. split_and!; [done..|].
    intros sid sc total (_ & _ & _ & _ & _ & qs' & ci' & Hqs' & _). congruence.
Qed.

Lemma other_views_stay (ev : option Event) (w w' : World) :
  show_profile ev w = Some (w', false) ∨ show_dashboard ev w = Some (w', false)
  ∨ show_test_config ev w = Some (w', false) ∨ show_program_config ev w = Some (w', false)
  ∨ show_test_catalog ev w = Some (w', false) ∨ show_create_test ev w = Some (w', false)
  ∨ show_test_editor ev w = Some (w', false) ∨ show_programs ev w = Some (w', false)
  ∨ show_create_program ev w = Some (w', false)
  ∨ show_program_editor ev w = Some (w', false) →
  w' = w.
Proof.
  unfold show_profile, show_dashboard, show_test_config, show_program_config,
    show_test_catalog, show_create_test, show_test_editor, show_programs,
    show_create_program, show_program_editor, goto, rerun, stay, with_nav.
  intros Hrun. repeat destruct Hrun as [Hrun|Hrun];
    repeat case_match; by simplify_eq/=.
Qed.

Lemma run_pass_settled (ev : option Event) (w w' : World) :
  run_pass ev w = Some (w', false) → settled w'.
Proof.
  unfold run_pass.
  set (w1 := match ev with Some (ProviderLogin uid) => _try_login uid w | _ => w end).
  set (ev1 := match ev with Some (ProviderLogin _) => None | _ => ev end).
  clearbody w1 ev1.
  assert (is_Some (page (nav (default_page w1)))) as Hp.
  { unfold default_page. by destruct (page (nav w1)) eqn:Hp; simpl; rewrite ?Hp. }
  set (w2 := default_page w1) in *. clearbody w2.
  assert (is_Some (page (nav (default_quiz_started w2)))
          ∧ is_Some (quiz_started (keys (default_quiz_started w2)))) as [Hp3 Hs3].
  { unfold default_quiz_started. by destruct (quiz_started (keys w2)) eqn:Hs; simpl;
      rewrite ?Hs. }
  assert (show_view ev1 (default_quiz_started w2) = Some (w', false) → settled w') as Hview.
  { set (w3 := default_quiz_started w2) in *. clearbody w3. unfold show_view.
    destruct (dispatch w3) eqn:Hd; intros Hrun;
      try (by eapply show_quiz_settled);
      (assert (w' = w3) as -> by (eapply other_views_stay; eauto 15));
      apply settled_other_view; try done; by rewrite Hd. }
  destruct ev1 as [e|]; [|done]. unfold goto, rerun.
  destruct e; try done; by repeat case_match.
Qed.

Lemma settle_settled (fuel : nat) (w w' : World) : settle fuel w = Some w' → settled w'.
Proof.
  revert w. induction fuel as [|fuel IH]; intros w; simpl; [done|].
  destruct (run_pass None w) as [[w1 []]|] eqn:Hrun; [by apply IH| |done].
  intros [= <-]. by eapply run_pass_settled.
Qed.

Lemma reachable_settled (w : World) : reachable w → settled w.
Proof.
  destruct 1 as [s w _ Hsettle|ev w w' _ Hstep]; [by eapply settle_settled|].
  unfold interact in Hstep.
  destruct (run_pass (Some ev) w) as [[w1 []]|] eqn:Hrun; [|injection Hstep as <-|done].
  - by eapply settle_settled.
  - by eapply run_pass_settled.
Qed.

(** *** The rounds and the log of score updates *)

Lemma filter_key_absent {A} (f : A → Z) (l : list A) (k : Z) :
  k ∉ f <$> l → List.filter (λ u, bool_decide (f u = k)) l = [].
Proof.
  induction l as [|y l IH]; [done|]. rewrite fmap_cons, not_elem_of_cons.
  intros [Hne Hl]. simpl. rewrite bool_decide_eq_false_2 by done. by apply IH.
Qed.

Lemma filter_key_unique {A} (f : A → Z) (l : list A) (x : A) :
  NoDup (f <$> l) → x ∈ l → List.filter (λ u, bool_decide (f u = f x)) l = [x].
Proof.
  induction l as [|y l IH]; [by intros _ ?%not_elem_of_nil|].
  rewrite fmap_cons, NoDup_cons. intros [Hy Hnd] Hin. simpl.
  apply elem_of_cons in Hin as [->|Hin].
  - rewrite bool_decide_eq_true_2 by done. f_equal. by apply filter_key_absent.
  - rewrite bool_decide_eq_false_2; [by apply IH|].
    intros Heq. apply Hy. rewrite Heq. by apply list_elem_of_fmap_2.
Qed.

Lemma start_flag_unset (ev : Event) (w w' : World) :
  inv w → is_Some (quiz_started (keys w)) → starts_round ev = true →
  show_view (Some ev) w = Some (w', true) →
  default false (session_score_saved (keys w')) = false.
Proof.
  intros Hinv Hsome Hev. unfold show_view.
  destruct (dispatch w) eqn:Hd; intros Hrun;
    try (assert (session_score_saved (keys w) ≠ Some true) as Hunset
           by (apply flag_unset_outside, not_started; [done|done|by rewrite Hd..]));
    unfold show_profile, show_dashboard, show_test_config, show_program_config,
      show_test_catalog, show_create_test, show_test_editor, show_programs,
      show_create_program, show_program_editor, show_quiz, quiz_question,
      quiz_completed, retry_wrong, goto, rerun, stay, with_nav in Hrun;
    destruct ev; try done;
    repeat case_match; simplify_eq/=; try done;
    by destruct (session_score_saved (keys w)) as [[]|].
Qed.

Lemma settled_defaults (w : World) :
  settled w → default_quiz_started (default_page w) = w.
Proof.
  intros ([p Hp] & [b Hb] & _). unfold default_page. rewrite Hp.
  unfold default_quiz_started. by rewrite Hb.
Qed.

Lemma completion_view_rerendered (w w' : World) (sid sc total : Z) (again : bool) :
  settled w → round_completed w sid sc total →
  run_pass None w = Some (w', again) →
  score_updates (store w') = score_updates (store w)
  ∧ test_sessions (store w') = test_sessions (store w).
Proof.
  intros Hset Hdone. pose proof Hset as (_ & _ & Hflag).
  specialize (Hflag _ _ _ Hdone).
  destruct Hdone as (Hd & Hlog & Hsid & Hne & Hsc & qs & ci & Hqs & Hci & Hlen & ->).
  unfold run_pass. rewrite (settled_defaults w Hset). unfold show_view. rewrite Hd.
  unfold show_quiz. rewrite Hqs, Hci, Hsc.
  rewrite (proj2 (lookup_ge_None qs ci)) by done.
  unfold quiz_completed, stay, completion_effects. rewrite Hflag. simpl.
  rewrite !andb_false_r. by intros [= <- <-].
Qed.

Lemma reachable_run_events (evs : list Event) (w w' : World) :
  reachable w → run_events evs w = Some w' → reachable w'.
Proof.
  revert w. induction evs as [|ev evs IH]; intros w Hw; simpl; [by intros [= <-]|].
  destruct (interact ev w) as [w1|] eqn:Hstep; [|done].
  apply IH. by eapply reachable_step.
Qed.

Lemma reachable_session_run (s : Store) (evs : list Event) (w : World) :
  fresh_store s → session_run s evs = Some w → reachable w.
Proof.
  intros Hs. unfold session_run.
  destruct (settle 3 (mkWorld no_nav no_keys s)) as [w0|] eqn:Hw0; [|done].
  apply reachable_run_events. by eapply reachable_start.
Qed.

(** C8: in every state that a browser session can reach, no session id has
    been passed to [update_session_score] twice.  When the screen shows a
    completed round of a logged-in user with session [sid], [sc] right
    answers and [total] questions, the log of calls holds exactly one entry
    for [sid], which is [(sid, sc, total)]; the guard flag is set; and
    drawing the completion view again makes no further call and leaves the
    session rows as they are.  Every handler that starts a round or a quiz
    (from the test page, the program page, the dashboard or the retry
    button) leaves the guard flag unset, on a session that has not been
    written to. *)
Theorem score_written_once_per_round (w : World) :
  reachable w →
  NoDup (session_ids (store w))
  ∧ (∀ sid sc total,
       round_completed w sid sc total →
       List.filter (λ u, bool_decide (u.1.1 = sid)) (score_updates (store w))
       = [(sid, sc, total)]
       ∧ session_score_saved (keys w) = Some true
       ∧ ∀ w' again,
           run_pass None w = Some (w', again) →
           score_updates (store w') = score_updates (store w)
           ∧ test_sessions (store w') = test_sessions (store w))
  ∧ (∀ ev w',
       starts_round ev = true → run_pass (Some ev) w = Some (w', true) →
       default false (session_score_saved (keys w')) = false
       ∧ ∀ sid, current_session_id (keys w') = Some sid →
                sid ∉ session_ids (store w')).
Proof.
  intros Hreach.
  pose proof (reachable_inv w Hreach) as Hinv.
  pose proof (reachable_settled w Hreach) as Hset.
  split_and!.
  - apply Hinv.
  - intros sid sc total Hdone.
    destruct Hset as (_ & _ & Hsaved). pose proof (Hsaved _ _ _ Hdone) as Hflag.
    split_and!; [|done|].
    + destruct Hinv as ([_ Hnd] & (_ & _ & Hlog) & _).
      destruct (Hlog Hflag) as (_ & sid' & sc' & qs & ci & Hsid & Hsc & Hqs & _ & _ & Hin).
      destruct Hdone as (_ & _ & Hsid' & _ & Hsc' & qs' & ci' & Hqs' & _ & _ & ->).
      rewrite Hsid in Hsid'. rewrite Hsc in Hsc'. rewrite Hqs in Hqs'.
      injection Hsid' as ->. injection Hsc' as ->. injection Hqs' as ->.
      by apply (filter_key_unique (λ u : Z * Z * Z, u.1.1) _
                  (sid, sc, Z.of_nat (length qs'))).
    + intros w' again. by eapply completion_view_rerendered; [apply reachable_settled|..].
  - intros ev w' Hev Hrun.
    assert (default false (session_score_saved (keys w')) = false) as Hflag.
    { assert (show_view (Some ev) w = Some (w', true)) as Hview.
      { rewrite <- (settled_defaults w Hset) at 1. by destruct ev. }
      eapply start_flag_unset; [done| |done|done]. apply Hset. }
    split; [done|]. intros sid Hsid Hin.
    destruct (run_pass_inv _ _ _ _ Hinv Hrun) as (_ & (_ & Hlog & _) & _).
    rewrite (Hlog sid Hsid Hin) in Hflag. done.
Qed.

Lemma score_written_once_per_round_witness :
  round_completed completed_world 1 1 1
  ∧ score_updates (store completed_world) = [(1, 1, 1)]
  ∧ NoDup (session_ids (store completed_world))
  ∧ (∀ sid sc total,
       round_completed completed_world sid sc total →
       List.filter (λ u, bool_decide (u.1.1 = sid)) (score_updates (store completed_world))
       = [(sid, sc, total)]
       ∧ session_score_saved (keys completed_world) = Some true
       ∧ ∀ w' again,
           run_pass None completed_world = Some (w', again) →
           score_updates (store w') = score_updates (store completed_world)
           ∧ test_sessions (store w') = test_sessions (store completed_world))
  ∧ (∀ ev w',
       starts_round ev = true → run_pass (Some ev) completed_world = Some (w', true) →
       default false (session_score_saved (keys w')) = false
       ∧ ∀ sid, current_session_id (keys w') = Some sid →
                sid ∉ session_ids (store w')).
Proof.
  split; [|split].
  - unfold round_completed. split_and!; try by vm_compute.
    exists [sample_question 1 "bones" 0], 1%nat. split_and!; by vm_compute.
  - by vm_compute.
  - apply score_written_once_per_round.
    apply (reachable_session_run sample_store sample_events); [by split|by vm_compute].
Defined.

End QuizFlow.

(** ** More on the selection of questions *)

Lemma bucket_items_take d k (b1 b : list Question) :
  dict_get d k = Some (b1 ++ b) →
  bucket_items d ≡ₚ b1 ++ bucket_items (dict_set d k b).
Proof.
  unfold bucket_items. induction d as [|[k0 v0] d IH]; simpl; [done|].
  case_decide; intros Hd; simplify_eq/=.
  - by rewrite <- (assoc_L (++)).
  - rewrite (IH Hd). by rewrite !(assoc (++)), (comm (++) v0 b1).
Qed.

Lemma bucket_items_set_new d k (b : list Question) :
  dict_get d k = None → bucket_items (dict_set d k b) ≡ₚ bucket_items d ++ b.
Proof.
  unfold bucket_items. induction d as [|[k0 v0] d IH]; simpl.
  - intros _. by rewrite app_nil_r.
  - case_decide; intros Hd; simplify_eq/=. by rewrite (IH Hd), (assoc (++)).
Qed.

Lemma bucket_items_empty d : (∀ k b, (k, b) ∈ d → b = []) → bucket_items d = [].
Proof.
  unfold bucket_items. induction d as [|[k0 v0] d IH]; simpl; [done|].
  intros Hall. rewrite (Hall k0 v0) by left. simpl. apply IH.
  intros k b Hin. apply (Hall k). by right.
Qed.

Lemma group_by_tag_items filtered d d' :
  group_by_tag d filtered = Returned d' → bucket_items d' ≡ₚ bucket_items d ++ filtered.
Proof.
  revert d. induction filtered as [|q rest IH]; intros d; simpl.
  - intros [= ->]. by rewrite app_nil_r.
  - rewrite group_step_eq. simpl. intros Hrest. rewrite (IH _ Hrest).
    rewrite (cons_middle q (bucket_items d) rest), (assoc (++)). f_equiv.
    destruct (dict_get d (q_tag q)) as [b|] eqn:Hb; simpl.
    + pose proof (bucket_items_take d (q_tag q) b []) as H1.
      rewrite app_nil_r in H1. specialize (H1 Hb).
      pose proof (bucket_items_take (dict_set d (q_tag q) (b ++ [q])) (q_tag q)
                    (b ++ [q]) []) as H2.
      rewrite app_nil_r, dict_get_set, decide_True, dict_set_set in H2 by done.
      rewrite (H2 eq_refl), H1, <- !(assoc (++)). f_equiv. apply (comm (++)).
    + by apply bucket_items_set_new.
Qed.

Lemma permuted_buckets_items (d d' : list (string * list Question)) :
  Forall2 (λ kb kb', kb.1 = kb'.1 ∧ kb'.2 ≡ₚ kb.2) d d' →
  bucket_items d' ≡ₚ bucket_items d.
Proof.
  unfold bucket_items. induction 1 as [|[k b] [k' b'] d d' [_ Hb] _ IH]; [done|].
  simpl in *. by rewrite IH, Hb.
Qed.

Lemma dict_get_of_elem {V} (d : list (string * V)) k v :
  NoDup (dict_keys d) → (k, v) ∈ d → dict_get d k = Some v.
Proof.
  intros Hnd [i Hi]%list_elem_of_lookup. by eapply dict_get_lookup.
Qed.

Lemma py_list_remove_keeps `{EqDecision A} (x y : A) (l l' : list A) :
  py_list_remove x l = Some l' → y ∈ l → y ≠ x → y ∈ l'.
Proof.
  revert l'. induction l as [|z l IH]; intros l'; simpl; [done|].
  case_decide; subst.
  - intros [= ->] [->|Hy]%elem_of_cons Hne; done.
  - destruct (py_list_remove x l) as [l0|]; [|done]. simpl. intros [= <-] Hy Hne.
    apply elem_of_cons in Hy as [->|Hy]; [left|right; by apply IH].
Qed.

(** One iteration keeps [loop_inv], takes at most one question and can only
    leave the loop once the whole pool has been taken. *)
Lemma round_robin_step_inv (pool : list Question) (s : LoopState) :
  loop_inv pool s →
  match round_robin_step s with
  | Continue s' =>
      loop_inv pool s' ∧ (loop_measure s' < loop_measure s)%nat
      ∧ (length (selected s') ≤ S (length (selected s)))%nat
  | Break s' => selected s' = selected s ∧ selected s ≡ₚ pool
  | Fail _ => False
  end.
Proof.
  intros (Hok & Hnd & Hperm & Hwf).
  pose proof (round_robin_step_spec s Hok) as Hstep. unfold round_robin_step in *.
  destruct (length (tag_list s)) as [|n] eqn:Hlen; [done|].
  destruct (tag_list s !! (tag_index s mod S n)%nat) as [tag|] eqn:Htag; [|done].
  assert (tag ∈ tag_list s) as Hin by by eapply list_elem_of_lookup_2.
  destruct (dict_get (questions_by_tag s) tag) as [[|q bucket]|] eqn:Hb; [| |done].
  - assert (∀ k b, (k, b) ∈ questions_by_tag s → k = tag → b = []) as Hempty.
    { intros k b Hkb ->. apply (dict_get_of_elem _ _ _ Hnd) in Hkb. congruence. }
    destruct (py_list_remove tag (tag_list s)) as [[|t tl]|] eqn:Hrm; [| |done].
    + split; [done|]. rewrite <- Hperm, bucket_items_empty; [by rewrite app_nil_r|].
      intros k b Hkb. destruct (decide (k = tag)) as [->|Hne]; [by eapply Hempty|].
      apply (Hwf k b Hkb). intros Hk.
      by apply (py_list_remove_keeps _ _ _ _ Hrm Hk), not_elem_of_nil in Hne.
    + destruct Hstep as (Hok' & Hlt & _). split_and!; simpl; try done; [|lia].
      split_and!; simpl; try done. intros k b Hkb. split; [by apply (Hwf k b)|].
      intros Hk. destruct (decide (k = tag)) as [->|Hne]; [by eapply Hempty|].
      apply (Hwf k b Hkb). intros Hk'. apply Hk.
      by apply (py_list_remove_keeps _ _ _ _ Hrm Hk').
  - destruct Hstep as (Hok' & Hlt & _). split_and!; simpl; try done.
    + split_and!; simpl; try done.
      * rewrite dict_keys_set, decide_True; [done|]. apply dict_get_is_Some. by eexists.
      * rewrite <- Hperm, <- (assoc (++)). f_equiv.
        by rewrite (bucket_items_take _ tag [q] bucket Hb).
      * intros k b [Hkb|[-> ->]]%dict_set_elem_of; [by apply Hwf|].
        apply dict_get_elem_of in Hb. destruct (Hwf _ _ Hb) as [Htags _].
        split; [|done]. intros q' Hq'. apply Htags. by right.
    + rewrite length_app. simpl. lia.
Qed.

(** The loop under an invariant [I] that every iteration made under the
    loop condition keeps: it returns the chosen questions of a state that
    satisfies [I], either because the count is reached or because the last
    tag has just left the rotation. *)
Lemma round_robin_invariant (I : LoopState → Prop) (fuel : nat) (num_questions : Z)
    (s : LoopState) :
  (∀ s, I s → Z.of_nat (length (selected s)) < num_questions →
        match round_robin_step s with
        | Continue s' => I s' ∧ (loop_measure s' < loop_measure s)%nat
        | Break s' => selected s' = selected s
        | Fail _ => False
        end) →
  I s → (loop_measure s < fuel)%nat →
  ∃ r s', round_robin fuel num_questions s = Returned r ∧ I s' ∧ r = selected s'
          ∧ (Z.of_nat (length r) < num_questions →
             ∃ s'', round_robin_step s' = Break s'').
Proof.
  intros Hstep. revert s. induction fuel as [|fuel IH]; intros s HI Hm; [lia|].
  simpl. destruct (Z.ltb_spec (Z.of_nat (length (selected s))) num_questions) as [Hlt|Hge].
  - specialize (Hstep s HI Hlt).
    destruct (round_robin_step s) as [s1|s1|e] eqn:Hs; [| |done].
    + destruct Hstep as [HI1 Hm1]. apply IH; [done|lia].
    + exists (selected s1), s. rewrite Hstep. split_and!; try done. by exists s1.
  - exists (selected s), s. split_and!; try done. lia.
Qed.

Lemma select_setup_inv (questions : list Question) (selected_tags : list string)
    (question_stats : option (gmap Z Stats)) (g : Rng) :
  filtered_pool questions selected_tags ≠ [] →
  ∃ d, group_by_tag [] (filtered_pool questions selected_tags) = Returned d
       ∧ let d' := (order_buckets question_stats d g).1 in
         let s := mkLoop [] (dict_keys d') 0 d' in
         loop_inv (filtered_pool questions selected_tags) s
         ∧ (loop_measure s < enough_fuel questions selected_tags)%nat.
Proof.
  intros Hne.
  destruct (select_setup questions selected_tags question_stats g Hne)
    as (d & Hd & Hwf & Hok & Hm & _ & _).
  exists d. split; [done|]. simpl in *. split; [|done].
  split_and!; simpl; [done|apply Hwf| |].
  - rewrite (permuted_buckets_items d) by apply order_buckets_spec.
    by rewrite (group_by_tag_items _ _ _ Hd).
  - intros k b Hkb. destruct Hwf as [Hnd Hb]. destruct (Hb k b Hkb) as [_ Htags].
    split; [done|]. intros Hk. destruct Hk. apply list_elem_of_fmap. by exists (k, b).
Qed.

Lemma round_robin_count (fuel : nat) (num_questions : Z) (pool : list Question)
    (s : LoopState) :
  loop_inv pool s → (loop_measure s < fuel)%nat →
  Z.of_nat (length (selected s)) ≤ Z.max 0 num_questions →
  ∃ r, round_robin fuel num_questions s = Returned r
       ∧ r ⊆+ pool
       ∧ (Z.of_nat (length r) = Z.max 0 num_questions
          ∨ r ≡ₚ pool ∧ Z.of_nat (length pool) < num_questions).
Proof.
  intros Hinv Hm Hlen.
  destruct (round_robin_invariant
              (λ s, loop_inv pool s ∧ Z.of_nat (length (selected s)) ≤ Z.max 0 num_questions)
              fuel num_questions s) as (r & s' & Hr & [Hinv' Hlen'] & -> & Hbreak);
    [|done|done|].
  - intros s0 [Hinv0 Hlen0] Hlt. pose proof (round_robin_step_inv pool s0 Hinv0) as Hstep.
    destruct (round_robin_step s0); [|by destruct Hstep|done].
    destruct Hstep as (? & ? & ?). split_and!; [done|lia|done].
  - exists (selected s'). split; [done|].
    destruct Hinv' as (Hok & Hnd & Hperm & Hwf). split.
    { rewrite <- Hperm. by apply submseteq_inserts_r. }
    destruct (Z.ltb_spec (Z.of_nat (length (selected s'))) num_questions) as [Hlt|Hge];
      [|left; lia].
    right. destruct (Hbreak Hlt) as [s'' Hs''].
    pose proof (round_robin_step_inv pool s' ltac:(by split_and!)) as Hstep.
    rewrite Hs'' in Hstep. destruct Hstep as [_ Hfull]. split; [done|].
    by rewrite <- Hfull.
Qed.

Lemma select_result (fuel : nat) (questions : list Question) (selected_tags : list string)
    (num_questions : Z) (question_stats : option (gmap Z Stats)) (g : Rng) :
  (enough_fuel questions selected_tags ≤ fuel)%nat →
  ∃ r g', select_balanced_questions fuel questions selected_tags num_questions
            question_stats g = Returned (r, g')
          ∧ r ⊆+ filtered_pool questions selected_tags
          ∧ Z.of_nat (length r)
            = Z.min (Z.max 0 num_questions)
                (Z.of_nat (length (filtered_pool questions selected_tags))).
Proof.
  intros Hfuel. unfold select_balanced_questions.
  fold (filtered_pool questions selected_tags).
  set (pool := filtered_pool questions selected_tags) in *.
  destruct (decide (pool = [])) as [->|Hne].
  { eexists _, _. split_and!; [done|done|simpl; lia]. }
  destruct (Z.leb_spec (Z.of_nat (length pool)) num_questions) as [Hle|Hlt].
  { destruct (shuffle pool g) as [r g'] eqn:Hs. exists r, g'.
    assert (r ≡ₚ pool) as Hperm.
    { change r with (r, g').1. rewrite <- Hs. apply shuffle_perm. }
    split_and!; [done|by rewrite Hperm|rewrite Hperm; lia]. }
  unfold pool in *. clear pool.
  destruct (select_setup_inv questions selected_tags question_stats g Hne)
    as (d & -> & Hinv & Hm).
  simpl. destruct (order_buckets question_stats d g) as [d' g1]. simpl in *.
  destruct (round_robin_count fuel num_questions _ _ Hinv ltac:(lia))
    as (r & -> & Hsub & Hlen); [simpl; lia|].
  simpl. destruct (shuffle r g1) as [r' g'] eqn:Hs. exists r', g'.
  assert (r' ≡ₚ r) as Hperm.
  { change r' with (r', g').1. rewrite <- Hs. apply shuffle_perm. }
  split_and!; [done|by rewrite Hperm|]. rewrite Hperm.
  destruct Hlen as [Hlen|[_ Hlen]]; lia.
Qed.

(** The number of questions returned by [select_balanced_questions] is the
    requested count, cut to the size of the tag-filtered pool and to zero
    from below. *)
Theorem select_count (fuel : nat) (questions : list Question)
    (selected_tags : list string) (num_questions : Z)
    (question_stats : option (gmap Z Stats)) (g : Rng) :
  (enough_fuel questions selected_tags ≤ fuel)%nat →
  ∃ r g', select_balanced_questions fuel questions selected_tags num_questions
            question_stats g = Returned (r, g')
          ∧ Z.of_nat (length r)
            = Z.min (Z.max 0 num_questions)
                (Z.of_nat (length (filtered_pool questions selected_tags))).
Proof.
  intros Hfuel.
  destruct (select_result fuel questions selected_tags num_questions question_stats g Hfuel)
    as (r & g' & Hr & _ & Hlen).
  by exists r, g'.
Qed.

Lemma select_count_witness :
  ∃ r g', select_balanced_questions 11 sample_questions ["bones"; "muscles"] 3 None
            sample_rng = Returned (r, g')
          ∧ Z.of_nat (length r)
            = Z.min (Z.max 0 3)
                (Z.of_nat (length (filtered_pool sample_questions ["bones"; "muscles"]))).
Proof. apply select_count. vm_compute. lia. Defined.

(** [select_balanced_questions] returns questions of the bank that carry an
    active tag, each at most as often as the bank holds it: when the bank
    has no repeated question, neither has the result. *)
Theorem select_from_pool (fuel : nat) (questions : list Question)
    (selected_tags : list string) (num_questions : Z)
    (question_stats : option (gmap Z Stats)) (g : Rng) :
  (enough_fuel questions selected_tags ≤ fuel)%nat →
  ∃ r g', select_balanced_questions fuel questions selected_tags num_questions
            question_stats g = Returned (r, g')
          ∧ r ⊆+ questions
          ∧ (∀ q, q ∈ r → q_tag q ∈ selected_tags)
          ∧ (NoDup questions → NoDup r).
Proof.
  intros Hfuel.
  destruct (select_result fuel questions selected_tags num_questions question_stats g Hfuel)
    as (r & g' & Hr & Hsub & _).
  exists r, g'. split; [done|].
  assert (r ⊆+ questions) as Hsub'.
  { etrans; [done|]. apply sublist_submseteq, sublist_filter. }
  split_and!; [done| |].
  - intros q Hq. pose proof (elem_of_submseteq _ _ _ Hq Hsub) as Hin.
    unfold filtered_pool in Hin. by apply list_elem_of_filter in Hin as [? _].
  - intros Hnd. apply submseteq_Permutation in Hsub' as [k Hk].
    rewrite Hk in Hnd. by apply NoDup_app in Hnd as [? _].
Qed.

Lemma select_from_pool_witness :
  ∃ r g', select_balanced_questions 11 sample_questions ["bones"; "muscles"] 3 None
            sample_rng = Returned (r, g')
          ∧ r ⊆+ sample_questions
          ∧ (∀ q, q ∈ r → q_tag q ∈ ["bones"; "muscles"])
          ∧ (NoDup sample_questions → NoDup r).
Proof. apply select_from_pool. vm_compute. lia. Defined.

(** *** Harder questions first *)

Section SortFacts.
Context {A : Type} (after : A → A → bool).
Hypothesis after_asym : ∀ x y, after x y = true → after y x = false.
Hypothesis after_trans : ∀ x y z, after x y = false → after y z = false → after x z = false.

Lemma insert_sorted_sorted (x : A) (l : list A) :
  StronglySorted (λ a b, after a b = false) l →
  StronglySorted (λ a b, after a b = false) (insert_sorted after x l).
Proof.
  induction 1 as [|y l Hl IH Hy]; simpl; [by repeat constructor|].
  destruct (after x y) eqn:Hxy.
  - constructor; [done|]. rewrite insert_sorted_perm. constructor; [by apply after_asym|done].
  - constructor; [by constructor|]. constructor; [done|].
    eapply Forall_impl; [done|]. intros z Hz. by eapply after_trans.
Qed.

Lemma stable_sort_sorted (l : list A) :
  StronglySorted (λ a b, after a b = false) (stable_sort after l).
Proof.
  induction l as [|x l IH]; simpl; [constructor|]. by apply insert_sorted_sorted.
Qed.
End SortFacts.

Lemma StronglySorted_app_elem {A} (R : A → A → Prop) (l1 l2 : list A) (x y : A) :
  StronglySorted R (l1 ++ l2) → x ∈ l1 → y ∈ l2 → R x y.
Proof.
  induction l1 as [|z l1 IH]; simpl; [by intros _ ?%not_elem_of_nil|].
  intros Hs Hx Hy. apply StronglySorted_inv in Hs as [Hs Hz].
  apply elem_of_cons in Hx as [->|Hx]; [|by apply IH].
  rewrite Forall_forall in Hz. apply Hz. apply elem_of_app. by right.
Qed.

Lemma score_ltb_spec (m : gmap Z Stats) (a b : Question) :
  score_ltb m a b = true ↔ (_difficulty_score a m < _difficulty_score b m)%Q.
Proof.
  unfold score_ltb. rewrite negb_true_iff. rewrite <- not_true_iff_false, Qle_bool_iff.
  split; [apply Qnot_le_lt|apply Qlt_not_le].
Qed.

Lemma score_ltb_false (m : gmap Z Stats) (a b : Question) :
  score_ltb m a b = false ↔ (_difficulty_score b m <= _difficulty_score a m)%Q.
Proof.
  unfold score_ltb. rewrite negb_false_iff. apply Qle_bool_iff.
Qed.

Lemma order_buckets_sorted (m : gmap Z Stats) (d : list (string * list Question))
    (g : Rng) (k : string) (b : list Question) :
  m ≠ ∅ → (k, b) ∈ (order_buckets (Some m) d g).1 →
  StronglySorted (λ x y, score_ltb m x y = false) b.
Proof.
  intros Hm. revert g. induction d as [|[k0 b0] d IH]; intros g; simpl.
  { by intros ?%not_elem_of_nil. }
  rewrite decide_False by done.
  specialize (IH g). destruct (order_buckets (Some m) d g) as [rest g2]. simpl in *.
  intros [[= -> ->]|Hin]%elem_of_cons; [|by apply IH].
  apply stable_sort_sorted.
  - intros x y Hxy. apply score_ltb_spec in Hxy. apply score_ltb_false.
    by apply Qlt_le_weak.
  - intros x y z Hxy Hyz. apply score_ltb_false in Hxy, Hyz. apply score_ltb_false.
    by eapply Qle_trans.
Qed.

Lemma elem_of_bucket_items (d : list (string * list Question)) (q : Question) :
  q ∈ bucket_items d ↔ ∃ k b, (k, b) ∈ d ∧ q ∈ b.
Proof.
  unfold bucket_items. induction d as [|[k0 b0] d IH]; simpl.
  - split; [by intros ?%not_elem_of_nil|]. by intros (k & b & ?%not_elem_of_nil & _).
  - rewrite elem_of_app, IH. split.
    + intros [Hq|(k & b & Hkb & Hq)]; [exists k0, b0|exists k, b]; split; try done;
        [left|by right].
    + intros (k & b & [[= -> ->]|Hkb]%elem_of_cons & Hq); [by left|right; eauto].
Qed.

(** The questions taken from a bucket are a front part of the bucket as it
    was when the loop was entered. *)
Lemma round_robin_step_front (pool : list Question) (d0 : list (string * list Question))
    (s : LoopState) :
  loop_inv pool s →
  (∀ k b0, dict_get d0 k = Some b0 →
           ∃ b, dict_get (questions_by_tag s) k = Some b
                ∧ filter (λ q, q_tag q = k) (selected s) ++ b = b0) →
  match round_robin_step s with
  | Continue s' =>
      ∀ k b0, dict_get d0 k = Some b0 →
              ∃ b, dict_get (questions_by_tag s') k = Some b
                   ∧ filter (λ q, q_tag q = k) (selected s') ++ b = b0
  | _ => True
  end.
Proof.
  intros (Hok & Hnd & Hperm & Hwf) Hfront. unfold round_robin_step.
  destruct (length (tag_list s)) as [|n]; [done|].
  destruct (tag_list s !! _) as [tag|]; [|done].
  destruct (dict_get (questions_by_tag s) tag) as [[|q bucket]|] eqn:Hb; [|simpl|done].
  - by destruct (py_list_remove tag (tag_list s)) as [[|t tl]|].
  - intros k b0 Hk. destruct (Hfront k b0 Hk) as (b & Hkb & Hsplit).
    assert (q_tag q = tag) as Hq.
    { apply dict_get_elem_of in Hb. destruct (Hwf _ _ Hb) as [Htags _]. apply Htags. left. }
    rewrite dict_get_set, filter_app, filter_cons, filter_nil.
    destruct (decide (tag = k)) as [->|Hne].
    + rewrite Hb in Hkb. injection Hkb as <-. exists bucket. split; [done|].
      rewrite decide_True by done. by rewrite <- Hsplit, <- (assoc (++)).
    + exists b. split; [done|]. rewrite decide_False by congruence.
      by rewrite app_nil_r.
Qed.



(** *** An even share for every tag *)

Lemma count_tag_app (t : string) (l1 l2 : list Question) :
  count_tag t (l1 ++ l2) = (count_tag t l1 + count_tag t l2)%nat.
Proof. unfold count_tag. by rewrite filter_app, length_app. Qed.

Lemma count_tag_perm (t : string) (l1 l2 : list Question) :
  l1 ≡ₚ l2 → count_tag t l1 = count_tag t l2.
Proof. unfold count_tag. by intros ->. Qed.

Lemma count_tag_own (t : string) (b : list Question) :
  (∀ q, q ∈ b → q_tag q = t) → count_tag t b = length b.
Proof.
  unfold count_tag. induction b as [|q b IH]; [done|]. intros Hb.
  rewrite filter_cons, decide_True by (apply Hb; left). simpl. f_equal.
  apply IH. intros q' Hq'. apply Hb. by right.
Qed.

Lemma count_tag_other (t k : string) (b : list Question) :
  (∀ q, q ∈ b → q_tag q = k) → k ≠ t → count_tag t b = 0%nat.
Proof.
  unfold count_tag. induction b as [|q b IH]; [done|]. intros Hb Hne.
  rewrite filter_cons, decide_False.
  - apply IH; [|done]. intros q' Hq'. apply Hb. by right.
  - rewrite (Hb q) by left. done.
Qed.

Lemma count_tag_items_absent (d : list (string * list Question)) (t : string) :
  t ∉ dict_keys d → (∀ k b, (k, b) ∈ d → ∀ q, q ∈ b → q_tag q = k) →
  count_tag t (bucket_items d) = 0%nat.
Proof.
  unfold bucket_items, dict_keys.
  induction d as [|[k0 b0] d IH]; simpl; [done|].
  rewrite not_elem_of_cons. intros [Hne Hin] Hwf.
  rewrite count_tag_app, (count_tag_other t k0 b0); [|apply (Hwf k0); left|done].
  apply IH; [done|]. intros k b Hkb. apply Hwf. by right.
Qed.

Lemma count_tag_items (d : list (string * list Question)) (t : string) (b : list Question) :
  NoDup (dict_keys d) → (∀ k b, (k, b) ∈ d → ∀ q, q ∈ b → q_tag q = k) →
  dict_get d t = Some b → count_tag t (bucket_items d) = length b.
Proof.
  induction d as [|[k0 b0] d IH]; [done|].
  unfold dict_keys. rewrite fmap_cons, NoDup_cons. simpl. intros [Hk0 Hnd] Hwf Hget.
  assert (∀ k b, (k, b) ∈ d → ∀ q, q ∈ b → q_tag q = k) as Hwf'.
  { intros k b' Hkb. apply Hwf. by right. }
  change (bucket_items ((k0, b0) :: d)) with (b0 ++ bucket_items d).
  rewrite count_tag_app. destruct (decide (k0 = t)) as [Heq|Hne].
  - subst k0. injection Hget as Hget. subst b0.
    rewrite (count_tag_own t b) by (apply (Hwf t); left).
    rewrite (count_tag_items_absent d t); [lia|done|done].
  - rewrite (count_tag_other t k0 b0); [by apply IH|apply (Hwf k0); left|done].
Qed.

Lemma div_mod_succ (n i : nat) :
  (0 < n)%nat →
  (S i mod n = 0 ∧ S i / n = S (i / n) ∧ i mod n = n - 1
   ∨ S i mod n = S (i mod n) ∧ S i / n = i / n ∧ i mod n < n - 1)%nat.
Proof.
  intros Hn. pose proof (Nat.div_mod_eq i n) as Hi.
  pose proof (Nat.mod_upper_bound i n ltac:(lia)) as Hlt.
  destruct (decide (i mod n = n - 1)%nat) as [Heq|Hne].
  - left. assert (S i = n * S (i / n) + 0)%nat as Hs by lia.
    split_and!; [|symmetry|done].
    + symmetry. apply (Nat.mod_unique _ n (S (i / n))); [lia|done].
    + apply (Nat.div_unique _ n _ 0%nat); [lia|done].
  - right. assert (S i = n * (i / n) + S (i mod n))%nat as Hs by lia.
    split_and!; [| |lia].
    + symmetry. apply (Nat.mod_unique _ n (i / n)); [lia|done].
    + symmetry. apply (Nat.div_unique _ n _ (S (i mod n))); [lia|done].
Qed.

(** While no bucket runs out the rotation is never changed, and after
    [i] iterations the tag at position [p] of the rotation has been served
    [i / n] times, and once more when [p < i mod n]. *)
Lemma round_robin_step_share (pool : list Question) (keys : list string) (s : LoopState) :
  loop_inv pool s → NoDup keys → tag_list s = keys →
  (∀ p t, keys !! p = Some t →
          count_tag t (selected s)
          = (tag_index s / length keys
             + if decide (p < tag_index s mod length keys) then 1 else 0)%nat) →
  (∀ t, t ∈ keys → tag_index s < length keys * count_tag t pool)%nat →
  ∃ s', round_robin_step s = Continue s' ∧ tag_list s' = keys
        ∧ tag_index s' = S (tag_index s)
        ∧ length (selected s') = S (length (selected s))
        ∧ ∀ p t, keys !! p = Some t →
                 count_tag t (selected s')
                 = (S (tag_index s) / length keys
                    + if decide (p < S (tag_index s) mod length keys) then 1 else 0)%nat.
Proof.
  intros (Hok & Hnd & Hperm & Hwf) Hkeys Htl Hshare Hroom.
  destruct Hok as [Hne Hbuckets]. unfold round_robin_step. rewrite Htl in *.
  destruct (length keys) as [|n'] eqn:Hlen; [by destruct keys|].
  remember (S n') as n eqn:Hn. remember (tag_index s) as i eqn:Hi.
  pose proof (Nat.mod_upper_bound i n ltac:(lia)) as Hp.
  destruct (lookup_lt_is_Some_2 keys (i mod n)%nat ltac:(lia)) as [tag Htag].
  rewrite Htag.
  assert (tag ∈ keys) as Hin by by eapply list_elem_of_lookup_2.
  destruct (Hbuckets tag Hin) as [b Hb]. rewrite Hb.
  assert (length b = count_tag tag pool - i / n)%nat as Hlenb.
  { rewrite <- (count_tag_perm tag _ _ Hperm), count_tag_app.
    rewrite (count_tag_items _ tag b Hnd); [|intros k b' Hkb; by apply (Hwf k b')|done].
    rewrite (Hshare _ _ Htag), decide_False by lia. lia. }
  assert (i / n < count_tag tag pool)%nat as Hdiv.
  { apply Nat.Div0.div_lt_upper_bound. by apply Hroom. }
  destruct b as [|q bucket]; [simpl in Hlenb; lia|].
  assert (q_tag q = tag) as Hq.
  { apply dict_get_elem_of in Hb. apply (Hwf _ _ Hb). left. }
  eexists. split; [done|]. simpl. split_and!; [done|done|rewrite length_app; simpl; lia|].
  intros p t Hpt. rewrite count_tag_app, (Hshare p t Hpt).
  assert (count_tag t [q] = if decide (p = i mod n) then 1 else 0)%nat as ->.
  { unfold count_tag. rewrite filter_cons, filter_nil, Hq.
    destruct (decide (p = i mod n)%nat) as [->|Hpne].
    - rewrite decide_True; [done|congruence].
    - rewrite decide_False; [done|]. intros ->.
      by pose proof (NoDup_lookup _ _ _ _ Hkeys Htag Hpt). }
  apply lookup_lt_Some in Hpt. rewrite Hlen in Hpt.
  destruct (div_mod_succ n i ltac:(lia)) as [(-> & -> & Hm)|(-> & -> & Hm)];
    repeat case_decide; lia.
Qed.

(** When every tag of the filtered pool has enough questions for an even
    split of the count, [select_balanced_questions] gives every tag the
    count divided by the number of tags, rounded down or up: the shares of
    two tags differ by at most one question. *)
Theorem select_even_share (fuel : nat) (questions : list Question)
    (selected_tags : list string) (num_questions : Z)
    (question_stats : option (gmap Z Stats)) (g : Rng) :
  num_questions < Z.of_nat (length (filtered_pool questions selected_tags)) →
  (∀ t, t ∈ bucket_tags questions selected_tags →
        num_questions
        ≤ Z.of_nat (length (bucket_tags questions selected_tags)
                    * count_tag t (filtered_pool questions selected_tags))) →
  (enough_fuel questions selected_tags ≤ fuel)%nat →
  ∃ r g', select_balanced_questions fuel questions selected_tags num_questions
            question_stats g = Returned (r, g')
          ∧ ∀ t, t ∈ bucket_tags questions selected_tags →
                 (Z.to_nat num_questions / length (bucket_tags questions selected_tags)
                  ≤ count_tag t r
                  ≤ Z.to_nat num_questions / length (bucket_tags questions selected_tags) + 1)%nat.
Proof.
  intros Hlt Hroom Hfuel. unfold select_balanced_questions.
  fold (filtered_pool questions selected_tags).
  destruct (decide (filtered_pool questions selected_tags = [])) as [Hnil|Hne].
  { rewrite Hnil in Hlt. simpl in Hlt.
    eexists _, _. split; [done|]. intros t Ht. unfold bucket_tags in Ht.
    rewrite Hnil in Ht. by apply not_elem_of_nil in Ht. }
  destruct (Z.leb_spec (Z.of_nat (length (filtered_pool questions selected_tags)))
              num_questions); [lia|].
  destruct (select_setup questions selected_tags question_stats g Hne)
    as (d & Hd & Hwf & _ & _ & Hlen & Hkeys).
  destruct (select_setup_inv questions selected_tags question_stats g Hne)
    as (d0 & Hd0 & Hinv & Hm).
  rewrite Hd in Hd0. injection Hd0 as <-. rewrite Hd. simpl.
  destruct (order_buckets question_stats d g) as [d' g1]. simpl in *.
  set (pool := filtered_pool questions selected_tags) in *.
  set (keys := dict_keys d') in *. rewrite <- Hlen in *.
  assert (∀ t, t ∈ bucket_tags questions selected_tags ↔ t ∈ keys) as Htags.
  { intros t. unfold bucket_tags. by rewrite elem_of_remove_dups, Hkeys. }
  set (I := λ s : LoopState,
         loop_inv pool s ∧ tag_list s = keys ∧ length (selected s) = tag_index s
         ∧ Z.of_nat (tag_index s) ≤ Z.max 0 num_questions
         ∧ ∀ p t, keys !! p = Some t →
                  count_tag t (selected s)
                  = (tag_index s / length keys
                     + if decide (p < tag_index s mod length keys) then 1 else 0)%nat).
  assert (∀ s, I s → Z.of_nat (length (selected s)) < num_questions →
               ∃ s', round_robin_step s = Continue s' ∧ I s'
                     ∧ (loop_measure s' < loop_measure s)%nat) as Hstep.
  { intros s (Hinv1 & Htl & Hidx & Hmax & Hshare) Hguard.
    destruct (round_robin_step_share pool keys s Hinv1) as (s' & Hs' & Htl' & Hi' & Hl' & Hsh');
      [apply Hwf|done|done| |].
    { intros t Ht. apply Htags in Ht. specialize (Hroom t Ht). lia. }
    pose proof (round_robin_step_inv pool s Hinv1) as Hs. rewrite Hs' in Hs.
    destruct Hs as (Hinv' & Hlt' & _). exists s'. split; [done|]. split; [|done].
    split_and!; [done|done|lia|lia|]. by rewrite Hi'. }
  destruct (round_robin_invariant I fuel num_questions (mkLoop [] keys 0 d'))
    as (r & s' & Hr & HI & -> & Hbreak).
  - intros s HI Hguard. destruct (Hstep s HI Hguard) as (s' & -> & HI' & Hlt'). done.
  - split_and!; simpl; [done|done|done|lia|]. intros p t Hpt.
    destruct (length keys) eqn:Hk; [by destruct keys|].
    rewrite Nat.Div0.div_0_l, Nat.Div0.mod_0_l. by rewrite decide_False by lia.
  - lia.
  - rewrite Hr. simpl. destruct (shuffle (selected s') g1) as [r' g'] eqn:Hs.
    exists r', g'. split; [done|].
    assert (r' ≡ₚ selected s') as Hperm.
    { change r' with (r', g').1. rewrite <- Hs. apply shuffle_perm. }
    assert (tag_index s' = Z.to_nat num_questions) as Hidx.
    { destruct (Z.ltb_spec (Z.of_nat (length (selected s'))) num_questions) as [Hguard|Hge].
      - destruct (Hbreak Hguard) as [s'' Hs'']. destruct (Hstep s' HI Hguard) as (? & ? & _).
        congruence.
      - destruct HI as (_ & _ & Hi & Hmax & _). lia. }
    destruct HI as (_ & _ & _ & _ & Hshare).
    intros t [p Hp]%Htags%list_elem_of_lookup.
    rewrite (count_tag_perm t _ _ Hperm), (Hshare p t Hp), Hidx. case_decide; lia.
Qed.

Lemma select_even_share_witness :
  ∃ r g', select_balanced_questions 11 sample_questions ["bones"; "muscles"] 3 None
            sample_rng = Returned (r, g')
          ∧ ∀ t, t ∈ bucket_tags sample_questions ["bones"; "muscles"] →
                 (Z.to_nat 3 / length (bucket_tags sample_questions ["bones"; "muscles"])
                  ≤ count_tag t r
                  ≤ Z.to_nat 3 / length (bucket_tags sample_questions ["bones"; "muscles"]) + 1)%nat.
Proof.
  apply select_even_share; [by vm_compute| |vm_compute; lia].
  intros t Ht. vm_compute in Ht.
  apply elem_of_cons in Ht as [->|Ht]; [by vm_compute|].
  apply list_elem_of_singleton in Ht as ->. by vm_compute.
Defined.

(** ** Difficulty from the answer history *)

Lemma sql_sum_count {A} (f : A → bool) (rows : list A) :
  sql_sum (λ r, if f r then 1 else 0) rows = Z.of_nat (length (List.filter f rows)).
Proof.
  unfold sql_sum. induction rows as [|r rows IH]; [done|].
  cbn [fmap list_fmap foldr List.filter]. rewrite IH. destruct (f r); simpl; lia.
Qed.

Lemma sql_sum_count_not {A} (f : A → bool) (rows : list A) :
  sql_sum (λ r, if f r then 0 else 1) rows
  = Z.of_nat (length rows) - Z.of_nat (length (List.filter f rows)).
Proof.
  unfold sql_sum. induction rows as [|r rows IH]; [done|].
  cbn [fmap list_fmap foldr List.filter]. rewrite IH. destruct (f r); simpl; lia.
Qed.

Lemma List_filter_length {A} (f : A → bool) (rows : list A) :
  (length (List.filter f rows) ≤ length rows)%nat.
Proof. induction rows as [|r rows IH]; simpl; [done|]. destruct (f r); simpl; lia. Qed.

Lemma get_question_stats_lookup (history : list HistoryRow) (user_id test_id qid : Z) :
  get_question_stats history user_id test_id !! qid
  = match answers_to history user_id test_id qid with
    | [] => None
    | group =>
        Some (mkStats (Z.of_nat (length (List.filter h_correct group)))
                (Z.of_nat (length group) - Z.of_nat (length (List.filter h_correct group))))
    end.
Proof.
  unfold get_question_stats.
  set (rows := history_rows history user_id test_id).
  set (entry := λ qid : Z, _).
  assert (NoDup (entry <$> remove_dups (h_question_id <$> rows)).*1) as Hnd.
  { rewrite <- list_fmap_compose. unfold entry, compose. simpl.
    rewrite list_fmap_id. apply NoDup_remove_dups. }
  assert (qid ∈ h_question_id <$> rows ↔ answers_to history user_id test_id qid ≠ [])
    as Hgroup.
  { unfold answers_to. fold rows. rewrite list_elem_of_fmap. split.
    - intros (r & -> & Hr) Hnil.
      assert (r ∈ List.filter (λ r0, bool_decide (h_question_id r0 = h_question_id r)) rows)
        as Hin by (apply elem_of_List_filter; by rewrite bool_decide_eq_true).
      rewrite Hnil in Hin. by apply not_elem_of_nil in Hin.
    - destruct (List.filter _ rows) as [|r l] eqn:Hf; [done|]. intros _.
      assert (r ∈ List.filter (λ r0, bool_decide (h_question_id r0 = qid)) rows) as Hin
        by (rewrite Hf; left).
      apply elem_of_List_filter in Hin as [Hin Hq]. apply bool_decide_eq_true in Hq.
      by exists r. }
  destruct (answers_to history user_id test_id qid) as [|r group] eqn:Hans.
  - apply not_elem_of_list_to_map. rewrite <- list_fmap_compose. unfold entry, compose.
    simpl. rewrite list_fmap_id, elem_of_remove_dups, Hgroup. by intros [].
  - apply elem_of_list_to_map; [done|]. apply list_elem_of_fmap. exists qid.
    split; [|by rewrite elem_of_remove_dups, Hgroup].
    unfold entry. rewrite Hans. by rewrite sql_sum_count, sql_sum_count_not.
Qed.

(** The difficulty score that [_difficulty_score] reads off the statistics
    of [get_question_stats] is the fraction of wrong answers among the
    user's recorded answers to the question on that test, and one half for
    a question never answered; it lies between 0 and 1 and the quotient is
    never taken with a zero total. *)
Theorem difficulty_from_history (history : list HistoryRow) (user_id test_id : Z)
    (q : Question) :
  let answers := answers_to history user_id test_id (q_id q) in
  let score := _difficulty_score q (get_question_stats history user_id test_id) in
  (answers = [] → score = (1 # 2)%Q)
  ∧ (answers ≠ [] →
     score = (inject_Z (Z.of_nat (length (List.filter (λ r, negb (h_correct r)) answers)))
              / inject_Z (Z.of_nat (length answers)))%Q)
  ∧ (0 <= score)%Q ∧ (score <= 1)%Q.
Proof.
  intros answers score. unfold score, _difficulty_score.
  rewrite get_question_stats_lookup. fold answers.
  assert (Z.of_nat (length (List.filter (λ r, negb (h_correct r)) answers))
          = Z.of_nat (length answers) - Z.of_nat (length (List.filter h_correct answers)))
    as Hwrong.
  { clear. induction answers as [|r l IH]; simpl; [done|]. destruct (h_correct r); simpl; lia. }
  pose proof (List_filter_length h_correct answers) as Hle.
  destruct answers as [|r group] eqn:Hans.
  - split_and!; [done|done|done|done].
  - cbv zeta. cbn [correct wrong]. rewrite <- Hwrong.
    set (w := Z.of_nat (length (List.filter (λ r0, negb (h_correct r0)) (r :: group)))) in *.
    set (c := Z.of_nat (length (List.filter h_correct (r :: group)))) in *.
    assert (c + w = Z.of_nat (length (r :: group))) as Htotal by lia.
    rewrite Htotal. destruct (Z.eqb_spec (Z.of_nat (length (r :: group))) 0) as [H0|Hpos];
      [simpl in H0; lia|].
    assert (0 <= inject_Z w)%Q as Hw by (unfold Qle; simpl; lia).
    assert (0 < inject_Z (Z.of_nat (length (r :: group))))%Q as Ht
      by (unfold Qlt; simpl; lia).
    split_and!; [done|done| |].
    + apply Qle_shift_div_l; [done|]. by rewrite Qmult_0_l.
    + apply Qle_shift_div_r; [done|]. rewrite Qmult_1_l. unfold Qle. cbn [Qnum Qden inject_Z]. lia.
Qed.

(** ** Free-text answers: spaces around the text and the case of letters *)

Lemma lstrip_app (s r : string) :
  lstrip (s ++ r)%string = if blank s then lstrip r else (lstrip s ++ r)%string.
Proof.
  induction s as [|c s IH]; simpl; [done|]. destruct (isspace c); simpl; [done|done].
Qed.

Lemma rstrip_app_blank (s r : string) :
  blank r = true → rstrip (s ++ r)%string = rstrip s.
Proof.
  intros Hr. induction s as [|c s IH]; simpl; [by apply rstrip_empty|]. by rewrite IH.
Qed.

Lemma blank_app (s r : string) : blank (s ++ r)%string = blank s && blank r.
Proof. induction s as [|c s IH]; simpl; [done|]. by rewrite IH, andb_assoc. Qed.

Lemma strip_padded (l s r : string) :
  blank l = true → blank r = true → strip (l ++ s ++ r)%string = strip s.
Proof.
  intros Hl Hr. unfold strip. rewrite lstrip_app, Hl, lstrip_app.
  destruct (blank s) eqn:Hs.
  - rewrite (proj2 (rstrip_empty (lstrip r))) by by rewrite blank_lstrip.
    symmetry. apply rstrip_empty. by rewrite blank_lstrip.
  - by apply rstrip_app_blank.
Qed.

Lemma lower_char_idemp (c : ascii) : lower_char (lower_char c) = lower_char c.
Proof. destruct c as [[] [] [] [] [] [] [] []]; reflexivity. Qed.

Lemma isspace_lower_char (c : ascii) : isspace (lower_char c) = isspace c.
Proof. destruct c as [[] [] [] [] [] [] [] []]; reflexivity. Qed.

Lemma lower_idemp (s : string) : lower (lower s) = lower s.
Proof. induction s as [|c s IH]; simpl; [done|]. by rewrite lower_char_idemp, IH. Qed.

Lemma lstrip_lower (s : string) : lstrip (lower s) = lower (lstrip s).
Proof.
  induction s as [|c s IH]; simpl; [done|]. rewrite isspace_lower_char.
  by destruct (isspace c).
Qed.

Lemma rstrip_lower (s : string) : rstrip (lower s) = lower (rstrip s).
Proof.
  induction s as [|c s IH]; simpl; [done|]. rewrite IH, isspace_lower_char.
  destruct (rstrip s); simpl; [by destruct (isspace c)|done].
Qed.

Lemma strip_lower (s : string) : strip (lower s) = lower (strip s).
Proof. unfold strip. by rewrite lstrip_lower, rstrip_lower. Qed.

(** The verdict on a free-text answer does not depend on white space typed
    before or after the text, nor on white space around the stored option,
    nor on the case of the letters typed; the verdict is symmetric in the
    two texts, and typing the stored option itself is always right. *)
Theorem free_text_tolerant (user_text correct_text l r : string) :
  blank l = true → blank r = true →
  free_text_matches (l ++ user_text ++ r)%string correct_text
  = free_text_matches user_text correct_text
  ∧ free_text_matches user_text (l ++ correct_text ++ r)%string
    = free_text_matches user_text correct_text
  ∧ free_text_matches (lower user_text) correct_text
    = free_text_matches user_text correct_text
  ∧ free_text_matches correct_text user_text = free_text_matches user_text correct_text
  ∧ free_text_matches correct_text correct_text = true.
Proof.
  intros Hl Hr. unfold free_text_matches.
  rewrite !strip_padded, strip_lower, lower_idemp by done.
  split_and!; try done.
  - apply bool_decide_ext. naive_solver.
  - by apply bool_decide_eq_true.
Qed.

Lemma free_text_tolerant_witness :
  free_text_matches ("  " ++ "Femur" ++ " ")%string "femur"
  = free_text_matches "Femur" "femur"
  ∧ free_text_matches "Femur" ("  " ++ "femur" ++ " ")%string
    = free_text_matches "Femur" "femur"
  ∧ free_text_matches (lower "Femur") "femur" = free_text_matches "Femur" "femur"
  ∧ free_text_matches "femur" "Femur" = free_text_matches "Femur" "femur"
  ∧ free_text_matches "femur" "femur" = true.
Proof. apply free_text_tolerant; reflexivity. Defined.

(** ** More on the quiz flow *)

Section QuizBooks.
Import Quiz.

(** *** A visitor who never logs in *)

Lemma show_view_anonymous (ev : option Event) (w w' : World) (again : bool) :
  _is_logged_in (nav w) = false →
  show_view ev w = Some (w', again) →
  store w' = store w ∧ _is_logged_in (nav w') = false.
Proof.
  intros Hanon Hrun.
  unfold show_view, dispatch, show_profile, show_dashboard, show_test_config,
    show_program_config, show_test_catalog, show_create_test, show_test_editor,
    show_programs, show_create_program, show_program_editor, show_quiz, quiz_question,
    quiz_completed, retry_wrong, score_answer, completion_effects, open_session,
    reset_quiz, goto, rerun, stay, with_nav, _is_logged_in in *.
  rewrite ?Hanon in Hrun. simpl in Hrun.
  repeat case_match; simplify_eq/=; try done; by rewrite ?Hanon.
Qed.

Lemma run_pass_anonymous (ev : option Event) (w w' : World) (again : bool) :
  _is_logged_in (nav w) = false →
  (∀ uid, ev ≠ Some (ProviderLogin uid)) →
  run_pass ev w = Some (w', again) →
  store w' = store w ∧ _is_logged_in (nav w') = false.
Proof.
  intros Hanon Hev. unfold run_pass.
  assert (_is_logged_in (nav (default_quiz_started (default_page w))) = false
          ∧ store (default_quiz_started (default_page w)) = store w) as [Hanon' Hstore].
  { unfold default_quiz_started, default_page, with_nav, _is_logged_in in *.
    by repeat case_match. }
  assert (_is_logged_in (nav (default_page w)) = false) as Hanon''.
  { unfold default_page, with_nav, _is_logged_in in *. by repeat case_match. }
  destruct ev as [e|].
  - destruct e; try (by specialize (Hev uid)); rewrite ?Hanon''; try done;
      try (intros Hrun; apply show_view_anonymous in Hrun as [-> ?]; by try done).
    unfold goto, rerun. destruct (_ || _); [|done]. intros [= <- <-]. simpl.
    split; [|done]. unfold default_page, with_nav. by repeat case_match.
  - intros Hrun. by apply show_view_anonymous in Hrun as [-> ?].
Qed.

Lemma settle_anonymous (fuel : nat) (w w' : World) :
  _is_logged_in (nav w) = false → settle fuel w = Some w' →
  store w' = store w ∧ _is_logged_in (nav w') = false.
Proof.
  revert w. induction fuel as [|fuel IH]; intros w Hanon; simpl; [done|].
  destruct (run_pass None w) as [[w1 []]|] eqn:Hrun; [|intros [= <-]|done].
  - apply run_pass_anonymous in Hrun as [<- Hanon1]; [|done|done]. by apply IH.
  - by apply run_pass_anonymous in Hrun.
Qed.

Lemma run_events_anonymous (evs : list Event) (w w' : World) :
  _is_logged_in (nav w) = false →
  (∀ uid, ProviderLogin uid ∉ evs) →
  run_events evs w = Some w' →
  store w' = store w ∧ _is_logged_in (nav w') = false.
Proof.
  revert w. induction evs as [|ev evs IH]; intros w Hanon Hevs; simpl.
  { by intros [= <-]. }
  destruct (interact ev w) as [w1|] eqn:Hstep; [|done]. intros Hrest.
  assert (store w1 = store w ∧ _is_logged_in (nav w1) = false) as [<- Hanon1].
  { unfold interact in Hstep.
    destruct (run_pass (Some ev) w) as [[w2 []]|] eqn:Hrun; [| |done].
    - apply run_pass_anonymous in Hrun as [<- Hanon2]; [by eapply settle_anonymous|done|].
      intros uid [= ->]. apply (Hevs uid). left.
    - injection Hstep as <-. apply run_pass_anonymous in Hrun; [done|done|].
      intros uid [= ->]. apply (Hevs uid). left. }
  apply IH; [done| |done]. intros uid Hin. apply (Hevs uid). by right.
Qed.

(** A browser session in which the identity provider never reports a
    signed-in user leaves the database as it found it: no session row is
    created, no answer is logged and no score is written, whatever the
    visitor does; and the visitor stays logged out. *)
Theorem anonymous_session_writes_nothing (s : Store) (evs : list Event) (w : World) :
  (∀ uid, ProviderLogin uid ∉ evs) →
  session_run s evs = Some w →
  store w = s ∧ _is_logged_in (nav w) = false.
Proof.
  intros Hevs. unfold session_run.
  destruct (settle 3 (mkWorld no_nav no_keys s)) as [w0|] eqn:Hw0; [|done].
  apply settle_anonymous in Hw0 as [Hs0 Hanon0]; [|done]. intros Hrun.
  apply run_events_anonymous in Hrun as [Hs Hanon]; [|done|done].
  split; [by rewrite Hs|done].
Qed.

Lemma anonymous_session_writes_nothing_witness :
  store anonymous_world = sample_store ∧ _is_logged_in (nav anonymous_world) = false.
Proof.
  apply (anonymous_session_writes_nothing sample_store anonymous_events);
    [|by vm_compute].
  intros uid Hin. unfold anonymous_events in Hin.
  repeat (apply elem_of_cons in Hin as [Hin|Hin]; [done|]).
  by apply not_elem_of_nil in Hin.
Defined.

(** *** The tally of a round *)

Lemma books_ok_fresh (k : Keys) :
  quiz_started k ≠ Some true → books_ok k.
Proof. by intros Hs ?. Qed.

Lemma books_ok_start (quiz_questions : list Question) (test_id : Z)
    (session_id : option Z) (saved : option bool) (level : option string) :
  books_ok (start_keys quiz_questions test_id session_id saved level).
Proof.
  intros _. exists quiz_questions, 0%nat, false, 0, []. simpl.
  split_and!; try done; [lia|set_solver].
Qed.

Lemma score_answer_books (w w' : World) (qs : list Question) (ci : nat)
    (question : Question) (given : Answer) (is_correct again : bool) :
  books_ok (keys w) → questions (keys w) = Some qs → current_index (keys w) = Some ci →
  qs !! ci = Some question → answered (keys w) = Some false →
  score_answer w question given is_correct = Some (w', again) → books_ok (keys w').
Proof.
  intros Hbooks Hqs Hci Hq Ha Hrun Hs.
  pose proof (lookup_lt_Some _ _ _ Hq) as Hlt.
  pose proof (list_elem_of_lookup_2 _ _ _ Hq) as Hin.
  assert (quiz_started (keys w) = Some true) as Hs0.
  { unfold score_answer, rerun, stay in Hrun. by repeat case_match; simplify_eq/=. }
  destruct (Hbooks Hs0) as (qs' & ci' & a & sc & wq & Hqs' & Hci' & Ha' & Hsc & Hwq
                            & Hsum & Hle & Hpos & Hsub).
  simplify_eq. unfold score_answer, rerun, stay in Hrun. rewrite Hsc, Hwq in Hrun.
  repeat case_match; simplify_eq/=;
    eexists _, _, _, _, _; (split_and!; [done..| | | |]); simpl;
    rewrite ?length_app; simpl; try lia; set_solver.
Qed.

Lemma quiz_question_books (ev : option Event) (w w' : World) (qs : list Question)
    (ci : nat) (question : Question) (again : bool) :
  books_ok (keys w) → questions (keys w) = Some qs → current_index (keys w) = Some ci →
  qs !! ci = Some question →
  quiz_question ev w question ci = Some (w', again) → books_ok (keys w').
Proof.
  intros Hbooks Hqs Hci Hq Hrun.
  unfold quiz_question, reset_quiz, rerun, stay in Hrun.
  repeat case_match; simplify_eq/=; try done;
    try (by eapply score_answer_books);
    try (by apply books_ok_fresh).
  all: intros Hs; destruct (Hbooks Hs) as (qs' & ci' & a & sc & wq & Hqs' & Hci' & Ha'
                                           & Hsc & Hwq & Hsum & Hle & Hpos & Hsub).
  all: simplify_eq/=; eexists _, _, _, _, _.
  all: (split_and!; [done..| | | |]); simpl; try done; lia.
Qed.

Lemma quiz_completed_books (ev : option Event) (w w' : World) (qs : list Question)
    (sc : Z) (again : bool) :
  books_ok (keys w) →
  quiz_completed ev w qs sc = Some (w', again) → books_ok (keys w').
Proof.
  intros Hbooks Hrun.
  assert (books_ok (keys (completion_effects w qs sc))) as Hbooks1.
  { unfold completion_effects. by destruct (_ && _). }
  unfold quiz_completed, retry_wrong, reset_quiz, rerun, stay in Hrun.
  repeat case_match; simplify_eq/=; try done; try (by apply books_ok_fresh);
    (intros _; eexists _, 0%nat, false, 0, []; simpl;
     (split_and!; [done..| | | |]); simpl; try done; try lia; set_solver).
Qed.

Lemma show_view_books (ev : option Event) (w w' : World) (again : bool) :
  books_ok (keys w) → show_view ev w = Some (w', again) → books_ok (keys w').
Proof.
  intros Hbooks. unfold show_view.
  destruct (dispatch w); intros Hrun;
    unfold show_profile, show_dashboard, show_test_config, show_program_config,
      show_test_catalog, show_create_test, show_test_editor, show_programs,
      show_create_program, show_program_editor, show_quiz, goto, rerun, stay, with_nav
      in Hrun;
    repeat case_match; simplify_eq/=; try done;
    try (by apply books_ok_start);
    try (by eapply quiz_question_books);
    by eapply quiz_completed_books.
Qed.

Lemma run_pass_books (ev : option Event) (w w' : World) (again : bool) :
  books_ok (keys w) → run_pass ev w = Some (w', again) → books_ok (keys w').
Proof.
  intros Hbooks. unfold run_pass.
  set (w1 := match ev with Some (ProviderLogin uid) => _try_login uid w | _ => w end).
  set (ev1 := match ev with Some (ProviderLogin _) => None | _ => ev end).
  assert (books_ok (keys (default_quiz_started (default_page w1)))
          ∧ keys (default_page w1) = keys w) as [Hbooks3 Hk2].
  { unfold w1, default_quiz_started, default_page, _try_login, with_nav.
    destruct ev as [[]|]; repeat case_match; simpl; try done;
      by apply books_ok_fresh; simpl; congruence. }
  clearbody w1 ev1.
  destruct ev1 as [e|]; [|by apply show_view_books].
  unfold goto, rerun.
  destruct e; try (by apply show_view_books);
    repeat case_match; try done; intros [= <- <-]; simpl; rewrite ?Hk2; done.
Qed.

Lemma settle_books (fuel : nat) (w w' : World) :
  books_ok (keys w) → settle fuel w = Some w' → books_ok (keys w').
Proof.
  revert w. induction fuel as [|fuel IH]; intros w Hbooks; simpl; [done|].
  destruct (run_pass None w) as [[w1 []]|] eqn:Hrun; [|intros [= <-]|done].
  - apply IH. by eapply run_pass_books.
  - by eapply run_pass_books.
Qed.

Lemma reachable_books (w : World) : reachable w → books_ok (keys w).
Proof.
  induction 1 as [s w _ Hsettle|ev w w' _ IH Hstep].
  - eapply settle_books; [|done]. by apply books_ok_fresh.
  - unfold interact in Hstep.
    destruct (run_pass (Some ev) w) as [[w1 []]|] eqn:Hrun; [|injection Hstep as <-|done].
    + eapply settle_books; [|done]. by eapply run_pass_books.
    + by eapply run_pass_books.
Qed.



End QuizBooks.

(** ** Option shuffling: what is left alone, and a bad answer index *)

Lemma shuffle_one_frame (r : nat) (store : list Question) (g : Rng) (q : Question) :
  store !! r = Some q → is_Some (correct_option q) →
  ∃ q' g', shuffle_one r (store, g) = Returned (<[r := q']> store, g')
           ∧ same_question q q'
           ∧ 0 ≤ q_answer_index q' < Z.of_nat (length (q_options q')).
Proof.
  intros Hr [c Hc]. unfold shuffle_one. rewrite Hr. unfold correct_option in Hc.
  rewrite Hc. destruct (shuffle (q_options q) g) as [shuffled g'] eqn:Hs.
  assert (shuffled ≡ₚ q_options q) as Hperm.
  { change shuffled with (shuffled, g').1. rewrite <- Hs. apply shuffle_perm. }
  destruct (py_list_index_elem_of c shuffled) as (k & -> & Hk).
  { rewrite Hperm. by eapply py_index_elem_of. }
  eexists _, g'. split; [done|]. split; [done|]. simpl.
  apply lookup_lt_Some in Hk. lia.
Qed.

Lemma shuffle_question_options_frame_spec (questions : list nat)
    (store0 store : list Question) (g : Rng) (done_refs : list nat) :
  length store = length store0 →
  (∀ r q0, store0 !! r = Some q0 →
           ∃ q, store !! r = Some q ∧ same_question q0 q ∧ correct_option q = correct_option q0
                ∧ (r ∉ done_refs → q = q0)
                ∧ (r ∈ done_refs → 0 ≤ q_answer_index q < Z.of_nat (length (q_options q)))) →
  (∀ r, r ∈ questions → ∃ q, store0 !! r = Some q ∧ is_Some (correct_option q)) →
  ∃ store' g',
    shuffle_question_options questions (store, g) = Returned (store', g')
    ∧ length store' = length store0
    ∧ ∀ r q0, store0 !! r = Some q0 →
        ∃ q, store' !! r = Some q ∧ same_question q0 q
             ∧ (r ∉ done_refs ++ questions → q = q0)
             ∧ (r ∈ done_refs ++ questions →
                0 ≤ q_answer_index q < Z.of_nat (length (q_options q))).
Proof.
  revert store g done_refs.
  induction questions as [|r rest IH]; intros store g done_refs Hlen Hrel Hvalid;
    cbn [shuffle_question_options].
  { exists store, g. split_and!; [done|done|]. intros r q0 Hq0.
    destruct (Hrel r q0 Hq0) as (q & Hq & Hsame & _ & Hkeep & Hrange).
    exists q. rewrite app_nil_r. by split_and!. }
  destruct (Hvalid r) as (q0 & Hq0 & Hsome); [left|].
  destruct (Hrel r q0 Hq0) as (q & Hq & Hsame & Hans & _ & _).
  destruct (shuffle_one_spec r store g q Hq) as (q' & g' & Hone & [Hans' _] & Hrange').
  { by rewrite Hans. }
  destruct (shuffle_one_frame r store g q Hq) as (q'' & g'' & Hone' & Hsame' & _).
  { by rewrite Hans. }
  rewrite Hone in Hone'. injection Hone' as Heq _.
  assert (q'' = q') as ->.
  { apply (f_equal (λ l, l !! r)) in Heq.
    rewrite !list_lookup_insert_eq in Heq by by eapply lookup_lt_Some. congruence. }
  rewrite Hone. cbn [mbind outcome_bind].
  destruct (IH (<[r := q']> store) g' (done_refs ++ [r])) as (store' & g1 & Hrun & Hlen' & Hfin).
  - by rewrite length_insert.
  - intros r1 q1 Hq1. destruct (Hrel r1 q1 Hq1) as (q2 & Hq2 & Hsame2 & Hans2 & Hkeep & Hrange).
    destruct (decide (r1 = r)) as [->|Hne].
    + exists q'. rewrite list_lookup_insert_eq by by eapply lookup_lt_Some.
      simplify_eq. split_and!; [done| |congruence| |done].
      * destruct Hsame as (? & ? & ? & ? & ? & ?), Hsame' as (? & ? & ? & ? & ? & ?).
        unfold same_question. split_and!; congruence.
      * intros Hnot. destruct Hnot. apply elem_of_app. right. left.
    + exists q2. rewrite list_lookup_insert_ne by done. split_and!; try done.
      * intros Hnot. apply Hkeep. intros Hin. apply Hnot, elem_of_app. by left.
      * intros [Hin|Hin%list_elem_of_singleton]%elem_of_app; [by apply Hrange|done].
  - intros r1 Hr1. apply Hvalid. by right.
  - exists store', g1. split_and!; [done|done|]. intros r1 q1 Hq1.
    destruct (Hfin r1 q1 Hq1) as (q2 & ? & ? & Hkeep & Hrange). exists q2.
    rewrite <- (assoc (++)) in Hkeep, Hrange. by split_and!.
Qed.

(** [shuffle_question_options] changes nothing but the keys [options] and
    [answer_index] of the questions it is given: the other keys of every
    dictionary stay as they are, a dictionary that is not in the list is
    not touched at all, and each listed question ends with an
    [answer_index] from 0 up to the number of its options, also when it
    came with a negative one. *)
Theorem shuffle_question_options_frame (questions : list nat) (store : list Question)
    (g : Rng) :
  (∀ r, r ∈ questions → ∃ q, store !! r = Some q ∧ is_Some (correct_option q)) →
  ∃ store' g',
    shuffle_question_options questions (store, g) = Returned (store', g')
    ∧ length store' = length store
    ∧ ∀ r q, store !! r = Some q →
        ∃ q', store' !! r = Some q' ∧ same_question q q'
              ∧ (r ∉ questions → q' = q)
              ∧ (r ∈ questions →
                 0 ≤ q_answer_index q' < Z.of_nat (length (q_options q'))).
Proof.
  intros Hvalid.
  destruct (shuffle_question_options_frame_spec questions store store g [])
    as (store' & g' & Hrun & Hlen & Hfin); [done| |done|].
  - intros r q Hq. exists q. split_and!; try done. by intros ?%not_elem_of_nil.
  - exists store', g'. by split_and!.
Qed.

Lemma shuffle_question_options_frame_witness :
  ∃ store' g',
    shuffle_question_options [0; 2; 0]%nat (sample_questions, sample_rng)
    = Returned (store', g')
    ∧ length store' = length sample_questions
    ∧ ∀ r q, sample_questions !! r = Some q →
        ∃ q', store' !! r = Some q' ∧ same_question q q'
              ∧ (r ∉ [0; 2; 0]%nat → q' = q)
              ∧ (r ∈ [0; 2; 0]%nat →
                 0 ≤ q_answer_index q' < Z.of_nat (length (q_options q'))).
Proof.
  apply shuffle_question_options_frame.
  intros r Hr. apply elem_of_cons in Hr as [->|Hr]; [by eexists|].
  apply elem_of_cons in Hr as [->|Hr]; [by eexists|].
  apply list_elem_of_singleton in Hr as ->. by eexists.
Defined.

(** When a listed question has an [answer_index] outside its options,
    [shuffle_question_options] raises [IndexError]; it returns no list. *)
Theorem shuffle_question_options_bad_index (questions : list nat)
    (store : list Question) (g : Rng) (r : nat) (q : Question) :
  (∀ r, r ∈ questions → is_Some (store !! r)) →
  r ∈ questions → store !! r = Some q → correct_option q = None →
  shuffle_question_options questions (store, g) = Raised IndexError.
Proof.
  revert store g. induction questions as [|r0 rest IH]; intros store g Hrefs Hr Hq Hbad.
  { by apply not_elem_of_nil in Hr. }
  cbn [shuffle_question_options].
  destruct (Hrefs r0) as [q0 Hq0]; [left|].
  destruct (correct_option q0) as [c|] eqn:Hc0; last first.
  { unfold shuffle_one. rewrite Hq0. unfold correct_option in Hc0. by rewrite Hc0. }
  destruct (shuffle_one_spec r0 store g q0 Hq0) as (q0' & g' & -> & [Hans _] & _); [done|].
  cbn [mbind outcome_bind].
  assert (r ≠ r0) as Hne by (intros ->; congruence).
  apply IH.
  - intros r1 Hr1. destruct (Hrefs r1) as [q1 Hq1]; [by right|].
    destruct (decide (r1 = r0)) as [->|Hne1].
    + rewrite list_lookup_insert_eq by by eapply lookup_lt_Some. done.
    + rewrite list_lookup_insert_ne by done. done.
  - by apply elem_of_cons in Hr as [?|?].
  - by rewrite list_lookup_insert_ne.
  - done.
Qed.

Lemma shuffle_question_options_bad_index_witness :
  shuffle_question_options [0; 1]%nat
    ([sample_question 1 "bones" 0; bad_index_question], sample_rng)
  = Raised IndexError.
Proof.
  apply (shuffle_question_options_bad_index _ _ _ 1%nat bad_index_question);
    [|right; left|done|done].
  intros r Hr. apply elem_of_cons in Hr as [->|Hr]; [by eexists|].
  apply list_elem_of_singleton in Hr as ->. by eexists.
Defined.

(** ** Roles and visibility levels that are not in the table *)

(** [_min_role] always returns one of the four roles, the one of lower rank
    under student(0) < guest(1) < reviewer(2) < admin(3); a role that is
    not in the table counts as student, so the result is then student. *)
Theorem min_role_spec (role1 role2 : string) :
  ∃ r, _min_role role1 role2 = Some r ∧ r ∈ roles
       ∧ dict_get role_order r
         = Some (Z.min (default 0 (dict_get role_order role1))
                   (default 0 (dict_get role_order role2)))
       ∧ _min_role role2 role1 = Some r
       ∧ (role1 ∉ roles ∨ role2 ∉ roles → r = "student").
Proof.
  unfold _min_role, roles, role_order. simpl.
  repeat case_decide; subst; simpl; eexists; (split; [reflexivity|]);
    (split; [set_solver|]); (split; [reflexivity|]); (split; [reflexivity|]);
    try done; intros [Hr|Hr]; exfalso; apply Hr; set_solver.
Qed.

(** [get_effective_visibility] never fails: on any two strings it returns
    one of the four levels.  A string that is not a level counts as
    public, the most open one, so it never restricts the other argument;
    the order of the arguments does not matter. *)
Theorem effective_visibility_total (test_visibility program_visibility : string) :
  ∃ v, get_effective_visibility test_visibility program_visibility = Some v
       ∧ v ∈ levels
       ∧ dict_get visibility_order v
         = Some (Z.min (default 3 (dict_get visibility_order test_visibility))
                   (default 3 (dict_get visibility_order program_visibility)))
       ∧ get_effective_visibility program_visibility test_visibility = Some v
       ∧ (test_visibility ∉ levels →
          get_effective_visibility "public" program_visibility = Some v)
       ∧ (test_visibility ∉ levels → program_visibility ∉ levels → v = "public").
Proof.
  unfold get_effective_visibility, levels, visibility_order. simpl.
  repeat case_decide; subst; simpl; eexists; (split; [reflexivity|]);
    (split; [set_solver|]); (split; [reflexivity|]); (split; [reflexivity|]);
    (split; [try done; intros Hr; exfalso; apply Hr; set_solver|]);
    try done; intros Hr ?; exfalso; apply Hr; set_solver.
Qed.

(** ** Direct access, invitations and the catalogue *)

Lemma head_List_filter_elem {A} (f : A → bool) (l : list A) (x : A) :
  head (List.filter f l) = Some x → x ∈ l ∧ f x = true.
Proof.
  intros Hh. apply elem_of_List_filter. destruct (List.filter f l); simplify_eq/=. left.
Qed.

Lemma username_of_spec (db : Database) (uid : Z) (email : string) :
  NoDup (u_id <$> users db) →
  Some email = username_of db uid ↔ ∃ u, u ∈ users db ∧ u_username u = email ∧ u_id u = uid.
Proof.
  intros Hkey. unfold username_of. split.
  - destruct (head _) as [u|] eqn:Hh; [|done]. intros [= ->].
    apply head_List_filter_elem in Hh as [Hu Hid]. apply bool_decide_eq_true in Hid.
    by exists u.
  - intros (u & Hu & <- & <-). by rewrite (filter_key_unique u_id (users db) u).
Qed.

Lemma has_direct_test_access_spec (db : Database) (test_id uid : Z) :
  has_direct_test_access db test_id (Some uid) = true ↔
  uid ≠ 0
  ∧ ∃ tc, tc ∈ test_collaborators db ∧ tc_test_id tc = test_id
          ∧ tc_status tc = "accepted"
          ∧ (tc_user_id tc = Some uid
             ∨ ∃ u, u ∈ users db ∧ u_username u = tc_user_email tc ∧ u_id u = uid).
Proof.
  unfold has_direct_test_access. destruct (decide (uid = 0)) as [->|Hne]; [naive_solver|].
  rewrite bool_decide_eq_true. split.
  - intros Hrows. split; [done|].
    destruct (List.filter _ _) as [|[tc u] rows] eqn:Hf; [done|].
    assert ((tc, u) ∈ List.filter
              (λ '(tc, u), bool_decide (tc_test_id tc = test_id)
                           && (sql_eq (tc_user_id tc) (Some uid)
                               || sql_eq (u_id <$> u) (Some uid))
                           && bool_decide (tc_status tc = "accepted"))
              (left_join (λ tc u, bool_decide (u_username u = tc_user_email tc))
                 (test_collaborators db) (users db))) as Hin by (rewrite Hf; left).
    apply elem_of_List_filter in Hin as [Hj Hcond].
    apply elem_of_left_join in Hj as [Htc Hu].
    rewrite !andb_true_iff, orb_true_iff, !bool_decide_eq_true in Hcond.
    destruct Hcond as [[Hid Hwho] Hst]. exists tc. split_and!; [done..|].
    destruct Hwho as [Hwho|Hwho].
    + left. unfold sql_eq in Hwho. destruct (tc_user_id tc); [|done].
      apply bool_decide_eq_true in Hwho. by subst.
    + right. destruct u as [u|]; [|done]. simpl in Hwho.
      apply bool_decide_eq_true in Hwho. destruct Hu as [Hu Hname].
      apply bool_decide_eq_true in Hname. by exists u.
  - intros (_ & tc & Htc & Hid & Hst & Hwho) Hnil.
    assert (∃ u, (tc, u) ∈ left_join (λ tc u, bool_decide (u_username u = tc_user_email tc))
                             (test_collaborators db) (users db)
                 ∧ (sql_eq (tc_user_id tc) (Some uid) || sql_eq (u_id <$> u) (Some uid))
                   = true) as (u & Hj & Hcond).
    { destruct Hwho as [Hwho|(u & Hu & Hname & Huid)].
      - destruct (left_join_total (λ tc u, bool_decide (u_username u = tc_user_email tc))
                    (test_collaborators db) (users db) tc Htc) as [u Hj].
        exists u. split; [done|]. rewrite Hwho. simpl.
        by rewrite bool_decide_eq_true_2.
      - exists (Some u). split.
        + apply elem_of_left_join. split_and!; [done|done|by apply bool_decide_eq_true].
        + simpl. rewrite (bool_decide_eq_true_2 (u_id u = uid)) by done.
          by rewrite orb_true_r. }
    assert ((tc, u) ∈ @nil (TestCollaboratorRow * option UserRow)) as Hin.
    { rewrite <- Hnil. apply elem_of_List_filter. split; [done|].
      rewrite Hcond, !bool_decide_eq_true_2 by done. done. }
    by apply not_elem_of_nil in Hin.
Qed.

(** With [id] the key of [users]: [has_direct_test_access] holds exactly
    for a logged-in user with an accepted collaborator record on the test,
    matched by id or by e-mail as in the catalogue query; so whoever has
    direct access to a test finds it in the list of [get_all_tests], also
    when it is hidden. *)
Theorem direct_access_is_listed (db : Database) (t : TestRow) (user_id : option Z) :
  NoDup (u_id <$> users db) →
  (has_direct_test_access db (t_id t) user_id = true ↔
   ∃ uid, user_id = Some uid ∧ uid ≠ 0 ∧ accepted_test_collaborator db uid t)
  ∧ (t ∈ tests db → has_direct_test_access db (t_id t) user_id = true →
     listed db user_id t).
Proof.
  intros Hkey.
  assert (has_direct_test_access db (t_id t) user_id = true ↔
          ∃ uid, user_id = Some uid ∧ uid ≠ 0 ∧ accepted_test_collaborator db uid t) as Hiff.
  { destruct user_id as [uid|]; [|naive_solver].
    rewrite has_direct_test_access_spec. unfold accepted_test_collaborator, record_of_user.
    split.
    - intros (Hne & tc & Htc & Hid & Hst & Hwho). exists uid. split_and!; [done..|].
      exists tc. split_and!; [done..| |done].
      destruct Hwho as [?|Hu]; [by left|right]. by apply username_of_spec.
    - intros (uid' & [= <-] & Hne & tc & Htc & Hid & Hwho & Hst). split; [done|].
      exists tc. split_and!; [done..|].
      destruct Hwho as [?|Hu]; [by left|right]. by apply username_of_spec. }
  split; [done|]. intros Ht (uid & -> & Hne & Hacc)%Hiff.
  unfold listed. apply get_all_tests_spec. exists t. split_and!; [done..|].
  right. exists uid. split_and!; [done..|]. right. by left.
Qed.

Lemma direct_access_is_listed_witness :
  (has_direct_test_access sample_db (t_id hidden_test) (Some 7) = true ↔
   ∃ uid, Some 7 = Some uid ∧ uid ≠ 0 ∧ accepted_test_collaborator sample_db uid hidden_test)
  ∧ (hidden_test ∈ tests sample_db →
     has_direct_test_access sample_db (t_id hidden_test) (Some 7) = true →
     listed sample_db (Some 7) hidden_test).
Proof. apply direct_access_is_listed. apply (bool_decide_unpack _). by vm_compute. Defined.

(** Accepting a pending invitation makes the test appear in the user's
    catalogue, whatever its visibility. *)
Theorem accepted_invitation_is_listed (db : Database) (t : TestRow) (uid : Z)
    (u : UserRow) (tc : TestCollaboratorRow) :
  t ∈ tests db → uid ≠ 0 → user_row db uid = Some u →
  tc ∈ test_collaborators db →
  invitation_matches (t_id t) uid (u_username u) tc = true →
  listed (accept_test_invitation db (t_id t) uid) (Some uid) t.
Proof.
  intros Ht Hne Hu Htc Hmatch. unfold listed, accept_test_invitation. rewrite Hu.
  apply get_all_tests_spec. exists t. split_and!; [done|done|].
  right. exists uid. split_and!; [done..|]. right. left.
  exists (mkTestCollaborator (tc_id tc) (tc_test_id tc) (tc_user_email tc) (Some uid)
            (tc_role tc) "accepted").
  pose proof Hmatch as Hm. unfold invitation_matches in Hm.
  apply andb_true_iff in Hm as [Hm _]. apply andb_true_iff in Hm as [Hid _].
  apply bool_decide_eq_true in Hid. simpl. split_and!; [|done|by left|done].
  apply list_elem_of_fmap. exists tc. split; [|done]. by rewrite Hmatch.
Qed.

Lemma accepted_invitation_is_listed_witness :
  listed (accept_test_invitation invited_db (t_id hidden_test) 7) (Some 7) hidden_test.
Proof.
  apply (accepted_invitation_is_listed invited_db hidden_test 7
           (mkUser 7 "ana@example.org") pending_invitation);
    [right; left|done|done|left|done].
Defined.

Lemma List_filter_filter {A} (f keep : A → bool) (l : list A) :
  (∀ x, f x = true → keep x = true) →
  List.filter f (List.filter keep l) = List.filter f l.
Proof.
  intros Himp. induction l as [|x l IH]; simpl; [done|].
  destruct (keep x) eqn:Hk; simpl; rewrite IH; [done|].
  destruct (f x) eqn:Hf; [|done]. rewrite (Himp x Hf) in Hk. done.
Qed.

Lemma left_join_filter_right {L R} (on : L → R → bool) (keep : R → bool)
    (ls : list L) (rs : list R) :
  (∀ l r, on l r = true → keep r = true) →
  left_join on ls (List.filter keep rs) = left_join on ls rs.
Proof.
  intros Himp. unfold left_join. induction ls as [|l ls IH]; [done|].
  cbn [mbind list_bind]. rewrite IH. f_equal.
  rewrite List_filter_filter; [done|]. intros r. apply Himp.
Qed.

(** Declining an invitation removes pending records only: the catalogue of
    every user, logged in or not, is the same list afterwards, so no
    accepted collaboration is revoked by it. *)
Theorem declining_changes_no_catalogue (db : Database) (test_id uid : Z)
    (user_id : option Z) :
  get_all_tests (decline_test_invitation db test_id uid) user_id
  = get_all_tests db user_id.
Proof.
  unfold decline_test_invitation. destruct (user_row db uid) as [u|]; [|done].
  unfold get_all_tests, with_test_collaborators, collaborator_matches, username_of.
  cbn [users tests questions test_collaborators program_tests program_collaborators
       selected_columns].
  destruct user_id as [uid'|]; [|done]. destruct (decide (uid' = 0)); [done|].
  rewrite left_join_filter_right; [done|].
  intros t tc Hon. unfold invitation_matches.
  apply andb_true_iff in Hon as [_ Hon]. apply andb_true_iff in Hon as [_ Hst].
  apply bool_decide_eq_true in Hst. rewrite Hst.
  rewrite (bool_decide_eq_false_2 ("accepted" = "pending")) by done.
  by rewrite andb_false_r.
Qed.

(** ** Session rows *)



(** ** The catalogue is sorted and lists a test once *)

Lemma ascii_compare_not_gt_trans (a b c : ascii) :
  (a ?= b)%char ≠ Gt → (b ?= c)%char ≠ Gt → (a ?= c)%char ≠ Gt.
Proof.
  unfold Ascii.compare. rewrite !N.compare_gt_iff. lia.
Qed.

Lemma string_compare_not_gt_trans (a b c : string) :
  (a ?= b)%string ≠ Gt → (b ?= c)%string ≠ Gt → (a ?= c)%string ≠ Gt.
Proof.
  revert b c. induction a as [|x a IH]; intros [|y b] [|z c]; simpl; try done.
  destruct (x ?= y)%char eqn:Hxy; [|intros _|done].
  - apply Ascii.compare_eq_iff in Hxy as ->.
    destruct (y ?= z)%char; [apply IH|done|done].
  - destruct (y ?= z)%char eqn:Hyz; [|intros _|done].
    + apply Ascii.compare_eq_iff in Hyz as ->. by rewrite Hxy.
    + pose proof (ascii_compare_not_gt_trans x y z) as Ht. rewrite Hxy, Hyz in Ht.
      destruct (x ?= z)%char eqn:Hxz; [|done|by destruct Ht].
      apply Ascii.compare_eq_iff in Hxz as ->.
      rewrite Ascii.compare_antisym, Hyz in Hxy. done.
Qed.

Lemma title_after_asym x y : title_after x y = true → title_after y x = false.
Proof.
  unfold title_after, String.ltb. rewrite (String.compare_antisym (x.1.1.1.1.1.1.2)).
  by destruct (_ ?= _)%string.
Qed.

Lemma title_after_trans x y z :
  title_after x y = false → title_after y z = false → title_after x z = false.
Proof.
  unfold title_after, String.ltb. intros Hxy Hyz.
  pose proof (string_compare_not_gt_trans (x.1.1.1.1.1.1.2) (y.1.1.1.1.1.1.2)
                (z.1.1.1.1.1.1.2)) as Ht.
  rewrite (String.compare_antisym (y.1.1.1.1.1.1.2) (x.1.1.1.1.1.1.2)) in Hxy.
  rewrite (String.compare_antisym (z.1.1.1.1.1.1.2) (y.1.1.1.1.1.1.2)) in Hyz.
  rewrite (String.compare_antisym (z.1.1.1.1.1.1.2) (x.1.1.1.1.1.1.2)).
  destruct (x.1.1.1.1.1.1.2 ?= y.1.1.1.1.1.1.2)%string; try done;
    destruct (y.1.1.1.1.1.1.2 ?= z.1.1.1.1.1.1.2)%string; try done;
    destruct (x.1.1.1.1.1.1.2 ?= z.1.1.1.1.1.1.2)%string; try done;
    by destruct Ht.
Qed.

Lemma StronglySorted_fmap {A B} (f : A → B) (R' : A → A → Prop) (R : B → B → Prop)
    (l : list A) :
  (∀ a b, R' a b → R (f a) (f b)) → StronglySorted R' l → StronglySorted R (f <$> l).
Proof.
  intros Himp. induction 1 as [|x l Hl IH Hx]; simpl; constructor; [done|].
  apply Forall_fmap. eapply Forall_impl; [done|]. intros y. apply Himp.
Qed.

Lemma rows_of_tests (db : Database) (uid : Z) row :
  row ∈ remove_dups
          ((λ '(t, _, _, _), selected_columns db t)
           <$> List.filter
                 (λ '(t, tc, _, pc),
                    visibility_listed (t_visibility t)
                    || sql_eq (t_owner_id t) (Some uid)
                    || bool_decide (is_Some tc)
                    || bool_decide (is_Some pc))
                 (left_join
                    (λ '(_, _, pt) pc,
                       sql_eq (Some (pc_program_id pc)) (pt_program_id <$> pt)
                       && collaborator_matches db uid (pc_user_id pc) (pc_user_email pc)
                            (pc_status pc))
                    (left_join (λ '(t, _) pt, bool_decide (pt_test_id pt = t_id t))
                       (left_join
                          (λ t tc,
                             bool_decide (tc_test_id tc = t_id t)
                             && collaborator_matches db uid (tc_user_id tc)
                                  (tc_user_email tc) (tc_status tc))
                          (tests db) (test_collaborators db))
                       (program_tests db))
                    (program_collaborators db))) →
  ∃ t, t ∈ tests db ∧ row = selected_columns db t.
Proof.
  rewrite elem_of_remove_dups, list_elem_of_fmap.
  intros ([[[t tc] pt] pc] & -> & Hin). apply elem_of_List_filter in Hin as [Hj3 _].
  apply elem_of_left_join in Hj3 as [Hj2 _]. apply elem_of_left_join in Hj2 as [Hj1 _].
  apply elem_of_left_join in Hj1 as [Ht _]. by exists t.
Qed.

Lemma NoDup_fmap_on {A B} (f : A → B) (l : list A) :
  (∀ x y, x ∈ l → y ∈ l → f x = f y → x = y) → NoDup l → NoDup (f <$> l).
Proof.
  induction l as [|x l IH]; intros Hinj Hnd; [constructor|].
  apply NoDup_cons in Hnd as [Hx Hnd]. rewrite fmap_cons. apply NoDup_cons. split.
  - intros (y & Hxy & Hy)%list_elem_of_fmap.
    rewrite (Hinj x y) in Hx; [done|left|by right|done].
  - apply IH; [|done]. intros y z Hy Hz. apply Hinj; by right.
Qed.

Lemma NoDup_fmap_List_filter {A B} (f : A → B) (p : A → bool) (l : list A) :
  NoDup (f <$> l) → NoDup (f <$> List.filter p l).
Proof.
  induction l as [|x l IH]; simpl; [done|]. rewrite NoDup_cons. intros [Hx Hnd].
  destruct (p x); [|by apply IH]. rewrite fmap_cons. apply NoDup_cons. split; [|by apply IH].
  intros (y & Hxy & Hy)%list_elem_of_fmap. apply elem_of_List_filter in Hy as [Hy _].
  apply Hx. rewrite Hxy. by apply list_elem_of_fmap_2.
Qed.

(** With [id] the key of [tests], the list that [get_all_tests] returns
    holds no test twice, however many collaborator records and programs
    link the user to it, and it is in ascending order of the titles. *)
Theorem catalogue_sorted_without_repeats (db : Database) (user_id : option Z) :
  NoDup (t_id <$> tests db) →
  NoDup (ti_id <$> get_all_tests db user_id)
  ∧ StronglySorted (λ a b, String.leb (ti_title a) (ti_title b) = true)
      (get_all_tests db user_id).
Proof.
  intros Hkey. unfold get_all_tests.
  set (rows := match user_id with Some _ => _ | None => _ end).
  assert (NoDup ((λ r, r.1.1.1.1.1.1.1.1) <$> rows)) as Hrows.
  { assert (NoDup ((λ r, r.1.1.1.1.1.1.1.1)
                   <$> (selected_columns db
                        <$> List.filter (λ t, visibility_listed (t_visibility t))
                              (tests db)))) as Hanon.
    { rewrite <- list_fmap_compose. by apply (NoDup_fmap_List_filter t_id). }
    unfold rows. destruct user_id as [uid|]; [|done].
    destruct (decide (uid = 0)); [done|].
    apply NoDup_fmap_on; [|apply NoDup_remove_dups].
    intros r1 r2 (t1 & Ht1 & ->)%rows_of_tests (t2 & Ht2 & ->)%rows_of_tests Hid.
    simpl in Hid. by rewrite (NoDup_fmap_eq t_id (tests db) t1 t2). }
  split.
  - rewrite <- list_fmap_compose.
    assert (ti_id ∘ row_to_info <$> stable_sort title_after rows
            = (λ r, r.1.1.1.1.1.1.1.1) <$> stable_sort title_after rows) as ->.
    { apply list_fmap_ext. by intros i [[[[[[[[]]]]]]]]. }
    by rewrite stable_sort_perm.
  - eapply StronglySorted_fmap;
      [|apply (stable_sort_sorted title_after title_after_asym title_after_trans)].
    intros [[[[[[[[]]]]]]]] [[[[[[[[]]]]]]]]. unfold title_after, String.ltb, String.leb.
    simpl. rewrite String.compare_antisym. by destruct (_ ?= _)%string.
Qed.

Lemma catalogue_sorted_without_repeats_witness :
  NoDup (ti_id <$> get_all_tests sample_db (Some 7))
  ∧ StronglySorted (λ a b, String.leb (ti_title a) (ti_title b) = true)
      (get_all_tests sample_db (Some 7)).
Proof.
  apply catalogue_sorted_without_repeats. apply (bool_decide_unpack _). by vm_compute.
Defined.

(** ** Inviting a collaborator *)

Lemma left_join_app_right {L R} (on : L → R → bool) (ls : list L) (rs : list R) (r : R) :
  (∀ l, on l r = false) → left_join on ls (rs ++ [r]) = left_join on ls rs.
Proof.
  intros Hoff. unfold left_join. induction ls as [|l ls IH]; [done|].
  cbn [mbind list_bind]. rewrite IH. f_equal.
  rewrite List.filter_app. simpl. by rewrite (Hoff l), app_nil_r.
Qed.

Lemma existsb_false_filter {A} (f : A → bool) (l : list A) :
  existsb f l = false → ∀ x, x ∈ l → f x = false.
Proof.
  induction l as [|y l IH]; simpl; [by intros _ x ?%not_elem_of_nil|].
  intros [Hy Hl]%orb_false_iff x [->|Hx]%elem_of_cons; [done|by apply IH].
Qed.

(** A first invitation goes through when the role is one of the four, the
    test exists and the e-mail has no record on the test: the new record is
    pending, it is the only record of that e-mail on the test, and the
    catalogue of every user is the same list as before, so the invitation
    alone shows the test to nobody. *)
Theorem first_invitation_is_pending (db : Database) (seq test_id : Z) (email role : string) :
  role ∈ roles → test_id ∈ t_id <$> tests db →
  (∀ tc, tc ∈ test_collaborators db → invitation_of test_id email tc = false) →
  ∃ db' tc,
    add_collaborator db seq test_id email role = DbOk (db', seq + 1)
    ∧ test_collaborators db' = test_collaborators db ++ [tc]
    ∧ tc_test_id tc = test_id ∧ tc_user_email tc = email ∧ tc_role tc = role
    ∧ tc_status tc = "pending"
    ∧ ∀ user_id, get_all_tests db' user_id = get_all_tests db user_id.
Proof.
  intros Hrole Htest Hnew. unfold add_collaborator.
  rewrite !bool_decide_eq_true_2 by done.
  assert (existsb (invitation_of test_id email) (test_collaborators db) = false) as ->.
  { apply not_true_iff_false. intros (tc & Htc & Hhit)%existsb_exists.
    apply list_elem_of_In in Htc. by rewrite (Hnew tc Htc) in Hhit. }
  simpl. eexists _, _. split_and!; try done.
  intros user_id. unfold get_all_tests, with_test_collaborators, collaborator_matches,
    username_of.
  cbn [users tests questions test_collaborators program_tests program_collaborators
       selected_columns tc_status tc_test_id tc_user_id tc_user_email].
  destruct user_id as [uid'|]; [|done]. destruct (decide (uid' = 0)); [done|].
  rewrite left_join_app_right; [done|]. intros t. cbn.
  rewrite (bool_decide_eq_false_2 ("pending" = "accepted")) by done.
  by rewrite !andb_false_r.
Qed.

Lemma first_invitation_is_pending_witness :
  ∃ db' tc,
    add_collaborator sample_db 1 1 "ana@example.org" "guest" = DbOk (db', 1 + 1)
    ∧ test_collaborators db' = test_collaborators sample_db ++ [tc]
    ∧ tc_test_id tc = 1 ∧ tc_user_email tc = "ana@example.org" ∧ tc_role tc = "guest"
    ∧ tc_status tc = "pending"
    ∧ ∀ user_id, get_all_tests db' user_id = get_all_tests sample_db user_id.
Proof.
  apply first_invitation_is_pending.
  - right. left.
  - left.
  - intros tc Htc. apply list_elem_of_singleton in Htc as ->. done.
Defined.

(** Inviting an e-mail that already has a record on the test adds no
    record and leaves its status alone, so an accepted collaborator stays
    accepted and only the role changes; with a role outside the four the
    call raises [IntegrityError].  When there is no such record and the
    role is outside the four or the test does not exist, the call returns
    without an error and without any change. *)
Theorem repeated_invitation_keeps_status (db : Database) (seq test_id : Z)
    (email role : string) :
  (role ∈ roles →
   (∃ tc, tc ∈ test_collaborators db ∧ invitation_of test_id email tc = true) →
   ∃ db', add_collaborator db seq test_id email role = DbOk (db', seq)
          ∧ tc_status <$> test_collaborators db' = tc_status <$> test_collaborators db
          ∧ tc_user_email <$> test_collaborators db'
            = tc_user_email <$> test_collaborators db
          ∧ ∀ tc', tc' ∈ test_collaborators db' →
                   invitation_of test_id email tc' = true → tc_role tc' = role)
  ∧ (role ∉ roles →
     (∃ tc, tc ∈ test_collaborators db ∧ invitation_of test_id email tc = true) →
     add_collaborator db seq test_id email role = IntegrityError)
  ∧ (role ∉ roles ∨ test_id ∉ t_id <$> tests db →
     (∀ tc, tc ∈ test_collaborators db → invitation_of test_id email tc = false) →
     add_collaborator db seq test_id email role = DbOk (db, seq)).
Proof.
  assert (∀ tc, tc ∈ test_collaborators db → invitation_of test_id email tc = true →
                existsb (invitation_of test_id email) (test_collaborators db) = true)
    as Hex.
  { intros tc Htc Hhit. apply existsb_exists. exists tc. by rewrite <- list_elem_of_In. }
  split_and!.
  - intros Hrole (tc & Htc & Hhit). unfold add_collaborator.
    rewrite (Hex tc Htc Hhit), (bool_decide_eq_true_2 _ Hrole). simpl.
    rewrite andb_false_r. simpl. eexists. split; [done|]. simpl. split_and!.
    + rewrite <- list_fmap_compose. apply list_fmap_ext. intros i x _. simpl.
      by destruct (invitation_of test_id email x).
    + rewrite <- list_fmap_compose. apply list_fmap_ext. intros i x _. simpl.
      by destruct (invitation_of test_id email x).
    + intros tc' (x & -> & Hx)%list_elem_of_fmap.
      destruct (invitation_of test_id email x) eqn:Hx'; [done|]. simpl. congruence.
  - intros Hrole (tc & Htc & Hhit). unfold add_collaborator.
    rewrite (Hex tc Htc Hhit), (bool_decide_eq_false_2 _ Hrole). done.
  - intros Hbad Hnew. unfold add_collaborator.
    assert (existsb (invitation_of test_id email) (test_collaborators db) = false) as ->.
    { apply not_true_iff_false. intros (tc & Htc & Hhit)%existsb_exists.
      apply list_elem_of_In in Htc. by rewrite (Hnew tc Htc) in Hhit. }
    assert (bool_decide (role ∈ roles) && bool_decide (test_id ∈ t_id <$> tests db)
            = false) as ->.
    { destruct Hbad as [Hbad|Hbad]; rewrite (bool_decide_eq_false_2 _ Hbad);
        [done|by rewrite andb_false_r]. }
    simpl. f_equal. f_equal. destruct db as [us ts qs tcs pts pcs]. simpl in *.
    unfold with_test_collaborators. simpl. f_equal.
    rewrite <- (list_fmap_id tcs) at 2. apply list_fmap_ext.
    intros i x Hx. apply list_elem_of_lookup_2 in Hx. by rewrite (Hnew x Hx).
Qed.

(** ** Favourites *)

Lemma py_str_int_inj (a b : Z) : py_str_int a = py_str_int b → a = b.
Proof.
  unfold py_str_int. intros Heq.
  assert (∀ z, NilZero.int_of_string (NilZero.string_of_int (Z.to_int z))
               = Some (Z.to_int z)) as Hinv.
  { intros z. apply NilZero.isi; destruct z as [|p|p]; simpl; try done;
      intros [= Hp]; by apply (DecimalPos.Unsigned.to_uint_nonnil p). }
  pose proof (Hinv a) as Ha. rewrite Heq, Hinv in Ha. injection Ha as Ha.
  by rewrite <- (DecimalZ.of_to a), <- (DecimalZ.of_to b), Ha.
Qed.

Lemma elem_of_get_favorite_tests (favs : list FavoriteRow) (uid t : Z) :
  t ∈ get_favorite_tests favs uid ↔
  ∃ f, f ∈ favs ∧ f_user_id f = uid ∧ f_test_id f = Some t.
Proof.
  unfold get_favorite_tests. rewrite elem_of_list_to_set, list_elem_of_omap.
  split.
  - intros (f & [Hf Hu]%elem_of_List_filter & Ht). apply bool_decide_eq_true in Hu.
    by exists f.
  - intros (f & Hf & Hu & Ht). exists f. split; [|done].
    apply elem_of_List_filter. by rewrite bool_decide_eq_true.
Qed.

Lemma head_List_filter_None {A} (f : A → bool) (l : list A) :
  head (List.filter f l) = None → ∀ x, x ∈ l → f x = false.
Proof.
  intros Hh x Hx. destruct (f x) eqn:Hfx; [|done].
  assert (x ∈ List.filter f l) as Hin by by apply elem_of_List_filter.
  destruct (List.filter f l); [by apply not_elem_of_nil in Hin|done].
Qed.

Lemma toggle_favorite_once (db : Database) (favs : list FavoriteRow) (seq uid tid : Z) :
  favorites_wf favs → (∀ f, f ∈ favs → f_id f ≤ seq) →
  uid ∈ u_id <$> users db → tid ∈ t_id <$> tests db →
  ∃ b favs' seq',
    toggle_favorite db favs seq uid tid = DbOk (b, favs', seq')
    ∧ (b = true ↔ tid ∉ get_favorite_tests favs uid)
    ∧ (tid ∈ get_favorite_tests favs' uid ↔ b = true)
    ∧ (∀ u t, (u, t) ≠ (uid, tid) →
              t ∈ get_favorite_tests favs' u ↔ t ∈ get_favorite_tests favs u)
    ∧ favorites_wf favs' ∧ (∀ f, f ∈ favs' → f_id f ≤ seq').
Proof.
  intros (Hids & Hfile & Huniq) Hseq Huser Htest. unfold toggle_favorite.
  destruct (head _) as [row|] eqn:Hhead.
  - apply head_List_filter_elem in Hhead as [Hrow Hmatch].
    apply andb_true_iff in Hmatch as [Hu Ht]. apply bool_decide_eq_true in Hu.
    assert (f_test_id row = Some tid) as Ht'.
    { unfold sql_eq in Ht. destruct (f_test_id row); [|done].
      apply bool_decide_eq_true in Ht. by subst. }
    assert (∀ f, f ∈ favs → f_user_id f = uid → f_test_id f = Some tid → f = row) as Hone.
    { intros f Hf Hfu Hft. apply Huniq; [done|done|congruence|].
      destruct (Hfile f Hf) as (t & Ht1 & ->). destruct (Hfile row Hrow) as (t' & Ht2 & ->).
      congruence. }
    eexists false, _, seq. split; [done|]. split_and!.
    + split; [done|]. intros Hnot. destruct Hnot.
      apply elem_of_get_favorite_tests. by exists row.
    + split; [|done]. intros (f & [Hf Hid]%elem_of_List_filter & Hfu & Hft)%elem_of_get_favorite_tests.
      rewrite (Hone f Hf Hfu Hft) in Hid. by rewrite bool_decide_eq_true_2 in Hid.
    + intros u t Hne. rewrite !elem_of_get_favorite_tests. split.
      * intros (f & [Hf _]%elem_of_List_filter & ? & ?). by exists f.
      * intros (f & Hf & Hfu & Hft). exists f. split_and!; [|done..].
        apply elem_of_List_filter. split; [done|]. apply negb_true_iff, bool_decide_eq_false.
        intros Hid. apply (NoDup_fmap_eq f_id favs f row Hids Hf Hrow) in Hid. subst f.
        apply Hne. congruence.
    + split_and!.
      * by apply NoDup_fmap_List_filter.
      * intros f [Hf _]%elem_of_List_filter. by apply Hfile.
      * intros f f' [Hf _]%elem_of_List_filter [Hf' _]%elem_of_List_filter. by apply Huniq.
    + intros f [Hf _]%elem_of_List_filter. by apply Hseq.
  - pose proof (head_List_filter_None _ _ Hhead) as Hnone.
    assert (∀ f, f ∈ favs → f_user_id f = uid → f_test_id f ≠ Some tid) as Hno.
    { intros f Hf Hfu Hft. specialize (Hnone f Hf). simpl in Hnone.
      rewrite Hft, bool_decide_eq_true_2 in Hnone by done. simpl in Hnone.
      by rewrite bool_decide_eq_true_2 in Hnone. }
    assert (∀ f, f ∈ favs → f_user_id f = uid → f_test_file f ≠ py_str_int tid) as Hnofile.
    { intros f Hf Hfu Hff. destruct (Hfile f Hf) as (t & Ht1 & Ht2).
      rewrite Ht2 in Hff. apply py_str_int_inj in Hff as ->. by apply (Hno f). }
    rewrite !bool_decide_eq_true_2 by done.
    assert (existsb (λ f, bool_decide (f_user_id f = uid)
                          && bool_decide (f_test_file f = py_str_int tid)) favs = false)
      as ->.
    { apply not_true_iff_false. intros (f & Hf & Hm)%existsb_exists.
      apply list_elem_of_In in Hf. apply andb_true_iff in Hm as [Hfu Hff].
      apply bool_decide_eq_true in Hfu, Hff. by apply (Hnofile f). }
    simpl. eexists true, _, (seq + 1). split; [done|]. split_and!.
    + split; [|done]. intros _ (f & Hf & Hfu & Hft)%elem_of_get_favorite_tests.
      by apply (Hno f).
    + split; [done|]. intros _. apply elem_of_get_favorite_tests. eexists.
      split; [apply elem_of_app; right; left|done].
    + intros u t Hne. rewrite !elem_of_get_favorite_tests. split.
      * intros (f & [Hf|Hf%list_elem_of_singleton]%elem_of_app & Hfu & Hft); [by exists f|].
        subst f. simpl in *. destruct Hne. congruence.
      * intros (f & Hf & ? & ?). exists f. split; [|done]. apply elem_of_app. by left.
    + split_and!.
      * rewrite fmap_app. apply NoDup_app. split_and!; [done| |apply NoDup_singleton].
        intros x (f & -> & Hf)%list_elem_of_fmap Hx%list_elem_of_singleton.
        simpl in Hx. specialize (Hseq f Hf). lia.
      * intros f [Hf|Hf%list_elem_of_singleton]%elem_of_app; [by apply Hfile|].
        subst f. by exists tid.
      * intros f f' [Hf|Hf%list_elem_of_singleton]%elem_of_app
          [Hf'|Hf'%list_elem_of_singleton]%elem_of_app Hu Hff; subst; simpl in *.
        -- by apply Huniq.
        -- by destruct (Hnofile f Hf).
        -- by destruct (Hnofile f' Hf').
        -- done.
    + intros f [Hf|Hf%list_elem_of_singleton]%elem_of_app;
        [specialize (Hseq f Hf); lia|subst f; simpl; lia].
Qed.

(** On a table that [toggle_favorite] has filled, for an existing user and
    test, the call returns [True] exactly when the test was not a favourite
    of the user, and afterwards the test is a favourite exactly when it
    returned [True]; the favourites of other users and the user's other
    favourites stay as they are, and a second call returns the opposite and
    brings back the favourites of every user. *)
Theorem toggle_favorite_twice (db : Database) (favs : list FavoriteRow) (seq uid tid : Z) :
  favorites_wf favs → (∀ f, f ∈ favs → f_id f ≤ seq) →
  uid ∈ u_id <$> users db → tid ∈ t_id <$> tests db →
  ∃ b favs1 seq1 favs2 seq2,
    toggle_favorite db favs seq uid tid = DbOk (b, favs1, seq1)
    ∧ (b = true ↔ tid ∉ get_favorite_tests favs uid)
    ∧ (tid ∈ get_favorite_tests favs1 uid ↔ b = true)
    ∧ (∀ u t, (u, t) ≠ (uid, tid) →
              t ∈ get_favorite_tests favs1 u ↔ t ∈ get_favorite_tests favs u)
    ∧ toggle_favorite db favs1 seq1 uid tid = DbOk (negb b, favs2, seq2)
    ∧ ∀ u, get_favorite_tests favs2 u = get_favorite_tests favs u.
Proof.
  intros Hwf Hseq Huser Htest.
  destruct (toggle_favorite_once db favs seq uid tid Hwf Hseq Huser Htest)
    as (b & favs1 & seq1 & Hrun1 & Hb1 & Hin1 & Hother1 & Hwf1 & Hseq1).
  destruct (toggle_favorite_once db favs1 seq1 uid tid Hwf1 Hseq1 Huser Htest)
    as (b2 & favs2 & seq2 & Hrun2 & Hb2 & Hin2 & Hother2 & _ & _).
  assert (b2 = negb b) as ->.
  { destruct b, b2; simpl; try done.
    - destruct (proj1 Hb2 eq_refl). by apply Hin1.
    - assert (tid ∉ get_favorite_tests favs1 uid) as Hnot
        by (intros Hin; by apply Hin1 in Hin).
      by apply Hb2 in Hnot. }
  exists b, favs1, seq1, favs2, seq2. split_and!; try done.
  intros u. apply set_eq. intros t.
  destruct (decide ((u, t) = (uid, tid))) as [[= -> ->]|Hne].
  - rewrite Hin2. destruct b; simpl.
    + split; [done|]. intros Hin. by destruct (proj1 Hb1 eq_refl).
    + split; [|done]. intros _.
      destruct (decide (tid ∈ get_favorite_tests favs uid)) as [Hin|Hnot]; [done|].
      by apply Hb1 in Hnot.
  - by rewrite (Hother2 u t Hne), (Hother1 u t Hne).
Qed.

Lemma toggle_favorite_twice_witness :
  ∃ b favs1 seq1 favs2 seq2,
    toggle_favorite sample_db [] 0 7 1 = DbOk (b, favs1, seq1)
    ∧ (b = true ↔ 1 ∉ get_favorite_tests [] 7)
    ∧ (1 ∈ get_favorite_tests favs1 7 ↔ b = true)
    ∧ (∀ u t, (u, t) ≠ (7, 1) →
              t ∈ get_favorite_tests favs1 u ↔ t ∈ get_favorite_tests [] u)
    ∧ toggle_favorite sample_db favs1 seq1 7 1 = DbOk (negb b, favs2, seq2)
    ∧ ∀ u, get_favorite_tests favs2 u = get_favorite_tests [] u.
Proof.
  apply toggle_favorite_twice.
  - split_and!; [apply NoDup_nil_2|by intros f ?%not_elem_of_nil|].
    by intros f f' ?%not_elem_of_nil.
  - by intros f ?%not_elem_of_nil.
  - left.
  - left.
Defined.

(** ** Tags of a test *)

Lemma tag_row_is_spec (test_id : Z) (tag : string) (r : TagRow) :
  tag_row_is test_id tag r = true ↔ tg_test_id r = test_id ∧ tg_tag r = tag.
Proof. unfold tag_row_is. by rewrite andb_true_iff, !bool_decide_eq_true. Qed.

Lemma question_tag_is_spec (test_id : Z) (tag : string) (q : QuestionTag) :
  question_tag_is test_id tag q = true ↔ qt_test_id q = test_id ∧ qt_tag q = tag.
Proof. unfold question_tag_is. by rewrite andb_true_iff, !bool_decide_eq_true. Qed.

Lemma elem_of_get_test_tags (s : TagStore) (test_id : Z) (tag : string) :
  tag ∈ get_test_tags s test_id ↔ tag ≠ EmptyString ∧ tag_registered s test_id tag.
Proof.
  unfold get_test_tags, tag_registered.
  rewrite elem_of_List_filter, stable_sort_perm, list_elem_of_fmap, negb_true_iff,
    bool_decide_eq_false.
  split.
  - intros [(r & -> & [Hr Ht]%elem_of_List_filter) Hne].
    apply bool_decide_eq_true in Ht. split; [done|]. by exists r.
  - intros [Hne (r & Hr & Ht & <-)]. split; [|done]. exists r. split; [done|].
    apply elem_of_List_filter. by rewrite bool_decide_eq_true.
Qed.

Lemma head_List_filter_is_Some {A} (f : A → bool) (l : list A) :
  is_Some (head (List.filter f l)) ↔ ∃ x, x ∈ l ∧ f x = true.
Proof.
  split.
  - intros [x Hx]. exists x. by apply head_List_filter_elem.
  - intros (x & Hx & Hf).
    assert (x ∈ List.filter f l) as Hin by by apply elem_of_List_filter.
    destruct (List.filter f l); [by apply not_elem_of_nil in Hin|by eexists].
Qed.

Lemma set_question_tag_same (q : QuestionTag) : set_question_tag (qt_tag q) q = q.
Proof. by destruct q. Qed.

Lemma tag_key_of_not_hit (test_id : Z) (tag : string) (r : TagRow) :
  tag_row_is test_id tag r = false → (tg_test_id r, tg_tag r) ≠ (test_id, tag).
Proof.
  intros Hr [= Ht Hg]. assert (tag_row_is test_id tag r = true) by by apply tag_row_is_spec.
  congruence.
Qed.

(** The rows of the registry after a renaming, one by one. *)
Lemma rename_test_tag_registered (s : TagStore) (test_id : Z) (old_tag new_tag : string)
    (t : Z) (tag : string) :
  old_tag ≠ new_tag →
  tag_registered (rename_test_tag s test_id old_tag new_tag) t tag ↔
  (t, tag) ≠ (test_id, old_tag) ∧
  (tag_registered s t tag ∨
   (t, tag) = (test_id, new_tag) ∧ tag_registered s test_id old_tag).
Proof.
  intros Hne. unfold rename_test_tag, tag_registered. cbn [tag_rows].
  destruct (head (List.filter (tag_row_is test_id new_tag) (tag_rows s))) as [e|] eqn:He.
  - apply head_List_filter_elem in He as [He Hhit]. apply tag_row_is_spec in Hhit as [He1 He2].
    split.
    + intros (r & [Hr Hn]%elem_of_List_filter & <- & <-). apply negb_true_iff in Hn.
      split; [by apply tag_key_of_not_hit|]. left. by exists r.
    + intros [Hk [(r & Hr & <- & <-)|[[= -> ->] _]]].
      * exists r. split; [|done]. apply elem_of_List_filter. split; [done|].
        apply negb_true_iff. destruct (tag_row_is test_id old_tag r) eqn:Hh; [|done].
        apply tag_row_is_spec in Hh as [<- <-]. done.
      * exists e. split; [|done]. apply elem_of_List_filter. split; [done|].
        apply negb_true_iff. destruct (tag_row_is test_id old_tag e) eqn:Hh; [|done].
        apply tag_row_is_spec in Hh as [_ Hh]. congruence.
  - pose proof (head_List_filter_None _ _ He) as Hnone. split.
    + intros (r' & (r & -> & Hr)%list_elem_of_fmap & <- & <-).
      destruct (tag_row_is test_id old_tag r) eqn:Hh; cbn [tg_test_id tg_tag].
      * apply tag_row_is_spec in Hh as [<- <-]. split; [congruence|].
        right. split; [done|]. by exists r.
      * split; [by apply tag_key_of_not_hit|]. left. by exists r.
    + intros [Hk [(r & Hr & <- & <-)|[[= -> ->] (r & Hr & Ht & Hg)]]].
      * exists r. split; [|done]. apply list_elem_of_fmap. exists r. split; [|done].
        destruct (tag_row_is test_id old_tag r) eqn:Hh; [|done].
        apply tag_row_is_spec in Hh as [<- <-]. done.
      * exists (mkTag (tg_id r) (tg_test_id r) new_tag). split; [|done].
        apply list_elem_of_fmap. exists r. split; [|done].
        assert (tag_row_is test_id old_tag r = true) as -> by by apply tag_row_is_spec.
        done.
Qed.

Lemma rename_test_tag_unique (s : TagStore) (test_id : Z) (old_tag new_tag : string) :
  tags_unique s → tags_unique (rename_test_tag s test_id old_tag new_tag).
Proof.
  unfold tags_unique, rename_test_tag. cbn [tag_rows]. intros Hnd.
  destruct (head (List.filter (tag_row_is test_id new_tag) (tag_rows s))) as [e|] eqn:He.
  - by apply NoDup_fmap_List_filter.
  - pose proof (head_List_filter_None _ _ He) as Hnone. clear He.
    rewrite <- list_fmap_compose.
    induction (tag_rows s) as [|r rs IH]; [constructor|].
    rewrite fmap_cons in Hnd. apply NoDup_cons in Hnd as [Hr Hnd].
    rewrite fmap_cons. apply NoDup_cons. split.
    + intros (r' & Hk & Hr')%list_elem_of_fmap. cbn [compose] in Hk.
      assert (tag_row_is test_id new_tag r' = false) as Hn' by (apply Hnone; by right).
      assert (tag_row_is test_id new_tag r = false) as Hn by (apply Hnone; left).
      destruct (tag_row_is test_id old_tag r) eqn:Hh;
        destruct (tag_row_is test_id old_tag r') eqn:Hh'; cbn [tg_test_id tg_tag] in Hk.
      * apply tag_row_is_spec in Hh as [Ht Hg]. apply tag_row_is_spec in Hh' as [Ht' Hg'].
        apply Hr. apply list_elem_of_fmap. exists r'. split; [|done]. congruence.
      * apply tag_row_is_spec in Hh as [Ht Hg]. injection Hk as Hk1 Hk2.
        assert (tag_row_is test_id new_tag r' = true); [|congruence].
        apply tag_row_is_spec. split; congruence.
      * apply tag_row_is_spec in Hh' as [Ht' Hg']. injection Hk as Hk1 Hk2.
        assert (tag_row_is test_id new_tag r = true); [|congruence].
        apply tag_row_is_spec. split; congruence.
      * apply Hr. apply list_elem_of_fmap. by exists r'.
    + apply IH; [done|]. intros x Hx. apply Hnone. by right.
Qed.

(** X22: renaming a registered tag of a test to another name keeps the
    registry free of repeats and every tagged question registered, removes
    the old name from the test (its list of tags and its questions),
    leaves the new name registered, leaves every other entry alone and
    moves the questions without losing one. *)
Theorem rename_test_tag_merges (s : TagStore) (test_id : Z) (old_tag new_tag : string) :
  tags_unique s → tags_cover s → tag_registered s test_id old_tag → old_tag ≠ new_tag →
  tags_unique (rename_test_tag s test_id old_tag new_tag) ∧
  tags_cover (rename_test_tag s test_id old_tag new_tag) ∧
  (old_tag ∉ get_test_tags (rename_test_tag s test_id old_tag new_tag) test_id) ∧
  (∀ q, q ∈ tagged_questions (rename_test_tag s test_id old_tag new_tag) →
        qt_test_id q = test_id → qt_tag q ≠ old_tag) ∧
  tag_registered (rename_test_tag s test_id old_tag new_tag) test_id new_tag ∧
  (∀ t tag, (t, tag) ≠ (test_id, old_tag) → (t, tag) ≠ (test_id, new_tag) →
     (tag_registered (rename_test_tag s test_id old_tag new_tag) t tag ↔
      tag_registered s t tag)) ∧
  (λ q, (qt_id q, qt_test_id q, qt_num q))
    <$> tagged_questions (rename_test_tag s test_id old_tag new_tag)
  = (λ q, (qt_id q, qt_test_id q, qt_num q)) <$> tagged_questions s ∧
  (∀ q, q ∈ tagged_questions s →
        (if question_tag_is test_id old_tag q then set_question_tag new_tag q else q)
        ∈ tagged_questions (rename_test_tag s test_id old_tag new_tag)).
Proof.
  intros Hu Hc Hold Hne. split_and!.
  - by apply rename_test_tag_unique.
  - intros q' Hq' Hb. apply rename_test_tag_registered; [done|].
    unfold rename_test_tag in Hq'. cbn [tagged_questions] in Hq'.
    apply list_elem_of_fmap in Hq' as (q & -> & Hq).
    destruct (question_tag_is test_id old_tag q) eqn:Hh.
    + apply question_tag_is_spec in Hh as [Ht Hg]. cbn [set_question_tag qt_test_id qt_tag] in *.
      rewrite Ht. split; [congruence|]. by right.
    + assert ((qt_test_id q, qt_tag q) ≠ (test_id, old_tag)) as Hk.
      { intros [= Ht Hg]. assert (question_tag_is test_id old_tag q = true)
          by by apply question_tag_is_spec. congruence. }
      split; [done|]. left. by apply Hc.
  - rewrite elem_of_get_test_tags, rename_test_tag_registered by done.
    intros [_ [Hk _]]. done.
  - intros q' Hq' Ht Hg. unfold rename_test_tag in Hq'. cbn [tagged_questions] in Hq'.
    apply list_elem_of_fmap in Hq' as (q & -> & Hq).
    destruct (question_tag_is test_id old_tag q) eqn:Hh.
    + cbn [set_question_tag qt_tag] in Hg. congruence.
    + assert (question_tag_is test_id old_tag q = true) by by apply question_tag_is_spec.
      congruence.
  - apply rename_test_tag_registered; [done|]. split; [congruence|]. by right.
  - intros t tag Hk1 Hk2. rewrite rename_test_tag_registered by done. split.
    + intros [_ [H|[H _]]]; done.
    + intros H. split; [done|]. by left.
  - unfold rename_test_tag. cbn [tagged_questions]. rewrite <- list_fmap_compose.
    apply list_fmap_ext. intros i q _. cbn [compose].
    by destruct (question_tag_is test_id old_tag q).
  - intros q Hq. unfold rename_test_tag. cbn [tagged_questions].
    apply list_elem_of_fmap. by exists q.
Qed.

Lemma rename_test_tag_merges_witness :
  let s := mkTagStore [mkTag 1 7 "Bones"; mkTag 2 7 "Muscles"]
             [mkQuestionTag 1 7 1 "Bones"; mkQuestionTag 2 7 2 "Muscles"] in
  get_test_tags (rename_test_tag s 7 "Bones" "Muscles") 7 = ["Muscles"] ∧
  "Bones" ∉ get_test_tags (rename_test_tag s 7 "Bones" "Muscles") 7.
Proof.
  intros s. split; [reflexivity|].
  refine (proj1 (proj2 (proj2 (rename_test_tag_merges s 7 "Bones" "Muscles" _ _ _ _)))).
  - unfold tags_unique. vm_compute. repeat (apply NoDup_cons; split; [set_solver|]).
    apply NoDup_nil_2.
  - intros q Hq _. unfold tag_registered. cbn [s tagged_questions tag_rows] in *.
    apply list_elem_of_In in Hq. destruct Hq as [<-|[<-|[]]].
    + exists (mkTag 1 7 "Bones"). split; [left|done].
    + exists (mkTag 2 7 "Muscles"). split; [right; left|done].
  - exists (mkTag 1 7 "Bones"). split; [left|done].
  - done.
Defined.

(** X23: renaming a registered tag to its own name removes it from the
    registry and from the list of tags of the test, while the questions
    keep it. *)
Theorem rename_test_tag_same_name (s : TagStore) (test_id : Z) (tag : string) :
  tag_registered s test_id tag →
  tagged_questions (rename_test_tag s test_id tag tag) = tagged_questions s ∧
  ¬ tag_registered (rename_test_tag s test_id tag tag) test_id tag ∧
  tag ∉ get_test_tags (rename_test_tag s test_id tag tag) test_id.
Proof.
  intros (r & Hr & Ht & Hg).
  assert (¬ tag_registered (rename_test_tag s test_id tag tag) test_id tag) as Hno.
  { unfold rename_test_tag, tag_registered. cbn [tag_rows].
    destruct (head (List.filter (tag_row_is test_id tag) (tag_rows s))) as [e|] eqn:He.
    - intros (r' & [Hr' Hn]%elem_of_List_filter & Ht' & Hg'). apply negb_true_iff in Hn.
      assert (tag_row_is test_id tag r' = true) by by apply tag_row_is_spec. congruence.
    - pose proof (head_List_filter_None _ _ He r Hr) as Hn.
      assert (tag_row_is test_id tag r = true) by by apply tag_row_is_spec. congruence. }
  split_and!; [|done|].
  - unfold rename_test_tag. cbn [tagged_questions].
    rewrite <- (list_fmap_id (tagged_questions s)) at 2. apply list_fmap_ext.
    intros i q _. destruct (question_tag_is test_id tag q) eqn:Hh; [|done].
    apply question_tag_is_spec in Hh as [_ <-]. apply set_question_tag_same.
  - rewrite elem_of_get_test_tags. intros [_ H]. done.
Qed.

Lemma rename_test_tag_same_name_witness :
  let s := mkTagStore [mkTag 1 7 "Bones"] [mkQuestionTag 1 7 1 "Bones"] in
  tagged_questions (rename_test_tag s 7 "Bones" "Bones") = tagged_questions s ∧
  ¬ tag_registered (rename_test_tag s 7 "Bones" "Bones") 7 "Bones" ∧
  "Bones" ∉ get_test_tags (rename_test_tag s 7 "Bones" "Bones") 7.
Proof.
  intros s. apply (rename_test_tag_same_name s 7 "Bones").
  exists (mkTag 1 7 "Bones"). split; [left|done].
Defined.

Lemma delete_test_tag_registered (s : TagStore) (test_id : Z) (tag : string) (dq : bool)
    (t : Z) (tag' : string) :
  tag_registered (delete_test_tag s test_id tag dq) t tag' ↔
  (t, tag') ≠ (test_id, tag) ∧ tag_registered s t tag'.
Proof.
  unfold delete_test_tag, tag_registered. cbn [tag_rows]. split.
  - intros (r & [Hr Hn]%elem_of_List_filter & <- & <-). apply negb_true_iff in Hn.
    split; [by apply tag_key_of_not_hit|]. by exists r.
  - intros [Hk (r & Hr & <- & <-)]. exists r. split; [|done].
    apply elem_of_List_filter. split; [done|]. apply negb_true_iff.
    destruct (tag_row_is test_id tag r) eqn:Hh; [|done].
    apply tag_row_is_spec in Hh as [<- <-]. done.
Qed.


